(** * Task / project management backend: mutation methods and reports

    A shallow embedding of the Meteor methods of
    [imports/api/methods/tasks.methods.ts], [imports/api/projects/methods.ts]
    and of the reporting functions of the aggregations module, together with
    the properties of the specification that concern them.

    Conventions of the embedding
    - a Mongo collection keyed by [_id] is a [gmap string doc];
    - a [Date] is its number of milliseconds since the epoch, in [Z];
    - a JavaScript [number] is an IEEE 754 binary64 value, with the
      arithmetic of the Standard Library's [SpecFloat]: every operation
      rounds to the nearest double, ties to even, and there are two zeros,
      two infinities and [NaN];
    - a JavaScript string is the [string] of its UTF-8 bytes, as a string
      literal of this file is read; its [length] is [js_length], the number
      of its UTF-16 code units;
    - [new Date()] and the identifier drawn by [Collection.insert] are inputs
      of the method ([now], [newId]);
    - a method is a function from the store to an outcome and a store: what
      was written before a [throw] stays written. *)

From Stdlib Require Import ZArith Lia Sorted SpecFloat.
From stdpp Require Import gmap strings list fin_maps.

Set Warnings "-register-all".

Open Scope string_scope.
Open Scope Z_scope.

(* ===================================================================== *)
(** * JavaScript numbers *)
(* ===================================================================== *)

Module Num.

(** The format of a double: 53 bits of precision, exponents below 1024. *)
Definition prec : Z := 53.
Definition emax : Z := 1024.

(** A number is a double in the representation of [SpecFloat]: a signed
    zero, a signed infinity, [NaN], or [(-1)^s * m * 2^e].  The doubles are
    the values that are [valid]; the operations below return a valid value
    on valid arguments. *)
Definition num : Type := spec_float.

Definition valid (a : num) : bool := valid_binary prec emax a.

(** The double nearest to an integer (an integer below [2^53] in absolute
    value is a double). *)
Definition of_Z (z : Z) : num := binary_normalize prec emax z 0 false.
Definition of_nat (n : nat) : num := of_Z (Z.of_nat n).

Definition zero : num := S754_zero false.

(** [a + b], [a * b], [a / b]: a zero divisor gives [NaN] or an infinity,
    never an exception. *)
Definition add : num → num → num := SFadd prec emax.
Definition mul : num → num → num := SFmul prec emax.
Definition div : num → num → num := SFdiv prec emax.

(** [Math.round]: the nearest integer, a tie going up; the zeros, the
    infinities and [NaN] are returned as they are, and a result that is
    zero keeps the sign of the argument.  A double with a non-negative
    exponent is an integer; for [m * 2^(-k)] the nearest integer is the
    floor of [(2 m + 2^k) / 2^(k+1)]. *)
Definition round (a : num) : num :=
  match a with
  | S754_finite s m (Zneg k) =>
      let z := (2 * cond_Zopp s (Zpos m) + 2 ^ Zpos k) / 2 ^ (Zpos k + 1) in
      if z =? 0 then S754_zero s else of_Z z
  | other => other
  end.

(** [a <= b]; every comparison with [NaN] is false. *)
Definition leb (a b : num) : bool := SFleb a b.

(** Truthiness of a number: the zeros and [NaN] are falsy. *)
Definition truthy (a : num) : bool :=
  match a with
  | S754_zero _ | S754_nan => false
  | S754_infinity _ | S754_finite _ _ _ => true
  end.

(** [a || b] on numbers. *)
Definition or_else (a b : num) : num := if truthy a then a else b.

(** [a || b] where [a] may be [undefined] or [null]. *)
Definition or_default (a : option num) (b : num) : num :=
  match a with
  | Some x => or_else x b
  | None => b
  end.

(** [$sum] of a list of numbers, added one after the other in the order of
    the documents.  (The server may add with more care for the last bit; no
    statement below is about a sum of more than one number.) *)
Definition sum (l : list num) : num := foldl add zero l.

(** [$avg] of a list of numbers: [null] when there is none. *)
Definition avg (l : list num) : option num :=
  match l with
  | [] => None
  | _ => Some (div (sum l) (of_nat (length l)))
  end.

Definition is_finite (a : num) : bool :=
  match a with
  | S754_zero _ | S754_finite _ _ _ => true
  | S754_infinity _ | S754_nan => false
  end.

End Num.

Abbreviation num := Num.num.

(* ===================================================================== *)
(** * JavaScript values received by a method, and [check] *)
(* ===================================================================== *)

(** An EJSON value as a method receives it.  An object is the list of its
    own enumerable properties in enumeration order; a property is looked up
    by its first occurrence. *)
Inductive jsval :=
| VUndefined
| VNull
| VBool (b : bool)
| VNum (n : num)
| VStr (s : string)
| VDate (ms : Z)
| VArr (items : list jsval)
| VObj (props : list (string * jsval)).

Fixpoint assoc {A} (k : string) (l : list (string * A)) : option A :=
  match l with
  | [] => None
  | (k', v) :: rest => if String.eqb k k' then Some v else assoc k rest
  end.

(** [Object.keys(o)] *)
Definition object_keys (props : list (string * jsval)) : list string :=
  map fst props.

(** [xs.includes(x)] on an array of strings. *)
Definition includes (xs : list string) (x : string) : bool :=
  bool_decide (x ∈ xs).

Module Match.

(** The leaf patterns of [meteor/check] used by the methods.  Each returns
    the typed value when the JavaScript value matches. *)
Definition String_ (v : jsval) : option string :=
  match v with VStr s => Some s | _ => None end.

Definition Number_ (v : jsval) : option num :=
  match v with VNum n => Some n | _ => None end.

Definition Date_ (v : jsval) : option Z :=
  match v with VDate d => Some d | _ => None end.

(** [[String]] *)
Definition ArrayOfString (v : jsval) : option (list string) :=
  match v with
  | VArr items => mapM String_ items
  | _ => None
  end.

(** [Match.OneOf('a', 'b', ...)] over string literals, read into an
    enumeration. *)
Definition OneOfLit {A} (table : list (string * A)) (v : jsval) : option A :=
  match v with VStr s => assoc s table | _ => None end.

(** [Match.OneOf(String, null)] *)
Definition StringOrNull (v : jsval) : option (option string) :=
  match v with
  | VStr s => Some (Some s)
  | VNull => Some None
  | _ => None
  end.

(** A key of an object pattern whose pattern is not [Match.Maybe]: the key
    must be present and its value must match. *)
Definition required {A} (k : string) (pat : jsval → option A)
    (props : list (string * jsval)) : option A :=
  match assoc k props with
  | Some v => pat v
  | None => None
  end.

(** A key of an object pattern under [Match.Maybe]: the key is absent, or
    its value matches the inner pattern ([undefined] and [null] are not
    accepted as values of a present key). *)
Definition maybe {A} (k : string) (pat : jsval → option A)
    (props : list (string * jsval)) : option (option A) :=
  match assoc k props with
  | Some v => match pat v with Some a => Some (Some a) | None => None end
  | None => Some None
  end.

(** An object pattern rejects every key it does not name. *)
Definition no_unknown_key (allowed : list string)
    (props : list (string * jsval)) : bool :=
  forallb (includes allowed) (object_keys props).

Definition plain_object (v : jsval) : option (list (string * jsval)) :=
  match v with VObj props => Some props | _ => None end.

End Match.

(* ===================================================================== *)
(** * Documents *)
(* ===================================================================== *)

Inductive UserRole := admin | manager | member.
Inductive ProjectStatus := active | completed | archived.
Inductive Priority := low | medium | high.
Inductive TaskStatus := todo | in_progress | review | done.

Module Action.
Inductive t := create | update | delete | complete | assign | comment.
End Action.

Module Entity.
Inductive t := project | task.
End Entity.

#[global] Instance UserRole_eq_dec : EqDecision UserRole.
Proof. solve_decision. Defined.
#[global] Instance ProjectStatus_eq_dec : EqDecision ProjectStatus.
Proof. solve_decision. Defined.
#[global] Instance Priority_eq_dec : EqDecision Priority.
Proof. solve_decision. Defined.
#[global] Instance TaskStatus_eq_dec : EqDecision TaskStatus.
Proof. solve_decision. Defined.

Definition TaskStatus_string (st : TaskStatus) : string :=
  match st with
  | todo => "todo" | in_progress => "in_progress"
  | review => "review" | done => "done"
  end.

Module User.
Record profile_t := mkProfile {
    firstName : string;
    lastName : string;
    role : UserRole }.
Record t := mk {
    username : option string;
    profile : option profile_t }.
End User.

Module Project.
Record metadata_t := mkMetadata {
    totalTasks : nat;
    completedTasks : nat;
    priority : Priority }.
Record t := mk {
    name : string;
    description : string;
    ownerId : string;
    teamMemberIds : list string;
    status : ProjectStatus;
    tags : list string;
    metadata : metadata_t;
    createdAt : Z;
    updatedAt : option Z }.
End Project.

Module Task.
Record t := mk {
    projectId : string;
    title : string;
    description : string;
    assignedToId : option (option string);  (* absent, null or an id *)
    status : TaskStatus;
    priority : Priority;
    dueDate : option Z;
    estimatedHours : option num;
    actualHours : option num;
    tags : list string;
    createdBy : string;
    createdAt : Z;
    updatedAt : option Z;
    completedAt : option Z }.
End Task.

Module ActivityLog.
Record t := mk {
    userId : string;
    action : Action.t;
    entityType : Entity.t;
    entityId : string;
    changes : option jsval;
    createdAt : Z }.
End ActivityLog.

(** The four collections.  [activityLogs] is only ever appended to. *)
Record Store := mkStore {
  users : gmap string User.t;
  projects : gmap string Project.t;
  tasks : gmap string Task.t;
  activityLogs : list ActivityLog.t }.

(* ===================================================================== *)
(** * Methods as store transformers that may throw *)
(* ===================================================================== *)

Inductive Error :=
| not_authorized
| not_found
| validation_error
| match_failed      (* a failed [check] outside a try/catch *)
| duplicate_key.    (* the driver refusing an [_id] already in use *)

Inductive outcome (A : Type) :=
| Ok (a : A)
| Throw (e : Error).
Arguments Ok {A} a.
Arguments Throw {A} e.

Definition M (A : Type) : Type := Store → outcome A * Store.

#[global] Instance M_ret : MRet M := λ A a s, (Ok a, s).
#[global] Instance M_bind : MBind M := λ A B f m s,
  match m s with
  | (Ok a, s') => f a s'
  | (Throw e, s') => (Throw e, s')
  end.

Definition throw {A} (e : Error) : M A := λ s, (Throw e, s).
Definition get_store : M Store := λ s, (Ok s, s).

(** [if (c) throw new Meteor.Error(e)] *)
Definition throw_if (c : bool) (e : Error) : M unit :=
  if c then throw e else mret ().

(** [if (c) { body }] *)
Definition when (c : bool) (body : M unit) : M unit :=
  if c then body else mret ().

(** [check(v, pattern)]: the typed value, or a match failure. *)
Definition check {A} (parsed : option A) : M A :=
  match parsed with
  | Some a => mret a
  | None => throw match_failed
  end.

(** [!x] for an identifier that is a string or null. *)
Definition falsy_id (x : option string) : bool :=
  match x with
  | None => true
  | Some s => String.eqb s ""
  end.

(** The string of the bytes [l]. *)
Definition bytes (l : list Z) : string :=
  String.string_of_list_ascii (map (λ z, Ascii.ascii_of_nat (Z.to_nat z)) l).

(** The white space and line terminators that [String.prototype.trim]
    strips, each in UTF-8: U+0009 to U+000D, U+0020, U+00A0, U+1680, U+2000
    to U+200A, U+2028, U+2029, U+202F, U+205F, U+3000 and U+FEFF. *)
Definition white_space : list string :=
  Eval vm_compute in
  map bytes
    [ [9]; [10]; [11]; [12]; [13]; [32]; [194; 160]; [225; 154; 128];
      [226; 128; 128]; [226; 128; 129]; [226; 128; 130]; [226; 128; 131];
      [226; 128; 132]; [226; 128; 133]; [226; 128; 134]; [226; 128; 135];
      [226; 128; 136]; [226; 128; 137]; [226; 128; 138];
      [226; 128; 168]; [226; 128; 169]; [226; 128; 175]; [226; 129; 159];
      [227; 128; 128]; [239; 187; 191] ].

(** [s] without its prefix [p], if it starts with [p]. *)
Fixpoint strip_prefix (p s : string) : option string :=
  match p, s with
  | EmptyString, _ => Some s
  | String a p', String b s' =>
      if Ascii.eqb a b then strip_prefix p' s' else None
  | String _ _, EmptyString => None
  end.

(** [s] without one of the [patterns] at its start, if it starts with
    one. *)
Fixpoint strip_one (patterns : list string) (s : string) : option string :=
  match patterns with
  | [] => None
  | p :: rest =>
      match strip_prefix p s with
      | Some s' => Some s'
      | None => strip_one rest s
      end
  end.

(** [s] without the [patterns] at its start; [fuel] bounds their number. *)
Fixpoint strip_all (fuel : nat) (patterns : list string) (s : string) : string :=
  match fuel with
  | O => s
  | S fuel' =>
      match strip_one patterns s with
      | Some s' => strip_all fuel' patterns s'
      | None => s
      end
  end.

Definition trim_start (s : string) : string :=
  strip_all (String.length s) white_space s.

(** The same, each read from its last byte. *)
Definition white_space_rev : list string :=
  Eval vm_compute in map String.rev white_space.

Definition trim_end (s : string) : string :=
  String.rev (strip_all (String.length s) white_space_rev (String.rev s)).

(** [s.trim()] *)
Definition trim (s : string) : string := trim_end (trim_start s).

(** The UTF-16 code units that the character starting with the byte [c]
    takes: one for a character of one, two or three bytes, two for a
    character of four bytes; the other bytes of a character count with its
    first. *)
Definition code_units (c : Ascii.ascii) : nat :=
  let n := Ascii.nat_of_ascii c in
  if (n <? 128)%nat then 1%nat
  else if (n <? 192)%nat then 0%nat
  else if (n <? 240)%nat then 1%nat
  else 2%nat.

(** [s.length] *)
Fixpoint js_length (s : string) : nat :=
  match s with
  | EmptyString => 0%nat
  | String c rest => (code_units c + js_length rest)%nat
  end.

(* ===================================================================== *)
(** * Collection primitives *)
(* ===================================================================== *)

(** [Collection.find(selector).count()]: the number of documents the
    selector holds of. *)
Definition count_docs {A} (sel : string → A → bool) (m : gmap string A) : nat :=
  length (List.filter (λ kv, sel kv.1 kv.2) (map_to_list m)).

Definition modify_projects (f : gmap string Project.t → gmap string Project.t) : M unit :=
  λ s, (Ok (), mkStore (users s) (f (projects s)) (tasks s) (activityLogs s)).

Definition modify_tasks (f : gmap string Task.t → gmap string Task.t) : M unit :=
  λ s, (Ok (), mkStore (users s) (projects s) (f (tasks s)) (activityLogs s)).

(** [ActivityLogsCollection.insert(entry)] *)
Definition insert_log (entry : ActivityLog.t) : M unit :=
  λ s, (Ok (), mkStore (users s) (projects s) (tasks s) (activityLogs s ++ [entry])).

(** [ProjectsCollection.insert(doc)] with the identifier [newId] drawn for
    it. *)
Definition insert_project (newId : string) (doc : Project.t) : M string :=
  s ← get_store;
  match projects s !! newId with
  | Some _ => throw duplicate_key
  | None => modify_projects (insert newId doc);; mret newId
  end.

(** [TasksCollection.insert(doc)] *)
Definition insert_task (newId : string) (doc : Task.t) : M string :=
  s ← get_store;
  match tasks s !! newId with
  | Some _ => throw duplicate_key
  | None => modify_tasks (insert newId doc);; mret newId
  end.

(** [user?.profile?.role] *)
Definition role_of (user : option User.t) : option UserRole :=
  match user with
  | Some u => User.role <$> User.profile u
  | None => None
  end.

(** [user?.profile?.role === 'admin'] *)
Definition is_admin (user : option User.t) : bool :=
  bool_decide (role_of user = Some admin).

(* ===================================================================== *)
(** * Project methods ([imports/api/projects/methods.ts]) *)
(* ===================================================================== *)

Definition canModifyProject (s : Store) (userId : option string)
    (project : Project.t) : bool :=
  match userId with
  | None => false
  | Some uid =>
      if falsy_id userId then false
      else match users s !! uid with
           | None => false
           | Some user =>
               if is_admin (Some user) then true
               else if bool_decide (Project.ownerId project = uid) then true
               else false
           end
  end.

Definition logActivity (userId : string) (action : Action.t)
    (projectId : string) (changes : option jsval) (now : Z) : M unit :=
  insert_log (ActivityLog.mk userId action Entity.project projectId changes now).

(** The argument of [projects.insert] once it has passed [check]. *)
Module ProjectData.
Record t := mk {
    name : string;
    description : string;
    teamMemberIds : list string;
    status : ProjectStatus;
    tags : list string }.
End ProjectData.

Definition ProjectStatus_lit : list (string * ProjectStatus) :=
  [("active", active); ("completed", completed); ("archived", archived)].

Definition Priority_lit : list (string * Priority) :=
  [("low", low); ("medium", medium); ("high", high)].

Definition TaskStatus_lit : list (string * TaskStatus) :=
  [("todo", todo); ("in_progress", in_progress); ("review", review); ("done", done)].

Definition check_ProjectData (v : jsval) : option ProjectData.t :=
  props ← Match.plain_object v;
  guard (Match.no_unknown_key
           ["name"; "description"; "teamMemberIds"; "status"; "tags"] props = true);;
  name ← Match.required "name" Match.String_ props;
  description ← Match.required "description" Match.String_ props;
  teamMemberIds ← Match.required "teamMemberIds" Match.ArrayOfString props;
  status ← Match.required "status" (Match.OneOfLit ProjectStatus_lit) props;
  tags ← Match.required "tags" Match.ArrayOfString props;
  Some (ProjectData.mk name description teamMemberIds status tags).

Definition projects_insert (this_userId : option string) (now : Z)
    (newId : string) (projectData : jsval) : M string :=
  throw_if (falsy_id this_userId) not_authorized;;
  let userId := default "" this_userId in
  s ← get_store;
  let user := users s !! userId in
  throw_if (match role_of user with
            | None => true
            | Some r => bool_decide (r = member)
            end) not_authorized;;
  match check_ProjectData projectData with
  | None => throw validation_error
  | Some data =>
      throw_if (js_length (trim (ProjectData.name data)) <? 3)%nat
               validation_error;;
      throw_if (100 <? js_length (ProjectData.name data))%nat
               validation_error;;
      let teamMemberCount :=
        count_docs (λ id _, includes (ProjectData.teamMemberIds data) id) (users s) in
      throw_if (negb (teamMemberCount =? length (ProjectData.teamMemberIds data))%nat)
               validation_error;;
      let project :=
        Project.mk (ProjectData.name data) (ProjectData.description data)
          userId (ProjectData.teamMemberIds data) (ProjectData.status data)
          (ProjectData.tags data) (Project.mkMetadata 0 0 medium) now None in
      projectId ← insert_project newId project;
      logActivity userId Action.create projectId None now;;
      mret projectId
  end.

Definition archive (now : Z) (p : Project.t) : Project.t :=
  Project.mk (Project.name p) (Project.description p) (Project.ownerId p)
    (Project.teamMemberIds p) archived (Project.tags p) (Project.metadata p)
    (Project.createdAt p) (Some now).

Definition projects_remove (this_userId : option string) (now : Z)
    (projectId : string) (hard : bool) : M unit :=
  throw_if (falsy_id this_userId) not_authorized;;
  let userId := default "" this_userId in
  s ← get_store;
  match projects s !! projectId with
  | None => throw not_found
  | Some project =>
      throw_if (negb (canModifyProject s this_userId project)) not_authorized;;
      if hard then
        let taskCount :=
          count_docs (λ _ t, bool_decide (Task.projectId t = projectId)) (tasks s) in
        throw_if (0 <? taskCount)%nat validation_error;;
        modify_projects (base.delete projectId);;
        logActivity userId Action.delete projectId None now
      else
        modify_projects (alter (archive now) projectId);;
        logActivity userId Action.update projectId
          (Some (VObj [("status", VStr "archived")])) now
  end.

(** [$addToSet] on an array of strings. *)
Definition addToSet (x : string) (xs : list string) : list string :=
  if bool_decide (x ∈ xs) then xs else xs ++ [x].

Definition add_member (userIdToAdd : string) (now : Z) (p : Project.t) : Project.t :=
  Project.mk (Project.name p) (Project.description p) (Project.ownerId p)
    (addToSet userIdToAdd (Project.teamMemberIds p)) (Project.status p)
    (Project.tags p) (Project.metadata p) (Project.createdAt p) (Some now).

Definition projects_addTeamMember (this_userId : option string) (now : Z)
    (projectId userIdToAdd : string) : M unit :=
  throw_if (falsy_id this_userId) not_authorized;;
  let userId := default "" this_userId in
  s ← get_store;
  match projects s !! projectId with
  | None => throw not_found
  | Some project =>
      throw_if (negb (canModifyProject s this_userId project)) not_authorized;;
      throw_if (bool_decide (users s !! userIdToAdd = None)) not_found;;
      throw_if (includes (Project.teamMemberIds project) userIdToAdd)
               validation_error;;
      modify_projects (alter (add_member userIdToAdd now) projectId);;
      logActivity userId Action.update projectId
        (Some (VObj [("action", VStr "added team member");
                     ("userId", VStr userIdToAdd)])) now
  end.

Definition set_counters (totalTasks completedTasks : nat) (now : Z)
    (p : Project.t) : Project.t :=
  Project.mk (Project.name p) (Project.description p) (Project.ownerId p)
    (Project.teamMemberIds p) (Project.status p) (Project.tags p)
    (Project.mkMetadata totalTasks completedTasks
       (Project.priority (Project.metadata p)))
    (Project.createdAt p) (Some now).

Definition projects_updateTaskCounters (now : Z) (projectId : string) : M unit :=
  s ← get_store;
  let totalTasks :=
    count_docs (λ _ t, bool_decide (Task.projectId t = projectId)) (tasks s) in
  let completedTasks :=
    count_docs (λ _ t, bool_decide (Task.projectId t = projectId)
                       && bool_decide (Task.status t = done)) (tasks s) in
  modify_projects (alter (set_counters totalTasks completedTasks now) projectId).

(* ===================================================================== *)
(** * Task methods ([imports/api/methods/tasks.methods.ts]) *)
(* ===================================================================== *)

(** [task.assignedToId === userId] *)
Definition assigned_to (t : Task.t) (userId : string) : bool :=
  bool_decide (Task.assignedToId t = Some (Some userId)).

Definition canModifyTask (s : Store) (userId : option string) (t : Task.t) : bool :=
  match userId with
  | None => false
  | Some uid =>
      if falsy_id userId then false
      else match users s !! uid with
           | None => false
           | Some user =>
               if is_admin (Some user) then true
               else if bool_decide (Task.createdBy t = uid) then true
               else if bool_decide
                         (Project.ownerId <$> projects s !! Task.projectId t = Some uid)
                    then true
               else if assigned_to t uid then true
               else false
           end
  end.

Definition canViewProjectTasks (s : Store) (userId : option string)
    (projectId : string) : bool :=
  match userId with
  | None => false
  | Some uid =>
      if falsy_id userId then false
      else match users s !! uid with
           | None => false
           | Some user =>
               if is_admin (Some user) then true
               else match projects s !! projectId with
                    | None => false
                    | Some project =>
                        if bool_decide (Project.ownerId project = uid) then true
                        else if includes (Project.teamMemberIds project) uid then true
                        else false
                    end
           end
  end.

Definition logTaskActivity (userId : string) (action : Action.t)
    (taskId : string) (changes : option jsval) (now : Z) : M unit :=
  insert_log (ActivityLog.mk userId action Entity.task taskId changes now).

(** The argument of [tasks.insert] once it has passed [check]. *)
Module TaskData.
Record t := mk {
    projectId : string;
    title : string;
    description : string;
    assignedToId : option string;
    priority : Priority;
    dueDate : option Z;
    estimatedHours : option num;
    tags : list string }.
End TaskData.

Definition check_TaskData (v : jsval) : option TaskData.t :=
  props ← Match.plain_object v;
  guard (Match.no_unknown_key
           ["projectId"; "title"; "description"; "assignedToId"; "priority";
            "dueDate"; "estimatedHours"; "tags"] props = true);;
  projectId ← Match.required "projectId" Match.String_ props;
  title ← Match.required "title" Match.String_ props;
  description ← Match.required "description" Match.String_ props;
  assignedToId ← Match.maybe "assignedToId" Match.String_ props;
  priority ← Match.required "priority" (Match.OneOfLit Priority_lit) props;
  dueDate ← Match.maybe "dueDate" Match.Date_ props;
  estimatedHours ← Match.maybe "estimatedHours" Match.Number_ props;
  tags ← Match.required "tags" Match.ArrayOfString props;
  Some (TaskData.mk projectId title description assignedToId priority
          dueDate estimatedHours tags).

(** [if (x)] for an optional string: absent and empty are falsy. *)
Definition truthy_id (x : option string) : bool := negb (falsy_id x).

(** [project.ownerId === id || project.teamMemberIds.includes(id)] *)
Definition isOnTeam (project : Project.t) (id : string) : bool :=
  bool_decide (Project.ownerId project = id)
  || includes (Project.teamMemberIds project) id.

(** The document [{ ...taskData, createdBy, status: 'todo', createdAt }]. *)
Definition new_task (data : TaskData.t) (userId : string) (now : Z) : Task.t :=
  Task.mk (TaskData.projectId data) (TaskData.title data)
    (TaskData.description data) (Some <$> TaskData.assignedToId data)
    todo (TaskData.priority data) (TaskData.dueDate data)
    (TaskData.estimatedHours data) None (TaskData.tags data)
    userId now None None.

Definition tasks_insert (this_userId : option string) (now : Z)
    (newId : string) (taskData : jsval) : M string :=
  throw_if (falsy_id this_userId) not_authorized;;
  let userId := default "" this_userId in
  data ← check (check_TaskData taskData);
  throw_if (js_length (trim (TaskData.title data)) <? 3)%nat validation_error;;
  throw_if (200 <? js_length (TaskData.title data))%nat validation_error;;
  throw_if (2000 <? js_length (TaskData.description data))%nat validation_error;;
  s ← get_store;
  match projects s !! TaskData.projectId data with
  | None => throw not_found
  | Some project =>
      throw_if (negb (canViewProjectTasks s this_userId (TaskData.projectId data)))
               not_authorized;;
      when (truthy_id (TaskData.assignedToId data))
        (let assignee := default "" (TaskData.assignedToId data) in
         throw_if (bool_decide (users s !! assignee = None)) not_found;;
         throw_if (negb (isOnTeam project assignee)) validation_error);;
      throw_if (match TaskData.estimatedHours data with
                | Some h => Num.leb h Num.zero
                | None => false
                end) validation_error;;
      (* a due date in the past only draws a console warning *)
      taskId ← insert_task newId (new_task data userId now);
      projects_updateTaskCounters now (TaskData.projectId data);;
      logTaskActivity userId Action.create taskId None now;;
      when (truthy_id (TaskData.assignedToId data))
        (logTaskActivity userId Action.assign taskId
           (Some (VObj [("assignedTo",
                         VStr (default "" (TaskData.assignedToId data)))])) now);;
      mret taskId
  end.

(** The [updates] argument of [tasks.update] once it has passed [check]. *)
Module TaskUpdates.
Record t := mk {
    title : option string;
    description : option string;
    status : option TaskStatus;
    priority : option Priority;
    dueDate : option Z;
    estimatedHours : option num;
    actualHours : option num;
    tags : option (list string);
    assignedToId : option (option string) }. (* absent, null or an id *)
End TaskUpdates.

Definition check_TaskUpdates (v : jsval) : option TaskUpdates.t :=
  props ← Match.plain_object v;
  guard (Match.no_unknown_key
           ["title"; "description"; "status"; "priority"; "dueDate";
            "estimatedHours"; "actualHours"; "tags"; "assignedToId"] props = true);;
  title ← Match.maybe "title" Match.String_ props;
  description ← Match.maybe "description" Match.String_ props;
  status ← Match.maybe "status" (Match.OneOfLit TaskStatus_lit) props;
  priority ← Match.maybe "priority" (Match.OneOfLit Priority_lit) props;
  dueDate ← Match.maybe "dueDate" Match.Date_ props;
  estimatedHours ← Match.maybe "estimatedHours" Match.Number_ props;
  actualHours ← Match.maybe "actualHours" Match.Number_ props;
  tags ← Match.maybe "tags" Match.ArrayOfString props;
  assignedToId ← Match.maybe "assignedToId" Match.StringOrNull props;
  Some (TaskUpdates.mk title description status priority dueDate
          estimatedHours actualHours tags assignedToId).

(** [Object.keys(updates)] *)
Definition keys_of (v : jsval) : list string :=
  match v with VObj props => object_keys props | _ => [] end.

(** The modifier handed to [TasksCollection.update]. *)
Record updateObject := mkUpdateObject {
  set_updates : TaskUpdates.t;       (* $set: { ...updates, *)
  set_updatedAt : Z;                 (*         updatedAt,  *)
  set_completedAt : option Z;        (*         completedAt? } *)
  unset_completedAt : bool }.        (* $unset: { completedAt: '' }? *)

Definition or_old {A} (new : option A) (old : option A) : option A :=
  match new with Some a => Some a | None => old end.

Definition apply_updateObject (o : updateObject) (t : Task.t) : Task.t :=
  let u := set_updates o in
  Task.mk (Task.projectId t)
    (default (Task.title t) (TaskUpdates.title u))
    (default (Task.description t) (TaskUpdates.description u))
    (or_old (TaskUpdates.assignedToId u) (Task.assignedToId t))
    (default (Task.status t) (TaskUpdates.status u))
    (default (Task.priority t) (TaskUpdates.priority u))
    (or_old (TaskUpdates.dueDate u) (Task.dueDate t))
    (or_old (TaskUpdates.estimatedHours u) (Task.estimatedHours t))
    (or_old (TaskUpdates.actualHours u) (Task.actualHours t))
    (default (Task.tags t) (TaskUpdates.tags u))
    (Task.createdBy t) (Task.createdAt t)
    (Some (set_updatedAt o))
    (if unset_completedAt o then None
     else or_old (set_completedAt o) (Task.completedAt t)).

Definition allowedFields : list string := ["status"; "actualHours"; "description"].

Definition jsval_of_ref (x : option (option string)) : jsval :=
  match x with
  | None => VUndefined
  | Some None => VNull
  | Some (Some id) => VStr id
  end.

Definition too_short (x : option string) : bool :=
  match x with
  | Some t => (js_length (trim t) <? 3)%nat
  | None => false
  end.

Definition longer_than (n : nat) (x : option string) : bool :=
  match x with
  | Some t => (n <? js_length t)%nat
  | None => false
  end.

(** [updates.status === 'done' && task.status !== 'done'] *)
Definition becomes_done (u : TaskUpdates.t) (t : Task.t) : bool :=
  bool_decide (TaskUpdates.status u = Some done)
  && negb (bool_decide (Task.status t = done)).

(** [task.status === 'done' && updates.status && updates.status !== 'done'] *)
Definition leaves_done (u : TaskUpdates.t) (t : Task.t) : bool :=
  bool_decide (Task.status t = done)
  && match TaskUpdates.status u with
     | Some st => negb (bool_decide (st = done))
     | None => false
     end.

Definition tasks_update (this_userId : option string) (now : Z)
    (taskId : string) (updates : jsval) : M unit :=
  u ← check (check_TaskUpdates updates);
  throw_if (falsy_id this_userId) not_authorized;;
  let userId := default "" this_userId in
  s ← get_store;
  match tasks s !! taskId with
  | None => throw not_found
  | Some task =>
      let isAssignee := assigned_to task userId in
      let canFullyModify := canModifyTask s this_userId task in
      throw_if (negb canFullyModify && negb isAssignee) not_authorized;;
      when (isAssignee && negb canFullyModify)
        (let attemptedFields := keys_of updates in
         let unauthorizedFields :=
           List.filter (λ f, negb (includes allowedFields f)) attemptedFields in
         throw_if (0 <? length unauthorizedFields)%nat not_authorized);;
      throw_if (too_short (TaskUpdates.title u)) validation_error;;
      throw_if (longer_than 200 (TaskUpdates.title u)) validation_error;;
      throw_if (longer_than 2000 (TaskUpdates.description u)) validation_error;;
      match TaskUpdates.assignedToId u with
      | Some (Some newAssigneeId) =>
          match projects s !! Task.projectId task with
          | None => throw not_found
          | Some project =>
              throw_if (bool_decide (users s !! newAssigneeId = None)) not_found;;
              throw_if (negb (isOnTeam project newAssigneeId)) validation_error
          end
      | _ => mret ()
      end;;
      when (becomes_done u task)
        (logTaskActivity userId Action.complete taskId
           (Some (VObj [("previousStatus",
                         VStr (TaskStatus_string (Task.status task)))])) now;;
         projects_updateTaskCounters now (Task.projectId task));;
      when (leaves_done u task)
        (projects_updateTaskCounters now (Task.projectId task));;
      let updateObject :=
        mkUpdateObject u now
          (if becomes_done u task then Some now else None)
          (leaves_done u task) in
      modify_tasks (alter (apply_updateObject updateObject) taskId);;
      when (match TaskUpdates.assignedToId u with
            | Some x => bool_decide (Some x ≠ Task.assignedToId task)
            | None => false
            end)
        (logTaskActivity userId Action.assign taskId
           (Some (VObj [("previousAssignee", jsval_of_ref (Task.assignedToId task));
                        ("newAssignee", jsval_of_ref (TaskUpdates.assignedToId u))]))
           now);;
      when (0 <? length (keys_of updates))%nat
        (logTaskActivity userId Action.update taskId (Some updates) now)
  end.

Definition tasks_remove (this_userId : option string) (now : Z)
    (taskId : string) : M unit :=
  throw_if (falsy_id this_userId) not_authorized;;
  let userId := default "" this_userId in
  s ← get_store;
  match tasks s !! taskId with
  | None => throw not_found
  | Some task =>
      (* [canDelete] is computed by the source and never read *)
      let isAdmin := is_admin (users s !! userId) in
      let isCreator := bool_decide (Task.createdBy task = userId) in
      throw_if (negb isAdmin && negb isCreator) not_authorized;;
      let projectId := Task.projectId task in
      modify_tasks (base.delete taskId);;
      projects_updateTaskCounters now projectId;;
      logTaskActivity userId Action.delete taskId
        (Some (VObj [("taskTitle", VStr (Task.title task));
                     ("projectId", VStr projectId)])) now
  end.

Definition set_assignee (a : option (option string)) (now : Z) (t : Task.t) : Task.t :=
  Task.mk (Task.projectId t) (Task.title t) (Task.description t) a
    (Task.status t) (Task.priority t) (Task.dueDate t) (Task.estimatedHours t)
    (Task.actualHours t) (Task.tags t) (Task.createdBy t) (Task.createdAt t)
    (Some now) (Task.completedAt t).

Section Driver.

(** What the Mongo driver stores for [$set: { assignedToId: undefined }],
    from the value the field had: this is the driver's business, not the
    repository's, and is left open. *)
Variable set_undefined : option (option string) → option (option string).

Definition tasks_assign (this_userId : option string) (now : Z)
    (taskId : string) (userIdToAssign : option string) : M unit :=
  throw_if (falsy_id this_userId) not_authorized;;
  let userId := default "" this_userId in
  s ← get_store;
  match tasks s !! taskId with
  | None => throw not_found
  | Some task =>
      throw_if (negb (canModifyTask s this_userId task)) not_authorized;;
      match userIdToAssign with
      | Some id =>
          when (truthy_id userIdToAssign)
            match projects s !! Task.projectId task with
            | None => throw not_found
            | Some project =>
                throw_if (bool_decide (users s !! id = None)) not_found;;
                throw_if (negb (isOnTeam project id)) validation_error
            end
      | None => mret ()
      end;;
      let previousAssignee := Task.assignedToId task in
      let stored :=
        if truthy_id userIdToAssign then Some userIdToAssign
        else set_undefined previousAssignee in
      modify_tasks (alter (set_assignee stored now) taskId);;
      logTaskActivity userId Action.assign taskId
        (Some (VObj [("previousAssignee", jsval_of_ref previousAssignee);
                     ("newAssignee", jsval_of_ref (Some userIdToAssign))])) now
  end.

End Driver.

(** [$inc: { actualHours: h }, $set: { updatedAt }] *)
Definition inc_actualHours (h : num) (now : Z) (t : Task.t) : Task.t :=
  Task.mk (Task.projectId t) (Task.title t) (Task.description t)
    (Task.assignedToId t) (Task.status t) (Task.priority t) (Task.dueDate t)
    (Task.estimatedHours t)
    (Some (match Task.actualHours t with
           | Some old => Num.add old h
           | None => h
           end))
    (Task.tags t) (Task.createdBy t) (Task.createdAt t)
    (Some now) (Task.completedAt t).

Definition tasks_logTime (this_userId : option string) (now : Z)
    (taskId : string) (hoursToAdd : num) : M unit :=
  throw_if (falsy_id this_userId) not_authorized;;
  let userId := default "" this_userId in
  throw_if (Num.leb hoursToAdd Num.zero) validation_error;;
  s ← get_store;
  match tasks s !! taskId with
  | None => throw not_found
  | Some task =>
      let isAssignee := assigned_to task userId in
      let canModify := canModifyTask s this_userId task in
      throw_if (negb isAssignee && negb canModify) not_authorized;;
      modify_tasks (alter (inc_actualHours hoursToAdd now) taskId);;
      logTaskActivity userId Action.update taskId
        (Some (VObj [("action", VStr "logged time");
                     ("hours", VNum hoursToAdd)])) now
  end.

(* ===================================================================== *)
(** * Reports (the aggregations module) *)
(* ===================================================================== *)

(** The documents a pipeline reads from [TasksCollection.rawCollection()]. *)
Definition task_docs (s : Store) : list Task.t := map snd (map_to_list (tasks s)).

(** One more document for the group of key [k]. *)
Fixpoint bump {K} `{EqDecision K} (k : K) (groups : list (K * nat)) : list (K * nat) :=
  match groups with
  | [] => [(k, 1%nat)]
  | (k', n) :: rest =>
      if decide (k = k') then (k', S n) :: rest else (k', n) :: bump k rest
  end.

(** [{ $group: { _id: key, count: { $sum: 1 } } }] *)
Definition group_count {A K} `{EqDecision K} (key : A → K) (docs : list A)
    : list (K * nat) :=
  foldl (λ groups d, bump (key d) groups) [] docs.

(** [{ $sort: { _id: 1 } }] on groups, the key compared as a string. *)
Fixpoint insert_sorted {K} (str : K → string) (g : K * nat)
    (groups : list (K * nat)) : list (K * nat) :=
  match groups with
  | [] => [g]
  | g' :: rest =>
      if String.leb (str g.1) (str g'.1) then g :: groups
      else g' :: insert_sorted str g rest
  end.

Definition sort_by_id {K} (str : K → string) (groups : list (K * nat))
    : list (K * nat) :=
  foldr (insert_sorted str) [] groups.

Definition Priority_string (p : Priority) : string :=
  match p with low => "low" | medium => "medium" | high => "high" end.

Module StatusCounts.
Record t := mk { todo : nat; in_progress : nat; review : nat; done : nat }.
End StatusCounts.

Module PriorityCounts.
Record t := mk { low : nat; medium : nat; high : nat }.
End PriorityCounts.

(** [acc[item._id] = item.count] *)
Definition set_status_count (acc : StatusCounts.t) (item : TaskStatus * nat)
    : StatusCounts.t :=
  let (t, i, r, d) := acc in
  match item.1 with
  | todo => StatusCounts.mk item.2 i r d
  | in_progress => StatusCounts.mk t item.2 r d
  | review => StatusCounts.mk t i item.2 d
  | done => StatusCounts.mk t i r item.2
  end.

Definition set_priority_count (acc : PriorityCounts.t) (item : Priority * nat)
    : PriorityCounts.t :=
  let (l, m, h) := acc in
  match item.1 with
  | low => PriorityCounts.mk item.2 m h
  | medium => PriorityCounts.mk l item.2 h
  | high => PriorityCounts.mk l m item.2
  end.

Definition ms_per_day : Z := 1000 * 60 * 60 * 24.

Module UserStats.
Record t := mk {
    totalTasksAssigned : nat;
    tasksByStatus : StatusCounts.t;
    tasksByPriority : PriorityCounts.t;
    averageCompletionDays : num;
    overdueCount : nat }.
End UserStats.

Definition getUserStatistics (s : Store) (now : Z) (userId : string) : UserStats.t :=
  let tasksByStatus :=
    sort_by_id TaskStatus_string
      (group_count Task.status
         (List.filter (λ t, assigned_to t userId) (task_docs s))) in
  let statusCounts :=
    foldl set_status_count (StatusCounts.mk 0 0 0 0) tasksByStatus in
  let tasksByPriority :=
    sort_by_id Priority_string
      (group_count Task.priority
         (List.filter (λ t, assigned_to t userId) (task_docs s))) in
  let priorityCounts :=
    foldl set_priority_count (PriorityCounts.mk 0 0 0) tasksByPriority in
  let completionTimes : list num :=
    let matched :=
      List.filter (λ t, assigned_to t userId
                        && bool_decide (Task.status t = done)
                        && bool_decide (Task.completedAt t ≠ None)) (task_docs s) in
    let projected :=
      map (λ t, Num.of_Z (default 0 (Task.completedAt t) - Task.createdAt t)) matched in
    match Num.avg projected with
    | Some avgTime => [avgTime]
    | None => []
    end in
  let avgCompletionMs :=
    Num.or_default (head completionTimes) Num.zero in
  let avgCompletionDays := Num.div avgCompletionMs (Num.of_Z ms_per_day) in
  let overdueCount :=
    count_docs (λ _ t, assigned_to t userId
                       && negb (bool_decide (Task.status t = done))
                       && match Task.dueDate t with
                          | Some d => d <? now
                          | None => false
                          end) (tasks s) in
  let totalTasks := count_docs (λ _ t, assigned_to t userId) (tasks s) in
  UserStats.mk totalTasks statusCounts priorityCounts
    (Num.div (Num.round (Num.mul avgCompletionDays (Num.of_Z 10))) (Num.of_Z 10))
    overdueCount.

Module HourStats.
Record t := mk {
    totalEstimated : num;
    totalActual : num;
    avgEstimated : option num }.
End HourStats.

(** The values of an optional numeric field that are present. *)
Definition present (f : Task.t → option num) (docs : list Task.t) : list num :=
  omap f docs.

(** The fields of the result of [getProjectStatistics] other than
    [tasksByAssignee], which is a separate pipeline (a join with the users'
    names) that no other field reads. *)
Module ProjectStats.
Record t := mk {
    totalTasks : nat;
    tasksByStatus : StatusCounts.t;
    completionRate : num;
    totalEstimatedHours : num;
    totalActualHours : num;
    averageEstimatedHours : num }.
End ProjectStats.

Definition getProjectStatistics (s : Store) (projectId : string) : ProjectStats.t :=
  let in_project := λ t : Task.t, bool_decide (Task.projectId t = projectId) in
  let totalTasks := count_docs (λ _ t, in_project t) (tasks s) in
  let tasksByStatus :=
    group_count Task.status (List.filter in_project (task_docs s)) in
  let statusCounts :=
    foldl set_status_count (StatusCounts.mk 0 0 0 0) tasksByStatus in
  let completedTasks := StatusCounts.done statusCounts in
  let completionRate :=
    if (0 <? totalTasks)%nat
    then Num.div (Num.of_nat completedTasks) (Num.of_nat totalTasks)
    else Num.zero in
  let hourStats : list HourStats.t :=
    match List.filter in_project (task_docs s) with
    | [] => []
    | docs =>
        [HourStats.mk (Num.sum (present Task.estimatedHours docs))
                      (Num.sum (present Task.actualHours docs))
                      (Num.avg (present Task.estimatedHours docs))]
    end in
  let hours := default (HourStats.mk Num.zero Num.zero (Some Num.zero)) (head hourStats) in
  ProjectStats.mk totalTasks statusCounts
    (Num.div (Num.round (Num.mul completionRate (Num.of_Z 100))) (Num.of_Z 100))
    (Num.or_else (HourStats.totalEstimated hours) Num.zero)
    (Num.or_else (HourStats.totalActual hours) Num.zero)
    (Num.div
       (Num.round
          (Num.mul (Num.or_default (HourStats.avgEstimated hours) Num.zero)
                   (Num.of_Z 10)))
       (Num.of_Z 10)).

(* ===================================================================== *)
(** * A small store used for the concrete runs *)
(* ===================================================================== *)

Module Sample.

Definition ada := User.mk (Some "ada") (Some (User.mkProfile "Ada" "Admin" admin)).
Definition max := User.mk (Some "max") (Some (User.mkProfile "Max" "Manager" manager)).
Definition mia := User.mk (Some "mia") (Some (User.mkProfile "Mia" "Member" member)).
Definition moe := User.mk (Some "moe") (Some (User.mkProfile "Moe" "Member" member)).
Definition bot := User.mk (Some "bot") None.

(** Project [p1]: owned by [max], with [mia] on the team. *)
Definition p1 : Project.t :=
  Project.mk "Website" "" "max" ["mia"] active []
    (Project.mkMetadata 0 0 medium) 0 None.

(** Users, one project, no task. *)
Definition empty_store : Store :=
  mkStore
    (list_to_map [("ada", ada); ("max", max); ("mia", mia); ("moe", moe); ("bot", bot)])
    (list_to_map [("p1", p1)]) ∅ [].

Definition task_for_mia : jsval :=
  VObj [("projectId", VStr "p1"); ("title", VStr "Landing page");
        ("description", VStr ""); ("assignedToId", VStr "mia");
        ("priority", VStr "high"); ("tags", VArr [])].

(** The task document that [tasks.insert] builds from [task_for_mia] at
    time 10 for the caller [max]. *)
Definition t1 : Task.t :=
  Task.mk "p1" "Landing page" "" (Some (Some "mia")) todo high None None None
    [] "max" 10 None None.

(** [max] has created task [t1] in [p1], assigned to [mia]. *)
Definition one_task : Store :=
  (tasks_insert (Some "max") 10 "t1" task_for_mia empty_store).2.

(** [mia] has then completed it. *)
Definition one_done : Store :=
  (tasks_update (Some "mia") 20 "t1" (VObj [("status", VStr "done")]) one_task).2.

Definition new_project : jsval :=
  VObj [("name", VStr "Mobile app"); ("description", VStr "");
        ("teamMemberIds", VArr [VStr "mia"]); ("status", VStr "active");
        ("tags", VArr [])].

End Sample.

(* ===================================================================== *)
(** * Notions used by the statements *)
(* ===================================================================== *)

(** A property of the outcome and final store of a run. *)
Definition post {A} (Q : outcome A * Store → Prop) (x : outcome A * Store) : Prop :=
  Q x.

(** The two counts that [projects.updateTaskCounters] stores. *)
Definition total_in (projectId : string) (s : Store) : nat :=
  count_docs (λ _ t, bool_decide (Task.projectId t = projectId)) (tasks s).

Definition done_in (projectId : string) (s : Store) : nat :=
  count_docs (λ _ t, bool_decide (Task.projectId t = projectId)
                     && bool_decide (Task.status t = done)) (tasks s).

(** The counters of project [projectId] agree with the tasks. *)
Definition counters_exact (projectId : string) (s : Store) : Prop :=
  ∀ p, projects s !! projectId = Some p →
       Project.totalTasks (Project.metadata p) = total_in projectId s
       ∧ Project.completedTasks (Project.metadata p) = done_in projectId s.

(** The invariant on one task: [completedAt] is set exactly when the status
    is [done]. *)
Definition completed_inv (t : Task.t) : Prop :=
  Task.status t = done ↔ is_Some (Task.completedAt t).

Definition all_completed_inv (s : Store) : Prop :=
  ∀ id t, tasks s !! id = Some t → completed_inv t.

(** A call of one of the five task methods. *)
Inductive task_call :=
| call_insert (newId : string) (taskData : jsval)
| call_update (taskId : string) (updates : jsval)
| call_assign (taskId : string) (userIdToAssign : option string)
| call_logTime (taskId : string) (hoursToAdd : num)
| call_remove (taskId : string).

(** The store a call leaves, whether it returned or threw. *)
Definition run_call (set_undefined : option (option string) → option (option string))
    (this_userId : option string) (now : Z) (c : task_call) (s : Store) : Store :=
  match c with
  | call_insert newId taskData => (tasks_insert this_userId now newId taskData s).2
  | call_update taskId updates => (tasks_update this_userId now taskId updates s).2
  | call_assign taskId userIdToAssign =>
      (tasks_assign set_undefined this_userId now taskId userIdToAssign s).2
  | call_logTime taskId hoursToAdd => (tasks_logTime this_userId now taskId hoursToAdd s).2
  | call_remove taskId => (tasks_remove this_userId now taskId s).2
  end.

(** The stores that the task methods can produce, starting without any
    task; users and projects may change in between by other means. *)
Inductive reachable : Store → Prop :=
| reachable_init s :
    tasks s = ∅ → reachable s
| reachable_call s set_undefined this_userId now c :
    reachable s → reachable (run_call set_undefined this_userId now c s)
| reachable_other s s' :
    reachable s → tasks s' = tasks s → reachable s'.

(** The count of the group of key [k], 0 when there is no such group. *)
Fixpoint group_get {K} `{EqDecision K} (k : K) (groups : list (K * nat)) : nat :=
  match groups with
  | [] => 0
  | (k', n) :: rest => if decide (k = k') then n else group_get k rest
  end.

(* ===================================================================== *)
(** * The remaining project methods *)
(* ===================================================================== *)

(** The [updates] argument of [projects.update] once it has passed
    [check]. *)
Module ProjectUpdates.
Record t := mk {
    name : option string;
    description : option string;
    status : option ProjectStatus;
    tags : option (list string);
    teamMemberIds : option (list string);
    priority : option Priority }.
End ProjectUpdates.

Definition check_ProjectUpdates (v : jsval) : option ProjectUpdates.t :=
  props ← Match.plain_object v;
  guard (Match.no_unknown_key
           ["name"; "description"; "status"; "tags"; "teamMemberIds"; "priority"]
           props = true);;
  name ← Match.maybe "name" Match.String_ props;
  description ← Match.maybe "description" Match.String_ props;
  status ← Match.maybe "status" (Match.OneOfLit ProjectStatus_lit) props;
  tags ← Match.maybe "tags" Match.ArrayOfString props;
  teamMemberIds ← Match.maybe "teamMemberIds" Match.ArrayOfString props;
  priority ← Match.maybe "priority" (Match.OneOfLit Priority_lit) props;
  Some (ProjectUpdates.mk name description status tags teamMemberIds priority).

(** The modifier of [projects.update]: [$set] of the given fields and of
    [updatedAt], a given [priority] going to [metadata.priority]. *)
Definition apply_ProjectUpdates (u : ProjectUpdates.t) (now : Z) (p : Project.t)
    : Project.t :=
  Project.mk
    (default (Project.name p) (ProjectUpdates.name u))
    (default (Project.description p) (ProjectUpdates.description u))
    (Project.ownerId p)
    (default (Project.teamMemberIds p) (ProjectUpdates.teamMemberIds u))
    (default (Project.status p) (ProjectUpdates.status u))
    (default (Project.tags p) (ProjectUpdates.tags u))
    (Project.mkMetadata
       (Project.totalTasks (Project.metadata p))
       (Project.completedTasks (Project.metadata p))
       (default (Project.priority (Project.metadata p)) (ProjectUpdates.priority u)))
    (Project.createdAt p) (Some now).

(** [Meteor.users.find({ _id: { $in: ids } }).count() !== ids.length] *)
Definition members_missing (s : Store) (ids : list string) : bool :=
  negb (count_docs (λ id _, includes ids id) (users s) =? length ids)%nat.

Definition projects_update (this_userId : option string) (now : Z)
    (projectId : string) (updates : jsval) : M unit :=
  u ← check (check_ProjectUpdates updates);
  throw_if (falsy_id this_userId) not_authorized;;
  let userId := default "" this_userId in
  s ← get_store;
  match projects s !! projectId with
  | None => throw not_found
  | Some project =>
      throw_if (negb (canModifyProject s this_userId project)) not_authorized;;
      throw_if (too_short (ProjectUpdates.name u)) validation_error;;
      throw_if (longer_than 100 (ProjectUpdates.name u)) validation_error;;
      throw_if (match ProjectUpdates.teamMemberIds u with
                | Some ids => members_missing s ids
                | None => false
                end) validation_error;;
      modify_projects (alter (apply_ProjectUpdates u now) projectId);;
      logActivity userId Action.update projectId (Some updates) now
  end.

(** [$pull] of a string from an array of strings. *)
Definition pull (x : string) (xs : list string) : list string :=
  List.filter (λ y, negb (bool_decide (y = x))) xs.

Definition remove_member (userIdToRemove : string) (now : Z) (p : Project.t)
    : Project.t :=
  Project.mk (Project.name p) (Project.description p) (Project.ownerId p)
    (pull userIdToRemove (Project.teamMemberIds p)) (Project.status p)
    (Project.tags p) (Project.metadata p) (Project.createdAt p) (Some now).

Definition projects_removeTeamMember (this_userId : option string) (now : Z)
    (projectId userIdToRemove : string) : M unit :=
  throw_if (falsy_id this_userId) not_authorized;;
  let userId := default "" this_userId in
  s ← get_store;
  match projects s !! projectId with
  | None => throw not_found
  | Some project =>
      throw_if (negb (canModifyProject s this_userId project)) not_authorized;;
      throw_if (bool_decide (Project.ownerId project = userIdToRemove))
               validation_error;;
      modify_projects (alter (remove_member userIdToRemove now) projectId);;
      logActivity userId Action.update projectId
        (Some (VObj [("action", VStr "removed team member");
                     ("userId", VStr userIdToRemove)])) now
  end.


(* ===================================================================== *)
(** * The remaining reports *)
(* ===================================================================== *)

(** [$sort] as an insertion sort under the order [le] of the stage.  The
    order Mongo gives to entries that compare equal is not specified; here
    they keep their order. *)
Fixpoint insert_by {X} (le : X → X → bool) (x : X) (l : list X) : list X :=
  match l with
  | [] => [x]
  | y :: rest => if le x y then x :: l else y :: insert_by le x rest
  end.

Definition sort_by {X} (le : X → X → bool) (l : list X) : list X :=
  foldr (insert_by le) [] l.

(** The nested object that [getPriorityDistribution] returns. *)
Module StatusRow.
Record t := mk { todo : nat; in_progress : nat; review : nat }.
End StatusRow.

Module Distribution.
Record t := mk { high : StatusRow.t; medium : StatusRow.t; low : StatusRow.t }.
End Distribution.

(** [if (row[status] !== undefined) row[status] = count]: a row has no
    [done] key. *)
Definition set_row (row : StatusRow.t) (status : TaskStatus) (count : nat)
    : StatusRow.t :=
  let (t, i, r) := row in
  match status with
  | todo => StatusRow.mk count i r
  | in_progress => StatusRow.mk t count r
  | review => StatusRow.mk t i count
  | done => row
  end.

(** The body of the [forEach] of [getPriorityDistribution]. *)
Definition set_cell (result : Distribution.t)
    (item : (Priority * TaskStatus) * nat) : Distribution.t :=
  let (h, m, l) := result in
  match item.1.1 with
  | high => Distribution.mk (set_row h item.1.2 item.2) m l
  | medium => Distribution.mk h (set_row m item.1.2 item.2) l
  | low => Distribution.mk h m (set_row l item.1.2 item.2)
  end.

(** [{ $sort: { '_id.priority': -1, '_id.status': 1 } }] *)
Definition distribution_order (a b : (Priority * TaskStatus) * nat) : bool :=
  if bool_decide (a.1.1 = b.1.1)
  then String.leb (TaskStatus_string a.1.2) (TaskStatus_string b.1.2)
  else String.ltb (Priority_string b.1.1) (Priority_string a.1.1).

Definition getPriorityDistribution (s : Store) : Distribution.t :=
  let distribution :=
    sort_by distribution_order
      (group_count (λ t, (Task.priority t, Task.status t))
         (List.filter (λ t, negb (bool_decide (Task.status t = done)))
            (task_docs s))) in
  foldl set_cell
    (Distribution.mk (StatusRow.mk 0 0 0) (StatusRow.mk 0 0 0) (StatusRow.mk 0 0 0))
    distribution.

(** One more document for the group of key [k], the documents of a group
    kept in the order of the input. *)
Fixpoint add_to_group {K A} `{EqDecision K} (k : K) (d : A)
    (groups : list (K * list A)) : list (K * list A) :=
  match groups with
  | [] => [(k, [d])]
  | (k', ds) :: rest =>
      if decide (k = k') then (k', ds ++ [d])%list :: rest
      else (k', ds) :: add_to_group k d rest
  end.

(** The documents of a [$group] stage, by key. *)
Definition group_docs {K A} `{EqDecision K} (key : A → K) (docs : list A)
    : list (K * list A) :=
  foldl (λ groups d, add_to_group (key d) d groups) [] docs.

(** An element pushed to [completedTasks]. *)
Module CompletedTask.
Record t := mk { created : Z; completed : option Z; dueDate : option Z }.
End CompletedTask.

(** A document after the [$project] stage of [getTeamPerformance]. *)
Module PerfRow.
Record t := mk {
    userId : string;
    name : option string;   (* [$concat] is null without a profile *)
    tasksTotal : nat;
    tasksCompleted : nat;
    tasksInProgress : nat;
    completedTasks : list CompletedTask.t }.
End PerfRow.

Module Performance.
Record t := mk {
    userId : string;
    name : option string;
    tasksTotal : nat;
    tasksCompleted : nat;
    tasksInProgress : nat;
    averageCompletionDays : num;
    onTimeRate : num }.
End Performance.

(** The [$group] accumulators over the documents of one assignee, then the
    [$lookup] of the user and the [$unwind]: no row without a user
    document, and none for the key [null]. *)
Definition perf_row (s : Store) (g : option string * list Task.t) : option PerfRow.t :=
  match g.1 with
  | None => None
  | Some id =>
      match users s !! id with
      | None => None
      | Some user =>
          Some (PerfRow.mk id
                  ((λ p, User.firstName p ++ " " ++ User.lastName p)
                     <$> User.profile user)
                  (length g.2)
                  (length (List.filter (λ t, bool_decide (Task.status t = done)) g.2))
                  (length (List.filter
                             (λ t, bool_decide (Task.status t = in_progress)) g.2))
                  (map (λ t, CompletedTask.mk (Task.createdAt t)
                               (Task.completedAt t) (Task.dueDate t))
                     (List.filter (λ t, bool_decide (Task.status t = done)) g.2)))
      end
  end.

(** [task.dueDate && task.completed <= task.dueDate] *)
Definition on_time (t : CompletedTask.t) : bool :=
  match CompletedTask.dueDate t, CompletedTask.completed t with
  | Some due, Some finished => finished <=? due
  | _, _ => false
  end.

(** The post-processing of one row in JavaScript. *)
Definition performance_of (row : PerfRow.t) : Performance.t :=
  let completed :=
    List.filter (λ t, bool_decide (CompletedTask.completed t ≠ None))
      (PerfRow.completedTasks row) in
  let totalMs :=
    foldl (λ sum t, Num.add sum
                      (Num.of_Z (default 0 (CompletedTask.completed t)
                                 - CompletedTask.created t)))
      Num.zero completed in
  let onTimeCount := length (List.filter on_time completed) in
  let avgCompletionDays :=
    if (0 <? length completed)%nat
    then Num.div (Num.div totalMs (Num.of_nat (length completed)))
           (Num.of_Z ms_per_day)
    else Num.zero in
  let onTimeRate :=
    if (0 <? length completed)%nat
    then Num.div (Num.of_nat onTimeCount) (Num.of_nat (length completed))
    else Num.zero in
  Performance.mk (PerfRow.userId row) (PerfRow.name row)
    (PerfRow.tasksTotal row) (PerfRow.tasksCompleted row)
    (PerfRow.tasksInProgress row)
    (Num.div (Num.round (Num.mul avgCompletionDays (Num.of_Z 10))) (Num.of_Z 10))
    (Num.div (Num.round (Num.mul onTimeRate (Num.of_Z 100))) (Num.of_Z 100)).

(** [{ $sort: { tasksCompleted: -1 } }] *)
Definition more_completed (a b : PerfRow.t) : bool :=
  (PerfRow.tasksCompleted b <=? PerfRow.tasksCompleted a)%nat.

(** Truthiness of a JavaScript value. *)
Definition js_truthy (v : jsval) : bool :=
  match v with
  | VUndefined | VNull => false
  | VBool b => b
  | VNum n => Num.truthy n
  | VStr s => negb (String.eqb s "")
  | VDate _ | VArr _ | VObj _ => true
  end.

(** The pipeline and post-processing of [getTeamPerformance], from the
    [projectId] of [matchCriteria] when it has one. *)
Definition team_performance (s : Store) (matchCriteria : option string)
    : list Performance.t :=
  let matched :=
    List.filter
      (λ t, match matchCriteria with
            | Some projectId => bool_decide (Task.projectId t = projectId)
            | None => true
            end
            && bool_decide (Task.assignedToId t ≠ None))
      (task_docs s) in
  let groups := group_docs (λ t, default None (Task.assignedToId t)) matched in
  let performance := sort_by more_completed (omap (perf_row s) groups) in
  map performance_of performance.

Definition getTeamPerformance (projectId : jsval) : M (list Performance.t) :=
  (if js_truthy projectId then check (Match.String_ projectId);; mret ()
   else mret ());;
  s ← get_store;
  mret (team_performance s
          (if js_truthy projectId then Match.String_ projectId else None)).

(* ===================================================================== *)
(** * The report methods *)
(* ===================================================================== *)

Definition aggregations_getUserStatistics (this_userId : option string)
    (now : Z) : M UserStats.t :=
  throw_if (falsy_id this_userId) not_authorized;;
  s ← get_store;
  mret (getUserStatistics s now (default "" this_userId)).

Definition aggregations_getProjectStatistics (this_userId : option string)
    (projectId : string) : M ProjectStats.t :=
  throw_if (falsy_id this_userId) not_authorized;;
  let userId := default "" this_userId in
  s ← get_store;
  match projects s !! projectId with
  | None => throw not_found
  | Some project =>
      let hasAccess :=
        bool_decide (Project.ownerId project = userId)
        || includes (Project.teamMemberIds project) userId in
      let isAdmin := is_admin (users s !! userId) in
      throw_if (negb hasAccess && negb isAdmin) not_authorized;;
      mret (getProjectStatistics s projectId)
  end.

Definition aggregations_getTeamPerformance (this_userId : option string)
    (projectId : jsval) : M (list Performance.t) :=
  (if js_truthy projectId then check (Match.String_ projectId);; mret ()
   else mret ());;
  throw_if (falsy_id this_userId) not_authorized;;
  s ← get_store;
  throw_if (bool_decide (role_of (users s !! default "" this_userId) = Some member))
           not_authorized;;
  getTeamPerformance projectId.

Definition aggregations_getPriorityDistribution (this_userId : option string)
    : M Distribution.t :=
  throw_if (falsy_id this_userId) not_authorized;;
  s ← get_store;
  mret (getPriorityDistribution s).


(* ===================================================================== *)
(** * Calls of the methods, and what a run keeps *)
(* ===================================================================== *)

(** A call of one of the six project methods. *)
Inductive project_call :=
| call_projects_insert (newId : string) (projectData : jsval)
| call_projects_update (projectId : string) (updates : jsval)
| call_projects_remove (projectId : string) (hard : bool)
| call_addTeamMember (projectId userIdToAdd : string)
| call_removeTeamMember (projectId userIdToRemove : string)
| call_updateTaskCounters (projectId : string).

(** The error a run threw, if any. *)
Definition thrown {A} (o : outcome A) : option Error :=
  match o with Ok _ => None | Throw e => Some e end.

Definition lift {A} (x : outcome A * Store) : option Error * Store :=
  (thrown x.1, x.2).

Definition run_project_call (this_userId : option string) (now : Z)
    (c : project_call) (s : Store) : option Error * Store :=
  match c with
  | call_projects_insert newId projectData =>
      lift (projects_insert this_userId now newId projectData s)
  | call_projects_update projectId updates =>
      lift (projects_update this_userId now projectId updates s)
  | call_projects_remove projectId hard =>
      lift (projects_remove this_userId now projectId hard s)
  | call_addTeamMember projectId userIdToAdd =>
      lift (projects_addTeamMember this_userId now projectId userIdToAdd s)
  | call_removeTeamMember projectId userIdToRemove =>
      lift (projects_removeTeamMember this_userId now projectId userIdToRemove s)
  | call_updateTaskCounters projectId =>
      lift (projects_updateTaskCounters now projectId s)
  end.

Definition run_task_call
    (set_undefined : option (option string) → option (option string))
    (this_userId : option string) (now : Z) (c : task_call) (s : Store)
    : option Error * Store :=
  match c with
  | call_insert newId taskData => lift (tasks_insert this_userId now newId taskData s)
  | call_update taskId updates => lift (tasks_update this_userId now taskId updates s)
  | call_assign taskId userIdToAssign =>
      lift (tasks_assign set_undefined this_userId now taskId userIdToAssign s)
  | call_logTime taskId hoursToAdd =>
      lift (tasks_logTime this_userId now taskId hoursToAdd s)
  | call_remove taskId => lift (tasks_remove this_userId now taskId s)
  end.

(** Every run of [m] takes a store to one that [R] relates to it. *)
Definition keeps (R : Store → Store → Prop) {A} (m : M A) : Prop :=
  ∀ s, R s (m s).2.

(** The users are the same and the activity log has only grown. *)
Definition log_grows (s s' : Store) : Prop :=
  users s' = users s ∧ activityLogs s `prefix_of` activityLogs s'.

Definition same_tasks (s s' : Store) : Prop := tasks s' = tasks s.

(** Two versions of a project that differ at most in the two task counters
    and in [updatedAt]. *)
Definition same_but_counters (p p' : Project.t) : Prop :=
  Project.name p' = Project.name p
  ∧ Project.description p' = Project.description p
  ∧ Project.ownerId p' = Project.ownerId p
  ∧ Project.teamMemberIds p' = Project.teamMemberIds p
  ∧ Project.status p' = Project.status p
  ∧ Project.tags p' = Project.tags p
  ∧ Project.priority (Project.metadata p') = Project.priority (Project.metadata p)
  ∧ Project.createdAt p' = Project.createdAt p.

(** The same projects, each the same but for its counters. *)
Definition projects_but_counters (s s' : Store) : Prop :=
  ∀ projectId,
    match projects s !! projectId, projects s' !! projectId with
    | Some p, Some p' => same_but_counters p p'
    | None, None => True
    | _, _ => False
    end.

(** A run of [m] that throws leaves the store as it found it. *)
Definition atomic {A} (m : M A) : Prop :=
  ∀ s e, (m s).1 = Throw e → (m s).2 = s.

(** A run of [m] writes nothing. *)
Definition readonly {A} (m : M A) : Prop := ∀ s, (m s).2 = s.

(** A run of [m] returns. *)
Definition total {A} (m : M A) : Prop := ∀ s, ∃ a, (m s).1 = Ok a.

(* ===================================================================== *)
(** * More stores for the concrete runs *)
(* ===================================================================== *)

Module Sample2.

(** [max] has created a second project, [p2]. *)
Definition two_projects : Store :=
  (projects_insert (Some "max") 40 "p2" Sample.new_project Sample.empty_store).2.

Definition rename : jsval :=
  VObj [("name", VStr "Web shop"); ("priority", VStr "high")].

(** [max] has renamed [p1] and raised its priority. *)
Definition renamed : Store :=
  (projects_update (Some "max") 80 "p1" rename Sample.one_task).2.

(** [max] has added [moe] to the team of [p1]. *)
Definition with_moe : Store :=
  (projects_addTeamMember (Some "max") 50 "p1" "moe" Sample.one_task).2.

(** [max] has archived [p1]. *)
Definition archived_p1 : Store :=
  (projects_remove (Some "max") 60 "p1" false Sample.one_task).2.

(** [mia] has logged two hours on [t1]. *)
Definition two_hours : Store :=
  (tasks_logTime (Some "mia") 30 "t1" (Num.of_Z 2) Sample.one_task).2.

(** A second task of [p1], for [max], high priority, in review. *)
Definition t2 : Task.t :=
  Task.mk "p1" "Checkout" "" (Some (Some "max")) review high (Some 15) None None
    [] "max" 11 None None.

(** A third task, unassigned, low priority, done late. *)
Definition t3 : Task.t :=
  Task.mk "p1" "Footer" "" None done low (Some 12) None None
    [] "max" 11 None (Some 14).

(** [t1] done on time by [mia]. *)
Definition t1_done : Task.t :=
  Task.mk "p1" "Landing page" "" (Some (Some "mia")) done high (Some 50) None None
    [] "max" 10 (Some 20) (Some 20).

Definition three_tasks : Store :=
  mkStore (users Sample.empty_store) (projects Sample.one_task)
    (list_to_map [("t1", t1_done); ("t2", t2); ("t3", t3)]) [].

End Sample2.

(** A project large enough for a rate that is not a whole number of
    hundredths. *)
Module Sample3.

Definition task_key (i : nat) : string :=
  "t" ++ String (Ascii.ascii_of_nat (48 + i / 10)%nat)
           (String (Ascii.ascii_of_nat (48 + i mod 10)%nat) "").

(** Task number [i] of [p1]: done if [i < 23]. *)
Definition task_number (i : nat) : Task.t :=
  Task.mk "p1" "Task" "" None (if (i <? 23)%nat then done else todo) medium
    None None None [] "max" 10 None (if (i <? 23)%nat then Some 20 else None).

(** Forty tasks in [p1], twenty-three of them done. *)
Definition forty_tasks : Store :=
  mkStore (users Sample.empty_store) (projects Sample.empty_store)
    (list_to_map (map (λ i, (task_key i, task_number i)) (seq 0 40))) [].

End Sample3.

Definition ProjectStatus_string (st : ProjectStatus) : string :=
  match st with
  | active => "active" | completed => "completed" | archived => "archived"
  end.

(** The project [p] with [updatedAt] set. *)
Definition touched (now : Z) (p : Project.t) : Project.t :=
  Project.mk (Project.name p) (Project.description p) (Project.ownerId p)
    (Project.teamMemberIds p) (Project.status p) (Project.tags p)
    (Project.metadata p) (Project.createdAt p) (Some now).


(** The fields of a task that no method writes. *)
Definition same_identity (t t' : Task.t) : Prop :=
  Task.projectId t' = Task.projectId t
  ∧ Task.createdBy t' = Task.createdBy t
  ∧ Task.createdAt t' = Task.createdAt t.

(** The call is a [tasks.update] that moves its task into or out of
    [done]. *)
Definition changes_done (s : Store) (c : task_call) : bool :=
  match c with
  | call_update taskId updates =>
      match check_TaskUpdates updates, tasks s !! taskId with
      | Some u, Some t => becomes_done u t || leaves_done u t
      | _, _ => false
      end
  | _ => false
  end.


(** Reading the objects of counts: [counts[status]], [counts[priority]]. *)
Definition status_get (c : StatusCounts.t) (st : TaskStatus) : nat :=
  match st with
  | todo => StatusCounts.todo c
  | in_progress => StatusCounts.in_progress c
  | review => StatusCounts.review c
  | done => StatusCounts.done c
  end.

Definition priority_get (c : PriorityCounts.t) (p : Priority) : nat :=
  match p with
  | low => PriorityCounts.low c
  | medium => PriorityCounts.medium c
  | high => PriorityCounts.high c
  end.

(** [result[priority][status]]: a row has no [done] key. *)
Definition row_get (row : StatusRow.t) (st : TaskStatus) : option nat :=
  match st with
  | todo => Some (StatusRow.todo row)
  | in_progress => Some (StatusRow.in_progress row)
  | review => Some (StatusRow.review row)
  | done => None
  end.

Definition distribution_get (d : Distribution.t) (p : Priority) : StatusRow.t :=
  match p with
  | high => Distribution.high d
  | medium => Distribution.medium d
  | low => Distribution.low d
  end.

(** The tasks assigned to [userId], and those of project [projectId]. *)
Definition tasks_of_user (userId : string) (s : Store) (sel : Task.t → bool) : nat :=
  count_docs (λ _ t, assigned_to t userId && sel t) (tasks s).

Definition tasks_of_project (projectId : string) (s : Store) (sel : Task.t → bool) : nat :=
  count_docs (λ _ t, bool_decide (Task.projectId t = projectId) && sel t) (tasks s).

(** The documents of the group of key [k], none when there is no such
    group. *)
Fixpoint group_find {K A} `{EqDecision K} (k : K) (groups : list (K * list A))
    : list A :=
  match groups with
  | [] => []
  | (k', ds) :: rest => if decide (k = k') then ds else group_find k rest
  end.

(** The tasks that [getTeamPerformance] reads for the user [userId]: those
    assigned to them, of the project when one is named. *)
Definition tasks_in_scope (matchCriteria : option string) (userId : string)
    (s : Store) (sel : Task.t → bool) : nat :=
  count_docs
    (λ _ t, match matchCriteria with
            | Some projectId => bool_decide (Task.projectId t = projectId)
            | None => true
            end
            && assigned_to t userId && sel t) (tasks s).

(** The tasks with priority [p] and status [st]. *)
Definition tasks_with (p : Priority) (st : TaskStatus) (s : Store) : nat :=
  count_docs (λ _ t, bool_decide (Task.priority t = p)
                     && bool_decide (Task.status t = st)) (tasks s).

(* ===================================================================== *)
(** * Running a method: unfolding lemmas and tactics *)
(* ===================================================================== *)

Ltac unfold_m :=
  unfold throw_if, when, check, logTaskActivity, logActivity, insert_log,
    insert_task, insert_project, modify_tasks, modify_projects, get_store,
    throw, mbind, M_bind, mret, M_ret in *.

Ltac head_scrutinee t :=
  lazymatch t with
  | match ?x with _ => _ end => head_scrutinee x
  | (match ?x with _ => _ end) _ => head_scrutinee x
  | _ => t
  end.

(** Case analysis on the next test of the run under [post]. *)
Ltac run_step :=
  lazymatch goal with
  | |- post _ (match ?x with _ => _ end) =>
      let h := head_scrutinee x in destruct h eqn:?; cbv beta iota zeta
  | |- post _ ((match ?x with _ => _ end) _) =>
      let h := head_scrutinee x in destruct h eqn:?; cbv beta iota zeta
  end.

Ltac run_all := cbv beta iota zeta; repeat run_step; unfold post.

Lemma falsy_id_Some uid : uid ≠ "" → falsy_id (Some uid) = false.
Proof. intros H. unfold falsy_id. by apply String.eqb_neq. Qed.

Lemma falsy_id_false x :
  falsy_id x = false → ∃ uid, x = Some uid ∧ uid ≠ "" ∧ default "" x = uid.
Proof.
  destruct x as [uid|]; simpl; [|discriminate].
  intros H. exists uid. split_and!; [done| |done]. by apply String.eqb_neq.
Qed.

Lemma is_admin_true user : is_admin user = true ↔ role_of user = Some admin.
Proof. unfold is_admin. apply bool_decide_eq_true. Qed.

Lemma is_admin_false user : is_admin user = false ↔ role_of user ≠ Some admin.
Proof. unfold is_admin. apply bool_decide_eq_false. Qed.

(* ===================================================================== *)
(** * Deleting a task *)
(* ===================================================================== *)

Lemma tasks_remove_run uid now taskId s t :
  uid ≠ "" → tasks s !! taskId = Some t →
  tasks_remove (Some uid) now taskId s =
    if negb (is_admin (users s !! uid)) && negb (bool_decide (Task.createdBy t = uid))
    then (Throw not_authorized, s)
    else (logTaskActivity uid Action.delete taskId
            (Some (VObj [("taskTitle", VStr (Task.title t));
                         ("projectId", VStr (Task.projectId t))])) now
            (projects_updateTaskCounters now (Task.projectId t)
               (modify_tasks (base.delete taskId) s).2).2).
Proof.
  intros Hne Ht. unfold tasks_remove, projects_updateTaskCounters.
  unfold_m. rewrite (falsy_id_Some _ Hne). simpl. rewrite Ht.
  by destruct (negb _ && negb _).
Qed.

(** C8. For an authenticated caller and an existing task, [tasks.remove]
    throws not-authorized exactly when the caller is neither an admin nor
    the creator of the task; the store is then unchanged, and otherwise the
    call succeeds and the task is gone.  Owning the project or being the
    assignee plays no part. *)
Theorem tasks_remove_not_authorized_iff uid now taskId s t :
  uid ≠ "" → tasks s !! taskId = Some t →
  let r := tasks_remove (Some uid) now taskId s in
  (r.1 = Throw not_authorized
     ↔ role_of (users s !! uid) ≠ Some admin ∧ Task.createdBy t ≠ uid)
  ∧ (r.1 = Throw not_authorized → r.2 = s)
  ∧ (r.1 ≠ Throw not_authorized →
       r.1 = Ok () ∧ tasks r.2 = base.delete taskId (tasks s)).
Proof.
  intros Hne Ht r. subst r. rewrite (tasks_remove_run _ _ _ _ _ Hne Ht).
  destruct (is_admin (users s !! uid)) eqn:Hadm;
    destruct (bool_decide (Task.createdBy t = uid)) eqn:Hcr; simpl.
  all: first [apply is_admin_true in Hadm | apply is_admin_false in Hadm].
  all: first [apply bool_decide_eq_true in Hcr | apply bool_decide_eq_false in Hcr].
  - split_and!; [split; [done | by intros [? _]] | done | done].
  - split_and!; [split; [done | by intros [? _]] | done | done].
  - split_and!; [split; [done | by intros [_ ?]] | done | done].
  - split_and!; [done | done | by intros ?].
Qed.

(** The project owner who is also the assignee, but neither admin nor
    creator, is refused. *)
Lemma tasks_remove_owner_assignee_refused uid now taskId s t p :
  uid ≠ "" → tasks s !! taskId = Some t →
  projects s !! Task.projectId t = Some p → Project.ownerId p = uid →
  Task.assignedToId t = Some (Some uid) →
  role_of (users s !! uid) ≠ Some admin → Task.createdBy t ≠ uid →
  tasks_remove (Some uid) now taskId s = (Throw not_authorized, s).
Proof.
  intros Hne Ht _ _ _ Hadm Hcr. rewrite (tasks_remove_run _ _ _ _ _ Hne Ht).
  apply is_admin_false in Hadm. apply (bool_decide_eq_false_2 _) in Hcr.
  by rewrite Hadm, Hcr.
Qed.

Lemma tasks_remove_not_authorized_iff_witness :
  (tasks_remove (Some "mia") 30 "t1" Sample.one_task).1 = Throw not_authorized
  ∧ (tasks_remove (Some "mia") 30 "t1" Sample.one_task).2 = Sample.one_task.
Proof.
  pose proof (tasks_remove_not_authorized_iff "mia" 30 "t1" Sample.one_task
                Sample.t1) as H.
  cbv zeta in H. destruct H as (Hiff & Hsame & _); [done | by vm_compute |].
  assert ((tasks_remove (Some "mia") 30 "t1" Sample.one_task).1 = Throw not_authorized)
    as Hth by (apply Hiff; split; by vm_compute).
  split; [exact Hth | exact (Hsame Hth)].
Defined.

(* ===================================================================== *)
(** * Creating a task *)
(* ===================================================================== *)

Lemma assoc_Some_key {A} k (props : list (string * A)) v :
  assoc k props = Some v → k ∈ map fst props.
Proof.
  induction props as [|[k' v'] rest IH]; simpl; [discriminate|].
  destruct (String.eqb k k') eqn:Hk.
  - apply String.eqb_eq in Hk. subst. intros _. apply list_elem_of_here.
  - intros H. apply list_elem_of_further. by apply IH.
Qed.

Lemma no_unknown_key_spec allowed props :
  Match.no_unknown_key allowed props = true →
  ∀ k, k ∈ object_keys props → k ∈ allowed.
Proof.
  unfold Match.no_unknown_key. rewrite forallb_forall.
  intros H k Hk. apply list_elem_of_In in Hk. specialize (H k Hk).
  unfold includes in H. by apply bool_decide_eq_true in H.
Qed.

(** [check] turns down an argument of [tasks.insert] that names a key
    outside the eight of the pattern: [status], [createdBy], [completedAt]
    among them. *)
Lemma check_TaskData_unknown_key props k v :
  assoc k props = Some v →
  k ∉ ["projectId"; "title"; "description"; "assignedToId"; "priority";
       "dueDate"; "estimatedHours"; "tags"] →
  check_TaskData (VObj props) = None.
Proof.
  intros Hk Hnot. unfold check_TaskData. simpl.
  destruct (Match.no_unknown_key _ props) eqn:Hkeys.
  - exfalso. apply Hnot. eapply no_unknown_key_spec; [exact Hkeys|].
    by eapply assoc_Some_key.
  - by rewrite option_guard_False.
Qed.

Example tasks_insert_status_done_rejected :
  tasks_insert (Some "max") 10 "t1"
    (VObj [("projectId", VStr "p1"); ("title", VStr "Landing page");
           ("description", VStr ""); ("priority", VStr "high");
           ("tags", VArr []); ("status", VStr "done");
           ("completedAt", VDate 5)]) Sample.empty_store
  = (Throw match_failed, Sample.empty_store).
Proof. reflexivity. Qed.

(** What a run of [tasks.insert] comes to: it throws before it has written
    anything, or it returns [newId] after storing the new task and the
    recomputed counters of its project. *)
Lemma tasks_insert_run this_userId now newId taskData s :
  post (λ x,
    (∃ e, x = (Throw e, s))
    ∨ (∃ data,
         x.1 = Ok newId
         ∧ falsy_id this_userId = false
         ∧ tasks s !! newId = None
         ∧ tasks x.2 = <[newId := new_task data (default "" this_userId) now]> (tasks s)
         ∧ projects x.2 =
             alter (set_counters (total_in (TaskData.projectId data) x.2)
                      (done_in (TaskData.projectId data) x.2) now)
               (TaskData.projectId data) (projects s)))
    (tasks_insert this_userId now newId taskData s).
Proof.
  unfold tasks_insert, projects_updateTaskCounters. unfold_m.
  run_all.
  all: try (left; eexists; reflexivity).
  all: right; eexists; split_and!; reflexivity.
Qed.

(** C9. A task that [tasks.insert] creates is stored under a fresh [_id]
    with status [todo], the caller as [createdBy] and no [completedAt],
    whatever value the caller passed as [taskData]. *)
Theorem tasks_insert_creates_todo this_userId now newId taskData s taskId s' :
  tasks_insert this_userId now newId taskData s = (Ok taskId, s') →
  ∃ t, tasks s !! taskId = None
       ∧ tasks s' = <[taskId := t]> (tasks s)
       ∧ Task.status t = todo
       ∧ this_userId = Some (Task.createdBy t)
       ∧ Task.completedAt t = None.
Proof.
  intros Hrun.
  pose proof (tasks_insert_run this_userId now newId taskData s) as Hpost.
  unfold post in Hpost. rewrite Hrun in Hpost.
  destruct Hpost as [[e [=]] | (data & [= <-] & Hid & Hfresh & Htasks & _)].
  exists (new_task data (default "" this_userId) now).
  split_and!; [done | done | done | | done].
  apply falsy_id_false in Hid as (uid & -> & _ & _). done.
Qed.

Lemma tasks_insert_creates_todo_witness :
  ∃ t, tasks Sample.empty_store !! "t1" = None
       ∧ tasks Sample.one_task = <["t1" := t]> (tasks Sample.empty_store)
       ∧ Task.status t = todo
       ∧ Some "max" = Some (Task.createdBy t)
       ∧ Task.completedAt t = None.
Proof.
  apply (tasks_insert_creates_todo (Some "max") 10 "t1" Sample.task_for_mia
           Sample.empty_store "t1" Sample.one_task).
  reflexivity.
Defined.

(* ===================================================================== *)
(** * Creating a project *)
(* ===================================================================== *)

(** C10. [projects.insert] throws not-authorized, leaving the store as it
    was, for a caller whose role is [member] or who has no role; a call that
    returns a project id was made by a [manager] or an [admin]. *)
Theorem projects_insert_role_gate uid now newId projectData s :
  let r := projects_insert (Some uid) now newId projectData s in
  let role := role_of (users s !! uid) in
  (role = None ∨ role = Some member → r = (Throw not_authorized, s))
  ∧ (∀ projectId, r.1 = Ok projectId → role = Some manager ∨ role = Some admin).
Proof.
  intros r role. subst r role. unfold projects_insert. unfold_m. simpl.
  split.
  - intros Hrole. destruct (String.eqb uid ""); [reflexivity|].
    destruct Hrole as [-> | ->]; reflexivity.
  - intros projectId. destruct (String.eqb uid ""); [discriminate|].
    destruct (role_of (users s !! uid)) as [[]|]; simpl; try discriminate; auto.
Qed.

Lemma projects_insert_role_gate_witness :
  projects_insert (Some "mia") 40 "p2" Sample.new_project Sample.empty_store
    = (Throw not_authorized, Sample.empty_store)
  ∧ (projects_insert (Some "bot") 40 "p2" Sample.new_project Sample.empty_store
    = (Throw not_authorized, Sample.empty_store))
  ∧ (role_of (users Sample.empty_store !! "max") = Some manager
     ∨ role_of (users Sample.empty_store !! "max") = Some admin).
Proof.
  split_and!.
  - apply (projects_insert_role_gate "mia" 40 "p2" Sample.new_project
             Sample.empty_store). right. reflexivity.
  - apply (projects_insert_role_gate "bot" 40 "p2" Sample.new_project
             Sample.empty_store). left. reflexivity.
  - apply (proj2 (projects_insert_role_gate "max" 40 "p2" Sample.new_project
                    Sample.empty_store) "p2"). reflexivity.
Defined.

(* ===================================================================== *)
(** * Counting documents *)
(* ===================================================================== *)

Lemma count_docs_pos {A} (sel : string → A → bool) (m : gmap string A) id doc :
  m !! id = Some doc → sel id doc = true → (0 < count_docs sel m)%nat.
Proof.
  intros Hm Hsel. unfold count_docs.
  assert (In (id, doc) (List.filter (λ kv, sel kv.1 kv.2) (map_to_list m))) as Hin.
  { apply filter_In. split; [|exact Hsel].
    apply list_elem_of_In. by apply elem_of_map_to_list. }
  destruct (List.filter _ _); [destruct Hin | simpl; lia].
Qed.

Lemma count_docs_task_docs (sel : Task.t → bool) (s : Store) :
  count_docs (λ _ t, sel t) (tasks s) = length (List.filter sel (task_docs s)).
Proof.
  unfold count_docs, task_docs.
  induction (map_to_list (tasks s)) as [|[k t] l IH]; simpl; [done|].
  destruct (sel t); simpl; by rewrite IH.
Qed.

(* ===================================================================== *)
(** * Deleting or archiving a project *)
(* ===================================================================== *)

Lemma canModifyProject_owner_or_admin s uid p user :
  uid ≠ "" → users s !! uid = Some user →
  Project.ownerId p = uid ∨ role_of (Some user) = Some admin →
  canModifyProject s (Some uid) p = true.
Proof.
  intros Hne Hu Hwho. unfold canModifyProject.
  rewrite (falsy_id_Some _ Hne), Hu.
  destruct (is_admin (Some user)) eqn:Hadm; [done|].
  destruct Hwho as [Hown | Hrole].
  - by rewrite bool_decide_eq_true_2.
  - apply is_admin_true in Hrole. congruence.
Qed.

Lemma canModifyProject_ext s1 s2 x p1 p2 :
  users s1 = users s2 → Project.ownerId p1 = Project.ownerId p2 →
  canModifyProject s1 x p1 = canModifyProject s2 x p2.
Proof. intros Hu Ho. unfold canModifyProject. by rewrite Hu, Ho. Qed.

Lemma projects_remove_run this_userId now projectId hard s :
  projects_remove this_userId now projectId hard s =
    if falsy_id this_userId then (Throw not_authorized, s) else
    match projects s !! projectId with
    | None => (Throw not_found, s)
    | Some p =>
        if negb (canModifyProject s this_userId p) then (Throw not_authorized, s)
        else if hard then
          if (0 <? count_docs (λ _ t, bool_decide (Task.projectId t = projectId))
                     (tasks s))%nat
          then (Throw validation_error, s)
          else (Ok (),
                mkStore (users s) (base.delete projectId (projects s)) (tasks s)
                  (activityLogs s ++
                   [ActivityLog.mk (default "" this_userId) Action.delete
                      Entity.project projectId None now]))
        else (Ok (),
              mkStore (users s) (alter (archive now) projectId (projects s)) (tasks s)
                (activityLogs s ++
                 [ActivityLog.mk (default "" this_userId) Action.update
                    Entity.project projectId
                    (Some (VObj [("status", VStr "archived")])) now]))
    end.
Proof.
  unfold projects_remove. unfold_m.
  destruct (falsy_id this_userId); [done|]. simpl.
  destruct (projects s !! projectId) as [p|]; [|done].
  destruct (negb (canModifyProject s this_userId p)); [done|]. simpl.
  destruct hard; [|done].
  by destruct (0 <? _)%nat.
Qed.

(** Whoever calls, a hard delete of a project that still has a task throws
    and writes nothing. *)
Lemma projects_remove_hard_with_tasks_unchanged this_userId now projectId s id t :
  tasks s !! id = Some t → Task.projectId t = projectId →
  ∃ e, projects_remove this_userId now projectId true s = (Throw e, s).
Proof.
  intros Ht Hp. rewrite projects_remove_run.
  destruct (falsy_id this_userId); [by eexists|].
  destruct (projects s !! projectId) as [p|]; [|by eexists].
  destruct (negb _); [by eexists|].
  assert ((0 <? count_docs (λ _ t, bool_decide (Task.projectId t = projectId))
                  (tasks s))%nat = true) as ->; [|by eexists].
  apply Nat.ltb_lt. eapply count_docs_pos; [exact Ht|].
  by apply bool_decide_eq_true_2.
Qed.

(** C4. A hard delete of a project that has a task throws, whoever calls,
    and leaves the store as it was; for a caller who owns the project or is
    an admin the error is a validation-error.  A soft delete by such a
    caller succeeds, and the project is then still stored, with status
    [archived]. *)
Theorem projects_remove_hard_blocked_soft_archives uid now projectId s p user :
  uid ≠ "" → users s !! uid = Some user →
  projects s !! projectId = Some p →
  Project.ownerId p = uid ∨ role_of (Some user) = Some admin →
  ((∃ id t, tasks s !! id = Some t ∧ Task.projectId t = projectId) →
     projects_remove (Some uid) now projectId true s = (Throw validation_error, s)
     ∧ ∀ anyone, ∃ e, projects_remove anyone now projectId true s = (Throw e, s))
  ∧ ∃ s', projects_remove (Some uid) now projectId false s = (Ok (), s')
          ∧ projects s' !! projectId = Some (archive now p)
          ∧ Project.status (archive now p) = archived
          ∧ tasks s' = tasks s.
Proof.
  intros Hne Hu Hp Hwho.
  pose proof (canModifyProject_owner_or_admin s uid p user Hne Hu Hwho) as Hcan.
  split.
  2:{ rewrite !projects_remove_run, (falsy_id_Some _ Hne), Hp, Hcan. simpl.
      eexists. split_and!; [reflexivity | | reflexivity | reflexivity].
      simpl. by rewrite lookup_alter_eq, Hp. }
  intros (id & t & Ht & Hproj). split.
  2:{ intros anyone. by eapply projects_remove_hard_with_tasks_unchanged. }
  rewrite !projects_remove_run, (falsy_id_Some _ Hne), Hp, Hcan. simpl.
  assert ((0 <? count_docs (λ _ t, bool_decide (Task.projectId t = projectId))
                  (tasks s))%nat = true) as ->; [|done].
  apply Nat.ltb_lt. eapply count_docs_pos; [exact Ht|].
  by apply bool_decide_eq_true_2.
Qed.

Lemma projects_remove_hard_blocked_soft_archives_witness :
  projects_remove (Some "max") 60 "p1" true Sample.one_task
    = (Throw validation_error, Sample.one_task)
  ∧ ∃ s', projects_remove (Some "max") 60 "p1" false Sample.one_task = (Ok (), s')
          ∧ Project.status <$> projects s' !! "p1" = Some archived.
Proof.
  destruct (projects_remove_hard_blocked_soft_archives "max" 60 "p1"
              Sample.one_task (set_counters 1 0 10 Sample.p1) Sample.max)
    as [Hhard (s' & Hsoft & Hlook & _)]; [done | done | done | by left |].
  split.
  - refine (proj1 (Hhard _)). exists "t1", Sample.t1. split; reflexivity.
  - exists s'. split; [exact Hsoft|]. by rewrite Hlook.
Defined.

(* ===================================================================== *)
(** * Adding a team member *)
(* ===================================================================== *)

Lemma projects_addTeamMember_run this_userId now projectId userIdToAdd s :
  projects_addTeamMember this_userId now projectId userIdToAdd s =
    if falsy_id this_userId then (Throw not_authorized, s) else
    match projects s !! projectId with
    | None => (Throw not_found, s)
    | Some p =>
        if negb (canModifyProject s this_userId p) then (Throw not_authorized, s)
        else if bool_decide (users s !! userIdToAdd = None) then (Throw not_found, s)
        else if includes (Project.teamMemberIds p) userIdToAdd
        then (Throw validation_error, s)
        else (Ok (),
              mkStore (users s)
                (alter (add_member userIdToAdd now) projectId (projects s))
                (tasks s)
                (activityLogs s ++
                 [ActivityLog.mk (default "" this_userId) Action.update
                    Entity.project projectId
                    (Some (VObj [("action", VStr "added team member");
                                 ("userId", VStr userIdToAdd)])) now]))
    end.
Proof.
  unfold projects_addTeamMember. unfold_m.
  destruct (falsy_id this_userId); [done|]. simpl.
  destruct (projects s !! projectId) as [p|]; [|done].
  destruct (negb (canModifyProject s this_userId p)); [done|]. simpl.
  destruct (bool_decide (users s !! userIdToAdd = None)); [done|]. simpl.
  by destruct (includes _ _).
Qed.

Lemma includes_addToSet x xs : includes (addToSet x xs) x = true.
Proof.
  unfold includes, addToSet. apply bool_decide_eq_true_2.
  case_bool_decide; [done|]. apply elem_of_app. right. apply list_elem_of_here.
Qed.

(** The claim of an add that does not fail on a user who is already a
    member does not hold: the owner adding [mia], who is on the team of
    [p1], gets a validation-error. *)
Lemma projects_addTeamMember_member_again_fails :
  "mia" ∈ Project.teamMemberIds Sample.p1
  ∧ projects Sample.empty_store !! "p1" = Some Sample.p1
  ∧ projects_addTeamMember (Some "max") 50 "p1" "mia" Sample.empty_store
    = (Throw validation_error, Sample.empty_store).
Proof. split_and!; [apply list_elem_of_here | reflexivity | reflexivity]. Qed.

(** C5, amended. [projects.addTeamMember] never stores a duplicate: adding
    a user who is already in [teamMemberIds] throws (a validation-error when
    the caller may modify the project and the user exists) and leaves the
    store as it was; a call that succeeds appends the user, who was not a
    member, once; and a second identical call leaves the store as the first
    one left it. *)
Theorem projects_addTeamMember_no_duplicate
    this_userId now now' projectId userIdToAdd s :
  let r := projects_addTeamMember this_userId now projectId userIdToAdd s in
  (∀ p, projects s !! projectId = Some p →
        userIdToAdd ∈ Project.teamMemberIds p →
        ∃ e, r = (Throw e, s)
             ∧ (canModifyProject s this_userId p = true →
                users s !! userIdToAdd ≠ None → e = validation_error))
  ∧ (r.1 = Ok () →
       ∃ p p', projects s !! projectId = Some p
               ∧ (userIdToAdd ∉ Project.teamMemberIds p)
               ∧ projects (snd r) !! projectId = Some p'
               ∧ Project.teamMemberIds p' =
                   (Project.teamMemberIds p ++ [userIdToAdd])%list)
  ∧ (projects_addTeamMember this_userId now' projectId userIdToAdd r.2).2 = r.2.
Proof.
  intros r. subst r. rewrite projects_addTeamMember_run.
  destruct (falsy_id this_userId) eqn:Hid.
  { split_and!; [ | done | ].
    - intros p _ _. eexists. split; [done|].
      unfold canModifyProject. rewrite Hid. by destruct this_userId.
    - rewrite projects_addTeamMember_run. simpl. by rewrite Hid. }
  destruct (projects s !! projectId) as [p|] eqn:Hp.
  2:{ split_and!; [done | done |].
      rewrite projects_addTeamMember_run. simpl. by rewrite Hid, Hp. }
  destruct (negb (canModifyProject s this_userId p)) eqn:Hcan.
  { split_and!; [ | done | ].
    - intros ? [= <-] _. eexists. split; [done|].
      intros Hc. apply negb_true_iff in Hcan. congruence.
    - rewrite projects_addTeamMember_run. simpl. by rewrite Hid, Hp, Hcan. }
  destruct (bool_decide (users s !! userIdToAdd = None)) eqn:Hu.
  { split_and!; [ | done | ].
    - intros ? [= <-] _. eexists. split; [done|].
      intros _ Hex. by apply bool_decide_eq_true in Hu.
    - rewrite projects_addTeamMember_run. simpl. by rewrite Hid, Hp, Hcan, Hu. }
  destruct (includes (Project.teamMemberIds p) userIdToAdd) eqn:Hin.
  { split_and!; [ | done | ].
    - intros ? [= <-] _. by eexists.
    - rewrite projects_addTeamMember_run. simpl. by rewrite Hid, Hp, Hcan, Hu, Hin. }
  apply bool_decide_eq_false in Hin.
  split_and!.
  - intros ? [= <-] Hmem. done.
  - intros _. exists p, (add_member userIdToAdd now p).
    split_and!; [done | done | |].
    + simpl. by rewrite lookup_alter_eq, Hp.
    + simpl. unfold addToSet. by rewrite bool_decide_eq_false_2.
  - rewrite projects_addTeamMember_run. simpl.
    rewrite Hid, lookup_alter_eq, Hp. simpl.
    rewrite (canModifyProject_ext _ s _ _ p) by done.
    rewrite Hcan, Hu. simpl. by rewrite includes_addToSet.
Qed.

Lemma projects_addTeamMember_no_duplicate_witness :
  (∃ e, projects_addTeamMember (Some "max") 50 "p1" "mia" Sample.empty_store
        = (Throw e, Sample.empty_store))
  ∧ (∃ p', projects
             (projects_addTeamMember (Some "max") 50 "p1" "moe" Sample.empty_store).2
             !! "p1" = Some p'
           ∧ Project.teamMemberIds p' = ["mia"; "moe"]).
Proof.
  split.
  - destruct (proj1 (projects_addTeamMember_no_duplicate (Some "max") 50 51
                       "p1" "mia" Sample.empty_store) Sample.p1)
      as (e & He & _); [reflexivity | apply list_elem_of_here |].
    exists e. exact He.
  - destruct (proj1 (proj2 (projects_addTeamMember_no_duplicate (Some "max") 50 51
                       "p1" "moe" Sample.empty_store)))
      as (p & p' & Hp & _ & Hp' & Hmem); [reflexivity|].
    exists p'. split; [exact Hp'|].
    rewrite Hmem. by injection Hp as <-.
Defined.

(* ===================================================================== *)
(** * Updating a task: who may change what *)
(* ===================================================================== *)

(** [canModifyTask] answers yes to the assignee. *)
Lemma canModifyTask_assignee s uid t user :
  uid ≠ "" → users s !! uid = Some user → assigned_to t uid = true →
  canModifyTask s (Some uid) t = true.
Proof.
  intros Hne Hu Hass. unfold canModifyTask.
  rewrite (falsy_id_Some _ Hne), Hu, Hass.
  by repeat case_match.
Qed.

(** Hence the test [isAssignee && !canFullyModify] that guards the field
    allowlist of [tasks.update] is false for every caller who has a user
    document. *)
Lemma tasks_update_allowlist_guard_false s uid t user :
  uid ≠ "" → users s !! uid = Some user →
  assigned_to t uid && negb (canModifyTask s (Some uid) t) = false.
Proof.
  intros Hne Hu. destruct (assigned_to t uid) eqn:Hass; [|done].
  by rewrite (canModifyTask_assignee s uid t user Hne Hu Hass).
Qed.

(** An assignee who is neither admin, creator nor project owner may change
    [status]. *)
Example tasks_update_assignee_status_accepted :
  (tasks_update (Some "mia") 20 "t1" (VObj [("status", VStr "done")])
     Sample.one_task).1 = Ok ().
Proof. reflexivity. Qed.

(** C1, on the code.  [mia] is the assignee of [t1] and nothing more (a
    member, while [max] created the task and owns the project);
    [priority] is outside the allowlist; yet her update of [priority] is
    accepted and written. *)
Theorem tasks_update_assignee_changes_priority :
  tasks Sample.one_task !! "t1" = Some Sample.t1
  ∧ Task.assignedToId Sample.t1 = Some (Some "mia")
  ∧ role_of (users Sample.one_task !! "mia") = Some member
  ∧ Task.createdBy Sample.t1 = "max"
  ∧ Project.ownerId <$> projects Sample.one_task !! Task.projectId Sample.t1
    = Some "max"
  ∧ includes allowedFields "priority" = false
  ∧ (let r := tasks_update (Some "mia") 20 "t1" (VObj [("priority", VStr "low")])
                Sample.one_task in
     r.1 = Ok () ∧ Task.priority <$> tasks r.2 !! "t1" = Some low).
Proof. cbv zeta. split_and!; reflexivity. Qed.

(* ===================================================================== *)
(** * The task counters of a project *)
(* ===================================================================== *)

Lemma projects_updateTaskCounters_exact now projectId s :
  counters_exact projectId (projects_updateTaskCounters now projectId s).2.
Proof.
  unfold projects_updateTaskCounters, counters_exact. unfold_m. simpl.
  intros p. rewrite lookup_alter_eq.
  destruct (projects s !! projectId); simpl; [|done].
  by intros [= <-].
Qed.

(** After [tasks.insert] the counters of the project of the new task are
    exact. *)
Lemma tasks_insert_counters_exact this_userId now newId taskData s taskId s' t :
  tasks_insert this_userId now newId taskData s = (Ok taskId, s') →
  tasks s' !! taskId = Some t →
  counters_exact (Task.projectId t) s'.
Proof.
  intros Hrun Ht.
  pose proof (tasks_insert_run this_userId now newId taskData s) as Hpost.
  unfold post in Hpost. rewrite Hrun in Hpost.
  destruct Hpost as [[e [=]] | (data & [= <-] & _ & _ & Htasks & Hprojects)].
  simpl in Htasks, Hprojects.
  rewrite Htasks, lookup_insert_eq in Ht. injection Ht as <-.
  intros p. rewrite Hprojects, lookup_alter_eq. simpl.
  destruct (projects s !! _); simpl; [by intros [= <-] | done].
Qed.

(** After [tasks.remove] the counters of the project of the removed task
    are exact. *)
Lemma tasks_remove_counters_exact uid now taskId s t s' :
  uid ≠ "" → tasks s !! taskId = Some t →
  tasks_remove (Some uid) now taskId s = (Ok (), s') →
  counters_exact (Task.projectId t) s'.
Proof.
  intros Hne Ht. rewrite (tasks_remove_run _ _ _ _ _ Hne Ht).
  destruct (negb _ && negb _); [discriminate|].
  intros [= <-]. unfold counters_exact, total_in, done_in; simpl.
  intros p; rewrite lookup_alter_eq.
  destruct (projects _ !! _); simpl; [by intros [= <-] | done].
Qed.

(** C2, on the code.  [tasks.update] recomputes the counters before it
    writes the new status: when [mia] completes [t1], the only task of
    [p1], the call succeeds, one task of [p1] is [done], and
    [metadata.completedTasks] is still 0. *)
Theorem tasks_update_done_leaves_counters_stale :
  let r := tasks_update (Some "mia") 20 "t1" (VObj [("status", VStr "done")])
             Sample.one_task in
  r.1 = Ok ()
  ∧ Task.status <$> tasks r.2 !! "t1" = Some done
  ∧ done_in "p1" r.2 = 1%nat
  ∧ Project.completedTasks <$> (Project.metadata <$> projects r.2 !! "p1")
    = Some 0%nat
  ∧ ¬ counters_exact "p1" r.2.
Proof.
  cbv zeta. split_and!; try reflexivity.
  intros Hexact.
  destruct (Hexact (set_counters 1 0 20 Sample.p1)) as [_ Hdone]; [reflexivity|].
  discriminate Hdone.
Qed.

(* ===================================================================== *)
(** * [completedAt] and the status [done] *)
(* ===================================================================== *)

(** What each task method does to the task collection. *)

Lemma tasks_insert_effect this_userId now newId taskData s :
  post (λ x, tasks x.2 = tasks s
             ∨ ∃ data userId,
                 tasks x.2 = <[newId := new_task data userId now]> (tasks s))
    (tasks_insert this_userId now newId taskData s).
Proof.
  pose proof (tasks_insert_run this_userId now newId taskData s) as Hpost.
  unfold post in *.
  destruct Hpost as [[e ->] | (data & _ & _ & _ & Htasks & _)];
    [by left | right; by eexists _, _].
Qed.

Lemma tasks_update_effect this_userId now taskId updates s :
  post (λ x,
    (∃ e, x = (Throw e, s))
    ∨ (x.1 = Ok ()
       ∧ ∃ u t stamp unset,
           check_TaskUpdates updates = Some u
           ∧ tasks s !! taskId = Some t
           ∧ tasks x.2 =
               alter (apply_updateObject (mkUpdateObject u now stamp unset))
                 taskId (tasks s)
           ∧ stamp = (if becomes_done u t then Some now else None)
           ∧ unset = leaves_done u t))
   (tasks_update this_userId now taskId updates s).
Proof.
  unfold tasks_update, projects_updateTaskCounters. unfold_m.
  run_all.
  all: try (left; eexists; reflexivity).
  all: right; split; [reflexivity|]; eexists _, _, _, _;
    split_and!; [reflexivity | reflexivity | reflexivity | | ].
  all: match goal with
       | H : becomes_done _ _ = _ |- _ = (if _ then _ else _) => by rewrite H
       | H : leaves_done _ _ = _ |- _ = leaves_done _ _ => by rewrite H
       end.
Qed.

Lemma tasks_assign_effect set_undefined this_userId now taskId userIdToAssign s :
  post (λ x, tasks x.2 = tasks s
             ∨ ∃ a, tasks x.2 = alter (set_assignee a now) taskId (tasks s))
    (tasks_assign set_undefined this_userId now taskId userIdToAssign s).
Proof.
  unfold tasks_assign. unfold_m.
  run_all.
  all: first [left; reflexivity | right; eexists; reflexivity].
Qed.

Lemma tasks_logTime_effect this_userId now taskId hoursToAdd s :
  post (λ x, tasks x.2 = tasks s
             ∨ tasks x.2 = alter (inc_actualHours hoursToAdd now) taskId (tasks s))
    (tasks_logTime this_userId now taskId hoursToAdd s).
Proof.
  unfold tasks_logTime. unfold_m.
  run_all.
  all: first [left; reflexivity | right; reflexivity].
Qed.

Lemma tasks_remove_effect this_userId now taskId s :
  post (λ x, tasks x.2 = tasks s ∨ tasks x.2 = base.delete taskId (tasks s))
    (tasks_remove this_userId now taskId s).
Proof.
  unfold tasks_remove, projects_updateTaskCounters. unfold_m.
  run_all.
  all: first [left; reflexivity | right; reflexivity].
Qed.

Lemma completed_inv_new_task data userId now : completed_inv (new_task data userId now).
Proof. unfold completed_inv. simpl. split; [discriminate | by intros [? ?]]. Qed.

Lemma completed_inv_set_assignee a now t :
  completed_inv t → completed_inv (set_assignee a now t).
Proof. done. Qed.

Lemma completed_inv_inc_actualHours h now t :
  completed_inv t → completed_inv (inc_actualHours h now t).
Proof. done. Qed.

(** The status and the completion time after the modifier of
    [tasks.update]. *)
Lemma apply_updateObject_status o t :
  Task.status (apply_updateObject o t)
  = default (Task.status t) (TaskUpdates.status (set_updates o)).
Proof. done. Qed.

Lemma becomes_done_iff u t :
  becomes_done u t = true
  ↔ Task.status t ≠ done ∧ default (Task.status t) (TaskUpdates.status u) = done.
Proof.
  unfold becomes_done. rewrite andb_true_iff, negb_true_iff,
    bool_decide_eq_true, bool_decide_eq_false.
  destruct (TaskUpdates.status u) as [st|]; simpl; split.
  - intros [[= ->] ?]. done.
  - intros [? ->]. done.
  - intros [[=] _].
  - intros [? ?]. done.
Qed.

Lemma leaves_done_iff u t :
  leaves_done u t = true
  ↔ Task.status t = done ∧ default (Task.status t) (TaskUpdates.status u) ≠ done.
Proof.
  unfold leaves_done. rewrite andb_true_iff, bool_decide_eq_true.
  destruct (TaskUpdates.status u) as [st|]; simpl.
  - by rewrite negb_true_iff, bool_decide_eq_false.
  - split; [by intros [_ [=]] | by intros [? ?]].
Qed.

Lemma apply_updateObject_completedAt u now t :
  let t' := apply_updateObject
              (mkUpdateObject u now (if becomes_done u t then Some now else None)
                 (leaves_done u t)) t in
  Task.completedAt t' =
    if bool_decide (Task.status t ≠ done ∧ Task.status t' = done) then Some now
    else if bool_decide (Task.status t = done ∧ Task.status t' ≠ done) then None
    else Task.completedAt t.
Proof.
  intros t'. subst t'. rewrite apply_updateObject_status. simpl.
  destruct (becomes_done u t) eqn:Hb, (leaves_done u t) eqn:Hl.
  - apply becomes_done_iff in Hb. apply leaves_done_iff in Hl. by destruct Hb, Hl.
  - apply becomes_done_iff in Hb. by rewrite bool_decide_eq_true_2.
  - apply leaves_done_iff in Hl.
    rewrite bool_decide_eq_false_2 by (intros [? _]; by destruct Hl).
    by rewrite bool_decide_eq_true_2.
  - rewrite bool_decide_eq_false_2.
    2:{ intros H. apply becomes_done_iff in H. congruence. }
    rewrite bool_decide_eq_false_2; [done|].
    intros H. apply leaves_done_iff in H. congruence.
Qed.

Lemma completed_inv_apply_updateObject u now t :
  completed_inv t →
  completed_inv
    (apply_updateObject
       (mkUpdateObject u now (if becomes_done u t then Some now else None)
          (leaves_done u t)) t).
Proof.
  unfold completed_inv. intros Hinv.
  rewrite apply_updateObject_completedAt, apply_updateObject_status. simpl.
  set (new := default (Task.status t) (TaskUpdates.status u)).
  destruct (decide (Task.status t = done)) as [Hold | Hold];
    destruct (decide (new = done)) as [Hnew | Hnew].
  - rewrite bool_decide_eq_false_2 by (by intros [? _]).
    rewrite bool_decide_eq_false_2 by (by intros [_ ?]).
    split; [intros _; by apply Hinv | done].
  - rewrite bool_decide_eq_false_2 by (by intros [? _]).
    rewrite bool_decide_eq_true_2 by done.
    split; [done | by intros [? ?]].
  - rewrite bool_decide_eq_true_2 by done. done.
  - rewrite bool_decide_eq_false_2 by (by intros [_ ?]).
    rewrite bool_decide_eq_false_2 by (by intros [? _]).
    split; [done | intros Hc; by apply Hinv in Hc].
Qed.

Lemma all_completed_inv_alter f taskId s s' :
  (∀ t, tasks s !! taskId = Some t → completed_inv t → completed_inv (f t)) →
  tasks s' = alter f taskId (tasks s) →
  all_completed_inv s → all_completed_inv s'.
Proof.
  intros Hf Hs' Hinv id t. rewrite Hs', lookup_alter.
  case_decide as Hid.
  - subst id. destruct (tasks s !! taskId) as [t0|] eqn:Ht0; [|done].
    intros [= <-]. apply Hf; [done|]. by eapply Hinv.
  - apply Hinv.
Qed.

Lemma all_completed_inv_same s s' :
  tasks s' = tasks s → all_completed_inv s → all_completed_inv s'.
Proof. intros Hs' Hinv id t. rewrite Hs'. apply Hinv. Qed.

Lemma run_call_completed_inv set_undefined this_userId now c s :
  all_completed_inv s →
  all_completed_inv (run_call set_undefined this_userId now c s).
Proof.
  intros Hinv. destruct c as [newId d | taskId u | taskId a | taskId h | taskId]; simpl.
  - destruct (tasks_insert_effect this_userId now newId d s) as [Hs | (data & uid & Hs)].
    + by eapply all_completed_inv_same.
    + intros id t. rewrite Hs, lookup_insert. case_decide.
      * intros [= <-]. apply completed_inv_new_task.
      * apply Hinv.
  - destruct (tasks_update_effect this_userId now taskId u s)
      as [[e He] | (_ & u' & t & stamp & unset & _ & Ht & Hs & -> & ->)].
    + rewrite He. done.
    + eapply all_completed_inv_alter; [|exact Hs|exact Hinv].
      intros t0. rewrite Ht. intros [= <-]. apply completed_inv_apply_updateObject.
  - destruct (tasks_assign_effect set_undefined this_userId now taskId a s)
      as [Hs | [a' Hs]].
    + by eapply all_completed_inv_same.
    + eapply all_completed_inv_alter; [|exact Hs|exact Hinv].
      intros t _. apply completed_inv_set_assignee.
  - destruct (tasks_logTime_effect this_userId now taskId h s) as [Hs | Hs].
    + by eapply all_completed_inv_same.
    + eapply all_completed_inv_alter; [|exact Hs|exact Hinv].
      intros t _. apply completed_inv_inc_actualHours.
  - destruct (tasks_remove_effect this_userId now taskId s) as [Hs | Hs].
    + by eapply all_completed_inv_same.
    + intros id t. rewrite Hs. intros Hl. apply lookup_delete_Some in Hl.
      destruct Hl as [_ Hl]. by eapply Hinv.
Qed.

(** C3. In every store the task methods can reach, a task is [done]
    exactly when its [completedAt] is set; and a [tasks.update] that returns
    sets [completedAt] to the time of the call on a change of status into
    [done], removes it on a change out of [done], and leaves it alone
    otherwise. *)
Theorem completedAt_iff_done :
  (∀ s, reachable s → ∀ id t, tasks s !! id = Some t →
        Task.status t = done ↔ is_Some (Task.completedAt t))
  ∧ (∀ this_userId now taskId updates s s' t,
       tasks s !! taskId = Some t →
       tasks_update this_userId now taskId updates s = (Ok (), s') →
       ∃ t', tasks s' !! taskId = Some t'
             ∧ Task.completedAt t' =
                 if bool_decide (Task.status t ≠ done ∧ Task.status t' = done)
                 then Some now
                 else if bool_decide (Task.status t = done ∧ Task.status t' ≠ done)
                 then None
                 else Task.completedAt t).
Proof.
  split.
  - intros s Hreach. change (all_completed_inv s).
    induction Hreach as [s Hempty | s f uid now c _ IH | s s' _ IH Hsame].
    + intros id t. rewrite Hempty, lookup_empty. discriminate.
    + by apply run_call_completed_inv.
    + by eapply all_completed_inv_same.
  - intros this_userId now taskId updates s s' t Ht Hrun.
    pose proof (tasks_update_effect this_userId now taskId updates s) as Heff.
    unfold post in Heff. rewrite Hrun in Heff.
    destruct Heff as [[e [=]] | (_ & u & t0 & stamp & unset & _ & Ht0 & Hs & -> & ->)].
    rewrite Ht in Ht0. injection Ht0 as <-. simpl in Hs.
    eexists. split.
    + by rewrite Hs, lookup_alter_eq, Ht.
    + apply apply_updateObject_completedAt.
Qed.

Lemma reachable_one_done : reachable Sample.one_done.
Proof.
  apply (reachable_call _ id (Some "mia") 20
           (call_update "t1" (VObj [("status", VStr "done")]))).
  apply (reachable_call _ id (Some "max") 10 (call_insert "t1" Sample.task_for_mia)).
  by apply reachable_init.
Qed.

Lemma completedAt_iff_done_witness :
  (done = done ↔ is_Some (Some 20))
  ∧ ∃ t', tasks Sample.one_done !! "t1" = Some t'
          ∧ Task.completedAt t' = Some 20.
Proof.
  split.
  - apply (proj1 completedAt_iff_done Sample.one_done reachable_one_done "t1"
             (apply_updateObject
                (mkUpdateObject
                   (TaskUpdates.mk None None (Some done) None None None None None None)
                   20 (Some 20) false) Sample.t1)).
    reflexivity.
  - destruct (proj2 completedAt_iff_done (Some "mia") 20 "t1"
                (VObj [("status", VStr "done")]) Sample.one_task Sample.one_done
                Sample.t1) as (t' & Ht' & Hc); [reflexivity | reflexivity |].
    exists t'. split; [exact Ht'|]. rewrite Hc.
    vm_compute in Ht'. injection Ht' as <-. reflexivity.
Defined.

(* ===================================================================== *)
(** * Grouping and counting *)
(* ===================================================================== *)

Section Grouping.
Context {A K : Type} `{EqDecision K}.

Lemma group_get_bump (k k' : K) (groups : list (K * nat)) :
  group_get k' (bump k groups)
  = if decide (k' = k) then S (group_get k' groups) else group_get k' groups.
Proof.
  induction groups as [|[k0 n] rest IH]; simpl.
  - by destruct (decide (k' = k)).
  - destruct (decide (k = k0)) as [-> | Hne]; simpl.
    + by destruct (decide (k' = k0)).
    + rewrite IH. destruct (decide (k' = k0)) as [-> | ?]; [|done].
      by rewrite decide_False.
Qed.

Lemma keys_bump (k : K) (groups : list (K * nat)) :
  map fst (bump k groups)
  = if decide (k ∈ map fst groups) then map fst groups
    else (map fst groups ++ [k])%list.
Proof.
  induction groups as [|[k0 n] rest IH]; simpl; [done|].
  destruct (decide (k = k0)) as [-> | Hne]; simpl.
  - rewrite decide_True; [done | apply list_elem_of_here].
  - rewrite IH. destruct (decide (k ∈ map fst rest)) as [Hin | Hnin].
    + rewrite decide_True; [done | by apply list_elem_of_further].
    + rewrite decide_False; [done|]. intros Hin. apply elem_of_cons in Hin.
      by destruct Hin.
Qed.

Lemma NoDup_keys_bump (k : K) (groups : list (K * nat)) :
  NoDup (map fst groups) → NoDup (map fst (bump k groups)).
Proof.
  intros Hnd. rewrite keys_bump. case_decide; [done|].
  apply NoDup_app. split_and!; [done | | apply NoDup_singleton].
  intros x Hx Hxk. apply list_elem_of_singleton in Hxk. by subst.
Qed.

Lemma group_get_foldl_bump (key : A → K) (k : K) (docs : list A) (acc : list (K * nat)) :
  group_get k (foldl (λ groups d, bump (key d) groups) acc docs)
  = (group_get k acc
     + length (List.filter (λ d, bool_decide (key d = k)) docs))%nat.
Proof.
  revert acc. induction docs as [|d docs IH]; intros acc; simpl; [lia|].
  rewrite IH, group_get_bump.
  destruct (decide (k = key d)) as [-> | Hne].
  - rewrite bool_decide_eq_true_2 by done. simpl. lia.
  - by rewrite bool_decide_eq_false_2.
Qed.

(** The group of key [k] counts the documents of key [k]. *)
Lemma group_get_group_count (key : A → K) (k : K) (docs : list A) :
  group_get k (group_count key docs)
  = length (List.filter (λ d, bool_decide (key d = k)) docs).
Proof. unfold group_count. by rewrite group_get_foldl_bump. Qed.

Lemma NoDup_keys_group_count (key : A → K) (docs : list A) :
  NoDup (map fst (group_count key docs)).
Proof.
  unfold group_count.
  assert (∀ acc, NoDup (map fst acc) →
            NoDup (map fst (foldl (λ groups d, bump (key d) groups) acc docs))) as H.
  { induction docs as [|d docs IH]; intros acc Hacc; simpl; [done|].
    apply IH. by apply NoDup_keys_bump. }
  apply H. constructor.
Qed.

End Grouping.

Lemma group_get_not_key {K} `{EqDecision K} (k : K) (groups : list (K * nat)) :
  k ∉ map fst groups → group_get k groups = 0%nat.
Proof.
  induction groups as [|[k0 n] rest IH]; simpl; [done|].
  intros Hnin. apply not_elem_of_cons in Hnin as [Hne Hnin].
  rewrite decide_False by done. by apply IH.
Qed.

(** Copying the groups into the object of counts: the [done] entry ends up
    as the count of the [done] group, or stays as it was without one. *)
Lemma foldl_set_status_count_done (groups : list (TaskStatus * nat)) acc :
  NoDup (map fst groups) →
  StatusCounts.done (foldl set_status_count acc groups)
  = if decide (done ∈ map fst groups) then group_get done groups
    else StatusCounts.done acc.
Proof.
  revert acc. induction groups as [|[k n] rest IH]; intros acc Hnd; simpl.
  - done.
  - apply NoDup_cons in Hnd as [Hk Hnd]. rewrite (IH _ Hnd).
    destruct (decide (done = k)) as [<- | Hne].
    + destruct (decide (done ∈ map fst rest)) as [Hin | _]; [done|].
      destruct (decide (done ∈ done :: map fst rest)) as [_ | Hnin].
      * by destruct acc.
      * exfalso. apply Hnin, list_elem_of_here.
    + destruct (decide (done ∈ map fst rest)) as [Hin | Hnin];
        destruct (decide (done ∈ k :: map fst rest)) as [Hin' | Hnin'].
      * done.
      * exfalso. by apply Hnin', list_elem_of_further.
      * apply elem_of_cons in Hin'. by destruct Hin'.
      * destruct acc, k; simpl; done.
Qed.

Lemma statusCounts_done (docs : list Task.t) :
  StatusCounts.done
    (foldl set_status_count (StatusCounts.mk 0 0 0 0) (group_count Task.status docs))
  = length (List.filter (λ t, bool_decide (Task.status t = done)) docs).
Proof.
  rewrite foldl_set_status_count_done by apply NoDup_keys_group_count.
  rewrite <- group_get_group_count.
  case_decide as Hin; [done|]. simpl. symmetry. by apply group_get_not_key.
Qed.

Lemma length_filter_filter {A} (f g : A → bool) (l : list A) :
  length (List.filter g (List.filter f l)) = length (List.filter (λ x, f x && g x) l).
Proof.
  induction l as [|x l IH]; simpl; [done|].
  destruct (f x); simpl; [|done]. destruct (g x); simpl; by rewrite IH.
Qed.

(* ===================================================================== *)
(** * The statistics of a user without tasks *)
(* ===================================================================== *)

Lemma in_task_docs s t : In t (task_docs s) → ∃ id, tasks s !! id = Some t.
Proof.
  unfold task_docs. intros Hin. apply in_map_iff in Hin as ([id t'] & <- & Hin).
  exists id. apply elem_of_map_to_list. by apply list_elem_of_In.
Qed.

Lemma filter_nil {A} (f : A → bool) (l : list A) :
  (∀ x, In x l → f x = false) → List.filter f l = [].
Proof.
  induction l as [|x l IH]; simpl; [done|].
  intros H. rewrite (H x) by auto. apply IH. auto.
Qed.

Lemma count_docs_zero {A} (sel : string → A → bool) (m : gmap string A) :
  (∀ id doc, m !! id = Some doc → sel id doc = false) → count_docs sel m = 0%nat.
Proof.
  intros H. unfold count_docs. rewrite filter_nil; [done|].
  intros [id doc] Hin. apply H, elem_of_map_to_list. by apply list_elem_of_In.
Qed.

(** Without a completed task of the user the average completion time is
    0. *)
Lemma getUserStatistics_no_done s now userId :
  (∀ id t, tasks s !! id = Some t → assigned_to t userId = true →
           Task.status t ≠ done) →
  UserStats.averageCompletionDays (getUserStatistics s now userId) = Num.zero.
Proof.
  intros Hnone. unfold getUserStatistics. cbn [UserStats.averageCompletionDays].
  rewrite (filter_nil (λ t, assigned_to t userId
                            && bool_decide (Task.status t = done)
                            && bool_decide (Task.completedAt t ≠ None))).
  - reflexivity.
  - intros t Hin. apply in_task_docs in Hin as [id Ht].
    destruct (assigned_to t userId) eqn:Hass; [|done].
    by rewrite (bool_decide_eq_false_2 _ (Hnone id t Ht Hass)).
Qed.

(** C7. For a user to whom no task is assigned, [getUserStatistics]
    returns the all-zero result: no task in total, 0 for each status and
    each priority, average 0, none overdue.  More generally the average is
    0 whenever none of the user's tasks is [done]. *)
Theorem getUserStatistics_zero s now userId :
  ((∀ id t, tasks s !! id = Some t → assigned_to t userId = false) →
     getUserStatistics s now userId
     = UserStats.mk 0 (StatusCounts.mk 0 0 0 0) (PriorityCounts.mk 0 0 0)
         (Num.zero) 0)
  ∧ ((∀ id t, tasks s !! id = Some t → assigned_to t userId = true →
              Task.status t ≠ done) →
     UserStats.averageCompletionDays (getUserStatistics s now userId) = Num.zero).
Proof.
  split; [|apply getUserStatistics_no_done].
  intros Hnone.
  unfold getUserStatistics.
  rewrite (filter_nil (λ t, assigned_to t userId)).
  2:{ intros t Hin. apply in_task_docs in Hin as [id Ht]. by apply (Hnone id). }
  rewrite (filter_nil (λ t, assigned_to t userId
                            && bool_decide (Task.status t = done)
                            && bool_decide (Task.completedAt t ≠ None))).
  2:{ intros t Hin. apply in_task_docs in Hin as [id Ht]. by rewrite (Hnone id t Ht). }
  rewrite !count_docs_zero.
  - reflexivity.
  - intros id t Ht. by rewrite (Hnone id t Ht).
  - exact Hnone.
Qed.

Lemma tasks_one_task : tasks Sample.one_task = {["t1" := Sample.t1]}.
Proof. reflexivity. Qed.

Lemma getUserStatistics_zero_witness :
  getUserStatistics Sample.one_task 100 "moe"
  = UserStats.mk 0 (StatusCounts.mk 0 0 0 0) (PriorityCounts.mk 0 0 0) (Num.zero) 0
  ∧ UserStats.averageCompletionDays (getUserStatistics Sample.one_task 100 "mia")
    = Num.zero.
Proof.
  split.
  - apply (proj1 (getUserStatistics_zero Sample.one_task 100 "moe")).
    intros id t. rewrite tasks_one_task. intros Ht.
    apply lookup_singleton_Some in Ht as [_ <-]. reflexivity.
  - apply (proj2 (getUserStatistics_zero Sample.one_task 100 "mia")).
    intros id t. rewrite tasks_one_task. intros Ht _.
    apply lookup_singleton_Some in Ht as [_ <-]. discriminate.
Defined.

(* ===================================================================== *)
(** * Team lists that pass the existence test *)
(* ===================================================================== *)

Lemma count_docs_keys {A} (sel : string → bool) (m : gmap string A) :
  count_docs (λ id _, sel id) m
  = length (List.filter sel (map fst (map_to_list m))).
Proof.
  unfold count_docs. induction (map_to_list m) as [|[k v] l IH]; simpl; [done|].
  destruct (sel k); simpl; by rewrite IH.
Qed.

Lemma NoDup_List_filter {A} (f : A → bool) (l : list A) :
  NoDup l → NoDup (List.filter f l).
Proof.
  induction 1 as [|x l Hx Hl IH]; simpl; [constructor|].
  destruct (f x); [|done]. constructor; [|done].
  intros Hin. apply Hx. apply list_elem_of_In in Hin.
  apply filter_In in Hin as [Hin _]. by apply list_elem_of_In.
Qed.

(** The test [find({ _id: { $in: ids } }).count() !== ids.length] passes
    exactly for a list without repetition whose ids all name a user. *)
Lemma members_missing_false s ids :
  members_missing s ids = false
  ↔ NoDup ids ∧ ∀ id, id ∈ ids → is_Some (users s !! id).
Proof.
  unfold members_missing. rewrite negb_false_iff, Nat.eqb_eq, count_docs_keys.
  set (keys := List.filter (includes ids) (map fst (map_to_list (users s)))).
  assert (NoDup keys) as Hnd.
  { apply NoDup_List_filter, NoDup_fst_map_to_list. }
  assert (∀ id, id ∈ keys ↔ id ∈ ids ∧ is_Some (users s !! id)) as Hkeys.
  { intros id. unfold keys. rewrite list_elem_of_In, filter_In, <- list_elem_of_In.
    unfold includes. rewrite bool_decide_eq_true.
    rewrite list_elem_of_fmap. split.
    - intros [([k v] & -> & Hin) Hid]. split; [done|].
      apply elem_of_map_to_list in Hin. by eexists.
    - intros [Hid [v Hv]]. split; [|done].
      exists (id, v). split; [done|]. by apply elem_of_map_to_list. }
  assert (keys ⊆+ ids) as Hsub.
  { apply NoDup_submseteq; [done|]. intros id Hid. by apply Hkeys in Hid as [? _]. }
  split.
  - intros Hlen.
    assert (keys ≡ₚ ids) as Hperm.
    { apply submseteq_length_Permutation; [done | lia]. }
    split.
    + by rewrite <- Hperm.
    + intros id Hid. rewrite <- Hperm in Hid. by apply Hkeys in Hid as [_ ?].
  - intros [Hnd' Hall].
    assert (ids ⊆+ keys) as Hsub'.
    { apply NoDup_submseteq; [done|]. intros id Hid. apply Hkeys. split; auto. }
    apply submseteq_length in Hsub, Hsub'. lia.
Qed.


(* ===================================================================== *)
(** * What a run keeps: composition *)
(* ===================================================================== *)

Section Keeps.
Context (R : Store → Store → Prop).
Hypothesis R_refl : ∀ s, R s s.
Hypothesis R_trans : ∀ s1 s2 s3, R s1 s2 → R s2 s3 → R s1 s3.

Lemma keeps_ret {A} (a : A) : keeps R (mret a).
Proof. intros s. apply R_refl. Qed.

Lemma keeps_throw {A} e : keeps R (throw e : M A).
Proof. intros s. apply R_refl. Qed.

Lemma keeps_get_store : keeps R get_store.
Proof. intros s. apply R_refl. Qed.

Lemma keeps_bind {A B} (m : M A) (k : A → M B) :
  keeps R m → (∀ a, keeps R (k a)) → keeps R (m ≫= k).
Proof.
  intros Hm Hk s. unfold mbind, M_bind. specialize (Hm s).
  destruct (m s) as [[a|e] s1]; simpl in *; [|done].
  eapply R_trans; [exact Hm | apply Hk].
Qed.

Lemma keeps_throw_if c e : keeps R (throw_if c e).
Proof. unfold throw_if. destruct c; [apply keeps_throw | apply keeps_ret]. Qed.

Lemma keeps_when c body : keeps R body → keeps R (when c body).
Proof. intros H. unfold when. destruct c; [done | apply keeps_ret]. Qed.

Lemma keeps_check {A} (parsed : option A) : keeps R (check parsed).
Proof. unfold check. destruct parsed; [apply keeps_ret | apply keeps_throw]. Qed.

End Keeps.

(** Splits a goal [keeps R m] along the structure of [m]. *)
Ltac keeps_step Rrefl Rtrans :=
  cbv zeta;
  lazymatch goal with
  | |- keeps _ (mbind _ _) => apply (keeps_bind _ Rtrans); [|intros ?]
  | |- keeps _ (mret _) => apply (keeps_ret _ Rrefl)
  | |- keeps _ (throw _) => apply (keeps_throw _ Rrefl)
  | |- keeps _ get_store => apply (keeps_get_store _ Rrefl)
  | |- keeps _ (throw_if _ _) => apply (keeps_throw_if _ Rrefl)
  | |- keeps _ (when _ _) => apply (keeps_when _ Rrefl)
  | |- keeps _ (check _) => apply (keeps_check _ Rrefl)
  | |- keeps _ (match ?x with _ => _ end) => destruct x
  end.

Lemma log_grows_refl s : log_grows s s.
Proof. by split. Qed.

Lemma log_grows_trans s1 s2 s3 : log_grows s1 s2 → log_grows s2 s3 → log_grows s1 s3.
Proof. intros [Hu1 Hl1] [Hu2 Hl2]. split; [congruence | by etrans]. Qed.

Lemma log_grows_insert_log entry : keeps log_grows (insert_log entry).
Proof. intros s. split; [done|]. simpl. by apply prefix_app_r. Qed.

Lemma log_grows_modify_projects f : keeps log_grows (modify_projects f).
Proof. by intros s. Qed.

Lemma log_grows_modify_tasks f : keeps log_grows (modify_tasks f).
Proof. by intros s. Qed.

Ltac log_grows_tac :=
  repeat first
    [ apply log_grows_insert_log
    | apply log_grows_modify_projects
    | apply log_grows_modify_tasks
    | keeps_step log_grows_refl log_grows_trans ].

Lemma log_grows_updateTaskCounters now projectId :
  keeps log_grows (projects_updateTaskCounters now projectId).
Proof. unfold projects_updateTaskCounters. log_grows_tac. Qed.

Ltac unfold_methods :=
  unfold projects_insert, projects_update, projects_remove,
    projects_addTeamMember, projects_removeTeamMember, tasks_insert,
    tasks_update, tasks_remove, tasks_assign, tasks_logTime, insert_project,
    insert_task, logActivity, logTaskActivity.

Lemma log_grows_project_call this_userId now c s :
  log_grows s (run_project_call this_userId now c s).2.
Proof.
  destruct c; cbn [run_project_call lift snd].
  all: match goal with
       | |- log_grows ?s0 (?m ?s0).2 => revert s0; change (keeps log_grows m)
       end.
  all: unfold_methods.
  all: repeat first [apply log_grows_updateTaskCounters | progress log_grows_tac].
Qed.

Lemma log_grows_task_call set_undefined this_userId now c s :
  log_grows s (run_task_call set_undefined this_userId now c s).2.
Proof.
  destruct c; cbn [run_task_call lift snd].
  all: match goal with
       | |- log_grows ?s0 (?m ?s0).2 => revert s0; change (keeps log_grows m)
       end.
  all: unfold_methods.
  all: repeat first [apply log_grows_updateTaskCounters | progress log_grows_tac].
Qed.


Lemma same_tasks_refl s : same_tasks s s.
Proof. done. Qed.

Lemma same_tasks_trans s1 s2 s3 : same_tasks s1 s2 → same_tasks s2 s3 → same_tasks s1 s3.
Proof. unfold same_tasks. congruence. Qed.

Lemma same_tasks_project_call this_userId now c s :
  same_tasks s (run_project_call this_userId now c s).2.
Proof.
  destruct c; cbn [run_project_call lift snd].
  all: match goal with
       | |- same_tasks ?s0 (?m ?s0).2 => revert s0; change (keeps same_tasks m)
       end.
  all: unfold_methods; unfold projects_updateTaskCounters.
  all: repeat first
         [ lazymatch goal with
           | |- keeps _ (insert_log _) => by intros ?
           | |- keeps _ (modify_projects _) => by intros ?
           end
         | keeps_step same_tasks_refl same_tasks_trans ].
Qed.

Lemma same_but_counters_refl p : same_but_counters p p.
Proof. by repeat split. Qed.

Lemma projects_but_counters_refl s : projects_but_counters s s.
Proof.
  intros projectId. destruct (projects s !! projectId); [|done].
  apply same_but_counters_refl.
Qed.

Lemma projects_but_counters_trans s1 s2 s3 :
  projects_but_counters s1 s2 → projects_but_counters s2 s3 →
  projects_but_counters s1 s3.
Proof.
  intros H12 H23 projectId. specialize (H12 projectId). specialize (H23 projectId).
  destruct (projects s1 !! projectId), (projects s2 !! projectId),
    (projects s3 !! projectId); try done.
  destruct H12 as (?&?&?&?&?&?&?&?), H23 as (?&?&?&?&?&?&?&?).
  repeat split; congruence.
Qed.

Lemma projects_but_counters_updateTaskCounters now projectId :
  keeps projects_but_counters (projects_updateTaskCounters now projectId).
Proof.
  intros s pid. unfold projects_updateTaskCounters. unfold_m. simpl.
  rewrite lookup_alter. case_decide as Hpid.
  - subst pid. destruct (projects s !! projectId); simpl; [|done].
    by repeat split.
  - destruct (projects s !! pid); [|done]. apply same_but_counters_refl.
Qed.

Lemma projects_but_counters_same s s' :
  projects s' = projects s → projects_but_counters s s'.
Proof.
  intros Hp projectId. rewrite Hp.
  destruct (projects s !! projectId); [apply same_but_counters_refl | done].
Qed.

Lemma projects_but_counters_task_call set_undefined this_userId now c s :
  projects_but_counters s (run_task_call set_undefined this_userId now c s).2.
Proof.
  destruct c; cbn [run_task_call lift snd].
  all: match goal with
       | |- projects_but_counters ?s0 (?m ?s0).2 =>
           revert s0; change (keeps projects_but_counters m)
       end.
  all: unfold_methods.
  all: repeat first
         [ apply projects_but_counters_updateTaskCounters
         | lazymatch goal with
           | |- keeps _ (insert_log _) => by intros ?; apply projects_but_counters_same
           | |- keeps _ (modify_tasks _) => by intros ?; apply projects_but_counters_same
           end
         | keeps_step projects_but_counters_refl projects_but_counters_trans ].
Qed.

(** X1. No method writes to the users, and none removes or alters an entry
    of the activity log: the log after a call extends the log before it. *)
Theorem methods_keep_users_and_log set_undefined this_userId now s :
  (∀ c, log_grows s (run_project_call this_userId now c s).2)
  ∧ (∀ c, log_grows s (run_task_call set_undefined this_userId now c s).2).
Proof.
  split; intros c;
    [apply log_grows_project_call | apply log_grows_task_call].
Qed.

(** X2. The project methods leave every task as it is (removing a team
    member or archiving a project does not touch the tasks), and the task
    methods neither create nor delete a project and change nothing of a
    project but its two task counters and [updatedAt]. *)
Theorem methods_stay_in_their_collection set_undefined this_userId now s :
  (∀ c, tasks (run_project_call this_userId now c s).2 = tasks s)
  ∧ (∀ c, projects_but_counters s
            (run_task_call set_undefined this_userId now c s).2).
Proof.
  split; intros c;
    [apply same_tasks_project_call | apply projects_but_counters_task_call].
Qed.

(* ===================================================================== *)
(** * A call that throws has written nothing *)
(* ===================================================================== *)

Lemma readonly_ret {A} (a : A) : readonly (mret a).
Proof. done. Qed.

Lemma readonly_throw {A} e : readonly (throw e : M A).
Proof. done. Qed.

Lemma readonly_get_store : readonly get_store.
Proof. done. Qed.

Lemma readonly_throw_if c e : readonly (throw_if c e).
Proof. unfold throw_if. by destruct c. Qed.

Lemma readonly_check {A} (parsed : option A) : readonly (check parsed).
Proof. unfold check. by destruct parsed. Qed.

Lemma readonly_when c body : readonly body → readonly (when c body).
Proof. intros H. unfold when. by destruct c. Qed.

Lemma readonly_bind {A B} (m : M A) (k : A → M B) :
  readonly m → (∀ a, readonly (k a)) → readonly (m ≫= k).
Proof.
  intros Hm Hk s. unfold mbind, M_bind. specialize (Hm s).
  destruct (m s) as [[a|e] s1]; simpl in *; subst; [apply Hk | done].
Qed.

Lemma total_ret {A} (a : A) : total (mret a).
Proof. intros s. by exists a. Qed.

Lemma total_get_store : total get_store.
Proof. intros s. by exists s. Qed.

Lemma total_insert_log entry : total (insert_log entry).
Proof. intros s. by exists (). Qed.

Lemma total_modify_tasks f : total (modify_tasks f).
Proof. intros s. by exists (). Qed.

Lemma total_modify_projects f : total (modify_projects f).
Proof. intros s. by exists (). Qed.

Lemma total_when c body : total body → total (when c body).
Proof. intros H. unfold when. destruct c; [done | apply total_ret]. Qed.

Lemma total_bind {A B} (m : M A) (k : A → M B) :
  total m → (∀ a, total (k a)) → total (m ≫= k).
Proof.
  intros Hm Hk s. unfold mbind, M_bind. destruct (Hm s) as [a Ha].
  destruct (m s) as [[a'|e] s1]; simpl in *; [apply Hk | done].
Qed.

Lemma atomic_total {A} (m : M A) : total m → atomic m.
Proof. intros H s e He. destruct (H s) as [a Ha]. congruence. Qed.

Lemma atomic_readonly {A} (m : M A) : readonly m → atomic m.
Proof. intros H s e _. apply H. Qed.

Lemma atomic_readonly_bind {A B} (m : M A) (k : A → M B) :
  readonly m → (∀ a, atomic (k a)) → atomic (m ≫= k).
Proof.
  intros Hm Hk s e. unfold mbind, M_bind. specialize (Hm s).
  destruct (m s) as [[a|e'] s1]; simpl in *; subst; [apply Hk | done].
Qed.

Lemma atomic_bind_total {A B} (m : M A) (k : A → M B) :
  atomic m → (∀ a, total (k a)) → atomic (m ≫= k).
Proof.
  intros Hm Hk s e. unfold mbind, M_bind. specialize (Hm s).
  destruct (m s) as [[a|e'] s1]; simpl in *.
  - intros He. destruct (Hk a s1) as [b Hb]. congruence.
  - intros _. by eapply Hm.
Qed.

Ltac readonly_tac :=
  repeat (cbv zeta;
    lazymatch goal with
    | |- readonly (mbind _ _) => apply readonly_bind; [|intros ?]
    | |- readonly (mret _) => apply readonly_ret
    | |- readonly (throw _) => apply readonly_throw
    | |- readonly get_store => apply readonly_get_store
    | |- readonly (throw_if _ _) => apply readonly_throw_if
    | |- readonly (check _) => apply readonly_check
    | |- readonly (when _ _) => apply readonly_when
    | |- readonly (match ?x with _ => _ end) => destruct x
    end).

Ltac total_tac :=
  repeat (cbv zeta;
    lazymatch goal with
    | |- total (mbind _ _) => apply total_bind; [|intros ?]
    | |- total (mret _) => apply total_ret
    | |- total get_store => apply total_get_store
    | |- total (insert_log _) => apply total_insert_log
    | |- total (modify_tasks _) => apply total_modify_tasks
    | |- total (modify_projects _) => apply total_modify_projects
    | |- total (when _ _) => apply total_when
    | |- total (match ?x with _ => _ end) => destruct x
    end).

Ltac atomic_tac :=
  repeat (cbv zeta;
    first
      [ apply atomic_total; solve [total_tac]
      | apply atomic_readonly; solve [readonly_tac]
      | lazymatch goal with
        | |- atomic (mbind _ _) =>
            first [ apply atomic_readonly_bind; [solve [readonly_tac] | intros ?]
                  | apply atomic_bind_total; [|intros ?; solve [total_tac]] ]
        | |- atomic (match ?x with _ => _ end) => destruct x
        end ]).


Lemma atomic_task_call set_undefined this_userId now c s e :
  (run_task_call set_undefined this_userId now c s).1 = Some e →
  (run_task_call set_undefined this_userId now c s).2 = s.
Proof.
  destruct c; cbn [run_task_call lift fst snd].
  all: match goal with
       | |- thrown (?m ?s0).1 = _ → _ =>
           assert (atomic m) as Hatomic
             by (unfold_methods; unfold projects_updateTaskCounters; atomic_tac);
           intros He; apply (Hatomic s0 e);
           destruct (m s0) as [[?|?] ?]; simpl in *; congruence
       end.
Qed.




(* ===================================================================== *)
(** * Creating and updating a project *)
(* ===================================================================== *)

Lemma projects_insert_run this_userId now newId projectData s :
  post (λ x,
    (∃ e, x = (Throw e, s))
    ∨ (∃ data,
         x = (Ok newId,
              mkStore (users s)
                (<[newId :=
                     Project.mk (ProjectData.name data) (ProjectData.description data)
                       (default "" this_userId) (ProjectData.teamMemberIds data)
                       (ProjectData.status data) (ProjectData.tags data)
                       (Project.mkMetadata 0 0 medium) now None]> (projects s))
                (tasks s)
                (activityLogs s ++
                 [ActivityLog.mk (default "" this_userId) Action.create
                    Entity.project newId None now]))
         ∧ check_ProjectData projectData = Some data
         ∧ falsy_id this_userId = false
         ∧ role_of (users s !! default "" this_userId) ≠ None
         ∧ role_of (users s !! default "" this_userId) ≠ Some member
         ∧ (js_length (trim (ProjectData.name data)) <? 3)%nat = false
         ∧ (100 <? js_length (ProjectData.name data))%nat = false
         ∧ members_missing s (ProjectData.teamMemberIds data) = false
         ∧ projects s !! newId = None))
    (projects_insert this_userId now newId projectData s).
Proof.
  unfold projects_insert, members_missing. unfold_m.
  run_all.
  all: try (left; eexists; reflexivity).
  all: right; eexists; split_and!; try reflexivity; try assumption; try done.
  all: intros [= ->];
    match goal with
    | H : bool_decide (_ = member) = false |- _ => by apply bool_decide_eq_false in H
    end.
Qed.

(** X4. A project that [projects.insert] creates is stored under a fresh
    [_id], owned by the caller, with both task counters 0, priority
    [medium] and no [updatedAt]; its name has a [length] of at least 3 once
    trimmed and of at most 100; its team list has no repetition and names only
    existing users; and one [create] entry is appended to the log. *)
Theorem projects_insert_creates this_userId now newId projectData s projectId s' :
  projects_insert this_userId now newId projectData s = (Ok projectId, s') →
  ∃ p, projectId = newId
       ∧ projects s !! newId = None
       ∧ projects s' = <[newId := p]> (projects s)
       ∧ this_userId = Some (Project.ownerId p)
       ∧ Project.metadata p = Project.mkMetadata 0 0 medium
       ∧ Project.createdAt p = now
       ∧ Project.updatedAt p = None
       ∧ (3 ≤ js_length (trim (Project.name p)))%nat
       ∧ (js_length (Project.name p) ≤ 100)%nat
       ∧ NoDup (Project.teamMemberIds p)
       ∧ (∀ id, id ∈ Project.teamMemberIds p → is_Some (users s !! id))
       ∧ activityLogs s' =
           (activityLogs s ++
            [ActivityLog.mk (Project.ownerId p) Action.create Entity.project
               newId None now])%list.
Proof.
  intros Hrun.
  pose proof (projects_insert_run this_userId now newId projectData s) as Hpost.
  unfold post in Hpost. rewrite Hrun in Hpost.
  destruct Hpost as [[e [=]] | (data & [= -> ->] & _ & Hid & _ & _ & Hshort & Hlong
                                 & Hteam & Hfresh)].
  apply members_missing_false in Hteam as [Hnodup Hexist].
  apply Nat.ltb_ge in Hshort, Hlong.
  eexists. split_and!; try reflexivity; try done.
  simpl. by apply falsy_id_false in Hid as (uid & -> & _ & _).
Qed.

Lemma projects_insert_creates_witness :
  ∃ p, "p2" = "p2"
       ∧ projects Sample.empty_store !! "p2" = None
       ∧ projects Sample2.two_projects = <["p2" := p]> (projects Sample.empty_store)
       ∧ Some "max" = Some (Project.ownerId p)
       ∧ Project.metadata p = Project.mkMetadata 0 0 medium
       ∧ Project.createdAt p = 40
       ∧ Project.updatedAt p = None
       ∧ (3 ≤ js_length (trim (Project.name p)))%nat
       ∧ (js_length (Project.name p) ≤ 100)%nat
       ∧ NoDup (Project.teamMemberIds p)
       ∧ (∀ id, id ∈ Project.teamMemberIds p
                → is_Some (users Sample.empty_store !! id))
       ∧ activityLogs Sample2.two_projects =
           (activityLogs Sample.empty_store ++
            [ActivityLog.mk (Project.ownerId p) Action.create Entity.project
               "p2" None 40])%list.
Proof.
  apply (projects_insert_creates (Some "max") 40 "p2" Sample.new_project
           Sample.empty_store "p2" Sample2.two_projects).
  vm_compute. reflexivity.
Defined.

(** A team list with a repeated id, or with an id that names no user, is
    turned down by [projects.insert]. *)
Example projects_insert_repeated_member_rejected :
  projects_insert (Some "max") 40 "p2"
    (VObj [("name", VStr "Mobile app"); ("description", VStr "");
           ("teamMemberIds", VArr [VStr "mia"; VStr "mia"]);
           ("status", VStr "active"); ("tags", VArr [])]) Sample.empty_store
  = (Throw validation_error, Sample.empty_store).
Proof. reflexivity. Qed.

Lemma projects_update_run this_userId now projectId updates s :
  post (λ x,
    (∃ e, x = (Throw e, s))
    ∨ (∃ u p,
         x = (Ok (),
              mkStore (users s)
                (alter (apply_ProjectUpdates u now) projectId (projects s))
                (tasks s)
                (activityLogs s ++
                 [ActivityLog.mk (default "" this_userId) Action.update
                    Entity.project projectId (Some updates) now]))
         ∧ check_ProjectUpdates updates = Some u
         ∧ projects s !! projectId = Some p
         ∧ canModifyProject s this_userId p = true
         ∧ too_short (ProjectUpdates.name u) = false
         ∧ longer_than 100 (ProjectUpdates.name u) = false
         ∧ (∀ ids, ProjectUpdates.teamMemberIds u = Some ids →
                   members_missing s ids = false)))
    (projects_update this_userId now projectId updates s).
Proof.
  unfold projects_update. unfold_m.
  run_all.
  all: try (left; eexists; reflexivity).
  all: right; eexists _, _; split_and!; try reflexivity; try assumption.
  all: try (by apply negb_false_iff).
  all: intros ids ?; by simplify_eq.
Qed.

(** X5. A [projects.update] that returns was made by an admin or the
    owner; it leaves the owner, the creation time and the two task counters
    of the project as they were, stores [updatedAt], and stores a team list
    only if it has no repetition and names only existing users. *)
Theorem projects_update_keeps this_userId now projectId updates s s' :
  projects_update this_userId now projectId updates s = (Ok (), s') →
  ∃ p p', projects s !! projectId = Some p
          ∧ projects s' = <[projectId := p']> (projects s)
          ∧ canModifyProject s this_userId p = true
          ∧ Project.ownerId p' = Project.ownerId p
          ∧ Project.createdAt p' = Project.createdAt p
          ∧ Project.totalTasks (Project.metadata p')
            = Project.totalTasks (Project.metadata p)
          ∧ Project.completedTasks (Project.metadata p')
            = Project.completedTasks (Project.metadata p)
          ∧ Project.updatedAt p' = Some now
          ∧ (Project.teamMemberIds p' = Project.teamMemberIds p
             ∨ NoDup (Project.teamMemberIds p')
               ∧ ∀ id, id ∈ Project.teamMemberIds p' → is_Some (users s !! id)).
Proof.
  intros Hrun.
  pose proof (projects_update_run this_userId now projectId updates s) as Hpost.
  unfold post in Hpost. rewrite Hrun in Hpost.
  destruct Hpost as [[e [=]] | (u & p & [= ->] & _ & Hp & Hcan & _ & _ & Hteam)].
  exists p, (apply_ProjectUpdates u now p).
  split_and!; try done.
  - simpl. apply map_eq. intros i. rewrite lookup_alter, lookup_insert.
    case_decide; [subst; by rewrite Hp | done].
  - simpl. destruct (ProjectUpdates.teamMemberIds u) as [ids|]; [right | by left].
    simpl. by apply members_missing_false, Hteam.
Qed.

Lemma projects_update_keeps_witness :
  ∃ p p', projects Sample.one_task !! "p1" = Some p
          ∧ projects Sample2.renamed = <["p1" := p']> (projects Sample.one_task)
          ∧ canModifyProject Sample.one_task (Some "max") p = true
          ∧ Project.ownerId p' = Project.ownerId p
          ∧ Project.createdAt p' = Project.createdAt p
          ∧ Project.totalTasks (Project.metadata p')
            = Project.totalTasks (Project.metadata p)
          ∧ Project.completedTasks (Project.metadata p')
            = Project.completedTasks (Project.metadata p)
          ∧ Project.updatedAt p' = Some 80
          ∧ (Project.teamMemberIds p' = Project.teamMemberIds p
             ∨ NoDup (Project.teamMemberIds p')
               ∧ ∀ id, id ∈ Project.teamMemberIds p'
                       → is_Some (users Sample.one_task !! id)).
Proof.
  apply (projects_update_keeps (Some "max") 80 "p1" Sample2.rename
           Sample.one_task Sample2.renamed).
  vm_compute. reflexivity.
Defined.


Lemma canModifyProject_true s uid p :
  canModifyProject s (Some uid) p = true
  ↔ uid ≠ "" ∧ ∃ user, users s !! uid = Some user
                       ∧ (role_of (Some user) = Some admin ∨ Project.ownerId p = uid).
Proof.
  unfold canModifyProject, falsy_id.
  destruct (String.eqb uid "") eqn:Hid.
  { apply String.eqb_eq in Hid. split; [done | by intros [? _]]. }
  apply String.eqb_neq in Hid.
  destruct (users s !! uid) as [user|]; [|split; [done | by intros [_ (? & ? & _)]]].
  destruct (is_admin (Some user)) eqn:Hadm.
  { apply is_admin_true in Hadm. split; [|done]. intros _. split; [done|]. eauto. }
  apply is_admin_false in Hadm.
  case_bool_decide as Hown.
  - split; [|done]. intros _. split; [done|]. eauto.
  - split; [done|]. intros [_ (user' & [= <-] & [?|?])]; done.
Qed.

Lemma check_ProjectUpdates_status st :
  check_ProjectUpdates (VObj [("status", VStr (ProjectStatus_string st))])
  = Some (ProjectUpdates.mk None None (Some st) None None None).
Proof. by destruct st. Qed.

(** X6. Archiving can be undone: after a soft [projects.remove], the same
    caller's [projects.update] of [status] to the former status returns,
    and the project is then what it was but for [updatedAt]; the tasks were
    never touched. *)
Theorem projects_archive_restore uid now now' projectId s p user :
  uid ≠ "" → users s !! uid = Some user →
  projects s !! projectId = Some p →
  Project.ownerId p = uid ∨ role_of (Some user) = Some admin →
  let s1 := (projects_remove (Some uid) now projectId false s).2 in
  let s2 := (projects_update (Some uid) now' projectId
               (VObj [("status", VStr (ProjectStatus_string (Project.status p)))])
               s1) in
  Project.status <$> projects s1 !! projectId = Some archived
  ∧ s2.1 = Ok ()
  ∧ projects s2.2 = <[projectId := touched now' p]> (projects s)
  ∧ tasks s2.2 = tasks s.
Proof.
  intros Hne Hu Hp Hwho s1 s2. subst s1 s2.
  pose proof (canModifyProject_owner_or_admin s uid p user Hne Hu Hwho) as Hcan.
  rewrite projects_remove_run, (falsy_id_Some _ Hne), Hp, Hcan. cbn [negb snd].
  split; [cbn; by rewrite lookup_alter_eq, Hp|].
  set (s1 := mkStore _ _ _ _).
  assert (canModifyProject s1 (Some uid) (archive now p) = true) as Hcan1.
  { by rewrite (canModifyProject_ext s1 s _ _ p). }
  assert (projects s1 !! projectId = Some (archive now p)) as Hp1.
  { subst s1. cbn. by rewrite lookup_alter_eq, Hp. }
  unfold projects_update. unfold_m.
  rewrite check_ProjectUpdates_status, (falsy_id_Some _ Hne).
  cbn [fst snd]. rewrite Hp1, Hcan1.
  cbn [negb too_short longer_than ProjectUpdates.name ProjectUpdates.teamMemberIds
       fst snd].
  split_and!; [reflexivity | | reflexivity].
  subst s1. cbn [projects snd]. apply map_eq. intros i.
  destruct (decide (i = projectId)) as [-> | Hi].
  - rewrite !lookup_alter_eq, lookup_insert_eq, Hp. clear.
    destruct p as [? ? ? ? ? ? [] ? ?]. reflexivity.
  - by rewrite !lookup_alter_ne, lookup_insert_ne.
Qed.

Lemma projects_archive_restore_witness :
  Project.status <$> projects Sample2.archived_p1 !! "p1" = Some archived
  ∧ (projects_update (Some "max") 61 "p1" (VObj [("status", VStr "active")])
       Sample2.archived_p1).1 = Ok ()
  ∧ projects (projects_update (Some "max") 61 "p1"
                (VObj [("status", VStr "active")]) Sample2.archived_p1).2
    = <["p1" := touched 61 (set_counters 1 0 10 Sample.p1)]>
        (projects Sample.one_task)
  ∧ tasks (projects_update (Some "max") 61 "p1"
             (VObj [("status", VStr "active")]) Sample2.archived_p1).2
    = tasks Sample.one_task.
Proof.
  apply (projects_archive_restore "max" 60 61 "p1" Sample.one_task
           (set_counters 1 0 10 Sample.p1) Sample.max);
    [done | reflexivity | reflexivity | by left].
Defined.

(* ===================================================================== *)
(** * Removing a team member *)
(* ===================================================================== *)

Lemma projects_removeTeamMember_run this_userId now projectId userIdToRemove s :
  projects_removeTeamMember this_userId now projectId userIdToRemove s =
    if falsy_id this_userId then (Throw not_authorized, s) else
    match projects s !! projectId with
    | None => (Throw not_found, s)
    | Some p =>
        if negb (canModifyProject s this_userId p) then (Throw not_authorized, s)
        else if bool_decide (Project.ownerId p = userIdToRemove)
        then (Throw validation_error, s)
        else (Ok (),
              mkStore (users s)
                (alter (remove_member userIdToRemove now) projectId (projects s))
                (tasks s)
                (activityLogs s ++
                 [ActivityLog.mk (default "" this_userId) Action.update
                    Entity.project projectId
                    (Some (VObj [("action", VStr "removed team member");
                                 ("userId", VStr userIdToRemove)])) now]))
    end.
Proof.
  unfold projects_removeTeamMember. unfold_m.
  destruct (falsy_id this_userId); [done|]. simpl.
  destruct (projects s !! projectId) as [p|]; [|done].
  destruct (negb (canModifyProject s this_userId p)); [done|]. simpl.
  by destruct (bool_decide _).
Qed.

Lemma elem_of_pull x y xs : y ∈ pull x xs ↔ y ∈ xs ∧ y ≠ x.
Proof.
  unfold pull. rewrite list_elem_of_In, filter_In, <- list_elem_of_In.
  by rewrite negb_true_iff, bool_decide_eq_false.
Qed.

Lemma pull_not_elem x xs : x ∉ xs → pull x xs = xs.
Proof.
  unfold pull. induction xs as [|y xs IH]; simpl; [done|].
  intros Hnin. apply not_elem_of_cons in Hnin as [Hne Hnin].
  rewrite bool_decide_eq_false_2 by done. simpl. by rewrite IH.
Qed.

Lemma pull_app_singleton x xs : x ∉ xs → pull x (xs ++ [x]) = xs.
Proof.
  intros Hnin. unfold pull. rewrite List.filter_app. simpl.
  rewrite bool_decide_eq_true_2 by done. simpl.
  rewrite app_nil_r. by apply pull_not_elem.
Qed.

(** X7. For a caller who may modify the project: removing the owner throws
    a validation-error and writes nothing; removing anyone else returns,
    whether or not that user was on the team, and the team list is then
    the former one without that user, the others in their order. *)
Theorem projects_removeTeamMember_result
    this_userId now projectId userIdToRemove s p :
  projects s !! projectId = Some p →
  canModifyProject s this_userId p = true →
  let r := projects_removeTeamMember this_userId now projectId userIdToRemove s in
  (Project.ownerId p = userIdToRemove → r = (Throw validation_error, s))
  ∧ (Project.ownerId p ≠ userIdToRemove →
       r.1 = Ok ()
       ∧ ∃ p', projects r.2 !! projectId = Some p'
               ∧ Project.teamMemberIds p' = pull userIdToRemove (Project.teamMemberIds p)
               ∧ (∀ id, id ∈ Project.teamMemberIds p'
                        ↔ id ∈ Project.teamMemberIds p ∧ id ≠ userIdToRemove)
               ∧ (userIdToRemove ∉ Project.teamMemberIds p →
                  Project.teamMemberIds p' = Project.teamMemberIds p)
               ∧ Project.ownerId p' = Project.ownerId p).
Proof.
  intros Hp Hcan r. subst r.
  assert (falsy_id this_userId = false) as Hid.
  { unfold canModifyProject in Hcan. destruct this_userId; [|done].
    by destruct (falsy_id (Some s0)). }
  rewrite projects_removeTeamMember_run, Hid, Hp, Hcan. cbn [negb].
  split.
  - intros Hown. by rewrite bool_decide_eq_true_2.
  - intros Hown. rewrite bool_decide_eq_false_2 by done.
    split; [done|]. exists (remove_member userIdToRemove now p).
    split_and!.
    + cbn. by rewrite lookup_alter_eq, Hp.
    + done.
    + intros id. apply elem_of_pull.
    + apply pull_not_elem.
    + done.
Qed.

Lemma projects_removeTeamMember_result_witness :
  projects_removeTeamMember (Some "max") 90 "p1" "max" Sample.one_task
    = (Throw validation_error, Sample.one_task)
  ∧ (projects_removeTeamMember (Some "max") 90 "p1" "mia" Sample.one_task).1
    = Ok ().
Proof.
  destruct (projects_removeTeamMember_result (Some "max") 90 "p1" "max"
              Sample.one_task (set_counters 1 0 10 Sample.p1)) as [Howner _];
    [reflexivity | reflexivity |].
  destruct (projects_removeTeamMember_result (Some "max") 90 "p1" "mia"
              Sample.one_task (set_counters 1 0 10 Sample.p1)) as [_ Hother];
    [reflexivity | reflexivity |].
  split; [by apply Howner | by apply Hother].
Defined.

(** X8. Adding a user and removing them again gives back the team list:
    after a [projects.addTeamMember] that returned, the same caller's
    [projects.removeTeamMember] of that user returns unless the user is the
    owner, and the team list is the one before the add. *)
Theorem projects_add_then_remove_member
    this_userId now now' projectId userId s s1 p :
  projects s !! projectId = Some p →
  projects_addTeamMember this_userId now projectId userId s = (Ok (), s1) →
  Project.ownerId p ≠ userId →
  let r := projects_removeTeamMember this_userId now' projectId userId s1 in
  r.1 = Ok ()
  ∧ Project.teamMemberIds <$> projects r.2 !! projectId
    = Some (Project.teamMemberIds p).
Proof.
  intros Hp Hadd Hown r. subst r.
  rewrite projects_addTeamMember_run, Hp in Hadd.
  destruct (falsy_id this_userId) eqn:Hid; [done|].
  destruct (negb (canModifyProject s this_userId p)) eqn:Hcan; [done|].
  destruct (bool_decide (users s !! userId = None)); [done|].
  destruct (includes (Project.teamMemberIds p) userId) eqn:Hin; [done|].
  injection Hadd as <-.
  apply bool_decide_eq_false in Hin.
  rewrite projects_removeTeamMember_run, Hid. cbn [projects].
  rewrite lookup_alter_eq, Hp. cbn [fmap option_fmap option_map].
  rewrite (canModifyProject_ext _ s _ _ p) by done. rewrite Hcan.
  cbn [add_member Project.ownerId]. rewrite bool_decide_eq_false_2 by done.
  split; [done|]. cbn [snd projects].
  rewrite lookup_alter_eq, lookup_alter_eq, Hp.
  cbn [fmap option_fmap option_map remove_member add_member Project.teamMemberIds].
  unfold addToSet. rewrite bool_decide_eq_false_2 by done.
  by rewrite pull_app_singleton.
Qed.

Lemma projects_add_then_remove_member_witness :
  (projects_removeTeamMember (Some "max") 51 "p1" "moe" Sample2.with_moe).1 = Ok ()
  ∧ Project.teamMemberIds
      <$> projects (projects_removeTeamMember (Some "max") 51 "p1" "moe"
                      Sample2.with_moe).2 !! "p1"
    = Some ["mia"].
Proof.
  apply (projects_add_then_remove_member (Some "max") 50 51 "p1" "moe"
           Sample.one_task Sample2.with_moe (set_counters 1 0 10 Sample.p1));
    [reflexivity | by vm_compute | done].
Defined.

(* ===================================================================== *)
(** * Recounting *)
(* ===================================================================== *)

Lemma done_in_le_total_in projectId s : (done_in projectId s ≤ total_in projectId s)%nat.
Proof.
  unfold done_in, total_in, count_docs.
  induction (map_to_list (tasks s)) as [|[k t] l IH]; simpl; [done|].
  destruct (bool_decide (Task.projectId t = projectId)); simpl; [|done].
  destruct (bool_decide (Task.status t = done)); simpl; lia.
Qed.

(** X9. [projects.updateTaskCounters] always returns, whoever calls; it
    leaves the tasks alone and the store too when there is no such project;
    afterwards the counters of the project are exact, with
    [completedTasks] at most [totalTasks]; and a second call at the same
    time changes nothing more. *)
Theorem projects_updateTaskCounters_recount now projectId s :
  let r := projects_updateTaskCounters now projectId s in
  r.1 = Ok ()
  ∧ tasks r.2 = tasks s
  ∧ counters_exact projectId r.2
  ∧ (∀ p, projects r.2 !! projectId = Some p →
          (Project.completedTasks (Project.metadata p)
           ≤ Project.totalTasks (Project.metadata p))%nat)
  ∧ (projects s !! projectId = None → r.2 = s)
  ∧ projects_updateTaskCounters now projectId r.2 = r.
Proof.
  intros r. subst r. unfold projects_updateTaskCounters. unfold_m. cbn [fst snd].
  split_and!; try done.
  - intros p. cbn. rewrite lookup_alter_eq.
    destruct (projects s !! projectId); simpl; [by intros [= <-] | done].
  - intros p. cbn. rewrite lookup_alter_eq.
    destruct (projects s !! projectId); simpl; [|done].
    intros [= <-]. cbn. apply done_in_le_total_in.
  - intros Hnone. destruct s as [us ps ts ls]. cbn in *. f_equal.
    apply map_eq. intros i. rewrite lookup_alter.
    case_decide; [subst; by rewrite Hnone | done].
  - cbn. f_equal. f_equal. apply map_eq. intros i.
    destruct (decide (i = projectId)) as [-> | Hi].
    + rewrite !lookup_alter_eq. destruct (projects s !! projectId); reflexivity.
    + by rewrite lookup_alter_ne.
Qed.


(* ===================================================================== *)
(** * Creating a task: what was checked *)
(* ===================================================================== *)

Lemma canViewProjectTasks_true s uid projectId :
  canViewProjectTasks s (Some uid) projectId = true
  ↔ uid ≠ ""
    ∧ ∃ user, users s !! uid = Some user
              ∧ (role_of (Some user) = Some admin
                 ∨ ∃ p, projects s !! projectId = Some p
                        ∧ (Project.ownerId p = uid ∨ uid ∈ Project.teamMemberIds p)).
Proof.
  unfold canViewProjectTasks, falsy_id.
  destruct (String.eqb uid "") eqn:Hid.
  { apply String.eqb_eq in Hid. split; [done | by intros [? _]]. }
  apply String.eqb_neq in Hid.
  destruct (users s !! uid) as [user|]; [|split; [done | by intros [_ (? & ? & _)]]].
  destruct (is_admin (Some user)) eqn:Hadm.
  { apply is_admin_true in Hadm. split; [|done]. intros _. split; [done|]. eauto. }
  apply is_admin_false in Hadm.
  destruct (projects s !! projectId) as [p|].
  2:{ split; [done|]. intros [_ (user' & [= <-] & [? | (p & ? & _)])]; done. }
  unfold includes. case_bool_decide as Hown.
  { split; [|done]. intros _. split; [done|]. eauto 8. }
  case_bool_decide as Hmem.
  { split; [|done]. intros _. split; [done|]. eauto 8. }
  split; [done|].
  intros [_ (user' & [= <-] & [? | (p' & [= <-] & [?|?])])]; done.
Qed.

Lemma tasks_insert_checked this_userId now newId taskData s :
  post (λ x,
    (∃ e, x.1 = Throw e)
    ∨ (∃ data project,
         check_TaskData taskData = Some data
         ∧ projects s !! TaskData.projectId data = Some project
         ∧ canViewProjectTasks s this_userId (TaskData.projectId data) = true
         ∧ (js_length (trim (TaskData.title data)) <? 3)%nat = false
         ∧ (200 <? js_length (TaskData.title data))%nat = false
         ∧ (2000 <? js_length (TaskData.description data))%nat = false
         ∧ (truthy_id (TaskData.assignedToId data) = true →
            users s !! default "" (TaskData.assignedToId data) ≠ None
            ∧ isOnTeam project (default "" (TaskData.assignedToId data)) = true)
         ∧ (∀ h, TaskData.estimatedHours data = Some h → Num.leb h Num.zero = false)
         ∧ tasks x.2 !! newId
           = Some (new_task data (default "" this_userId) now)
         ∧ activityLogs x.2 =
             (activityLogs s
              ++ ActivityLog.mk (default "" this_userId) Action.create Entity.task
                   newId None now
              :: if truthy_id (TaskData.assignedToId data)
                 then [ActivityLog.mk (default "" this_userId) Action.assign
                         Entity.task newId
                         (Some (VObj [("assignedTo",
                                       VStr (default ""
                                               (TaskData.assignedToId data)))]))
                         now]
                 else [])%list))
    (tasks_insert this_userId now newId taskData s).
Proof.
  unfold tasks_insert, projects_updateTaskCounters. unfold_m.
  run_all.
  all: try (left; eexists; reflexivity).
  all: right; eexists _, _; split_and!; try reflexivity; try assumption.
  all: try (by apply negb_false_iff).
  all: try (intros ? ?; by simplify_eq).
  all: try (intros _; split; [|by apply negb_false_iff];
            match goal with
            | H : bool_decide (_ = None) = false |- _ =>
                by apply bool_decide_eq_false in H
            end).
  all: try (intros ?; congruence).
  all: cbn; try apply lookup_insert_eq.
  all: try (match goal with H : truthy_id _ = _ |- _ => rewrite H end;
            by rewrite <- ?app_assoc).
  all: eassumption.
Qed.

(** X10. A task that [tasks.insert] creates went through every check: its
    project exists and the caller may see it; the title has a [length] of
    at least 3 once trimmed ([trim] and [length] as JavaScript has them) and
    of at most 200, the description of at most 2000;
    an assignee, when one is named, is an existing user who owns the
    project or is on its team; estimated hours, when given, are not [<= 0];
    and the log gains a [create] entry, followed by an [assign] entry
    exactly when an assignee is named. *)
Theorem tasks_insert_validated this_userId now newId taskData s taskId s' :
  tasks_insert this_userId now newId taskData s = (Ok taskId, s') →
  ∃ data project t,
    check_TaskData taskData = Some data
    ∧ tasks s' !! taskId = Some t
    ∧ projects s !! Task.projectId t = Some project
    ∧ canViewProjectTasks s this_userId (Task.projectId t) = true
    ∧ (3 ≤ js_length (trim (Task.title t)))%nat
    ∧ (js_length (Task.title t) ≤ 200)%nat
    ∧ (js_length (Task.description t) ≤ 2000)%nat
    ∧ (∀ a, Task.assignedToId t = Some (Some a) → a ≠ "" →
            is_Some (users s !! a)
            ∧ (Project.ownerId project = a ∨ a ∈ Project.teamMemberIds project))
    ∧ (∀ h, Task.estimatedHours t = Some h → Num.leb h Num.zero = false)
    ∧ ∃ created assigned,
        ActivityLog.action created = Action.create
        ∧ ActivityLog.action assigned = Action.assign
        ∧ ActivityLog.entityId created = taskId
        ∧ ActivityLog.entityId assigned = taskId
        ∧ activityLogs s' =
            (activityLogs s
             ++ created :: if truthy_id (TaskData.assignedToId data)
                           then [assigned] else [])%list.
Proof.
  intros Hrun.
  pose proof (tasks_insert_run this_userId now newId taskData s) as Hid.
  pose proof (tasks_insert_checked this_userId now newId taskData s) as Hpost.
  unfold post in Hid, Hpost. rewrite Hrun in Hid, Hpost. cbn [fst snd] in *.
  destruct Hid as [[e [=]] | (_ & [= <-] & _)].
  destruct Hpost as [[e [=]] | (data & project & Hcheck & Hp & Hview & Hshort & Hlong
                                 & Hdesc & Hassignee & Hhours & Ht & Hlog)].
  apply Nat.ltb_ge in Hshort, Hlong, Hdesc.
  exists data, project, (new_task data (default "" this_userId) now).
  split_and!; try done.
  - intros a Ha Hne. cbn in Ha.
    destruct (TaskData.assignedToId data) as [a'|] eqn:Hdata; [|done].
    cbn in Ha. injection Ha as ->.
    destruct Hassignee as [Hexists Hteam].
    { unfold truthy_id, falsy_id. apply negb_true_iff. by apply String.eqb_neq. }
    cbn in Hexists, Hteam. split.
    + by destruct (users s !! a).
    + unfold isOnTeam, includes in Hteam. apply orb_true_iff in Hteam.
      destruct Hteam as [H|H]; apply bool_decide_eq_true in H; auto.
  - eexists _, _. split_and!; [| | | | exact Hlog]; reflexivity.
Qed.

Lemma tasks_insert_validated_witness :
  ∃ data project t,
    check_TaskData Sample.task_for_mia = Some data
    ∧ tasks Sample.one_task !! "t1" = Some t
    ∧ projects Sample.empty_store !! Task.projectId t = Some project
    ∧ canViewProjectTasks Sample.empty_store (Some "max") (Task.projectId t) = true
    ∧ (3 ≤ js_length (trim (Task.title t)))%nat
    ∧ (js_length (Task.title t) ≤ 200)%nat
    ∧ (js_length (Task.description t) ≤ 2000)%nat
    ∧ (∀ a, Task.assignedToId t = Some (Some a) → a ≠ "" →
            is_Some (users Sample.empty_store !! a)
            ∧ (Project.ownerId project = a ∨ a ∈ Project.teamMemberIds project))
    ∧ (∀ h, Task.estimatedHours t = Some h → Num.leb h Num.zero = false)
    ∧ ∃ created assigned,
        ActivityLog.action created = Action.create
        ∧ ActivityLog.action assigned = Action.assign
        ∧ ActivityLog.entityId created = "t1"
        ∧ ActivityLog.entityId assigned = "t1"
        ∧ activityLogs Sample.one_task =
            (activityLogs Sample.empty_store
             ++ created :: if truthy_id (TaskData.assignedToId data)
                           then [assigned] else [])%list.
Proof.
  apply (tasks_insert_validated (Some "max") 10 "t1" Sample.task_for_mia
           Sample.empty_store "t1" Sample.one_task).
  reflexivity.
Defined.

(** An empty string as [assignedToId] is falsy: it is stored without the
    checks on the assignee, and no [assign] entry is logged. *)
Example tasks_insert_empty_assignee :
  let r := tasks_insert (Some "max") 10 "t9"
             (VObj [("projectId", VStr "p1"); ("title", VStr "Landing page");
                    ("description", VStr ""); ("assignedToId", VStr "");
                    ("priority", VStr "high"); ("tags", VArr [])])
             Sample.empty_store in
  r.1 = Ok "t9"
  ∧ Task.assignedToId <$> tasks r.2 !! "t9" = Some (Some (Some ""))
  ∧ length (activityLogs r.2) = 1%nat.
Proof. cbv zeta. split_and!; reflexivity. Qed.

Lemma tasks_insert_not_authorized_cause this_userId now newId taskData s :
  post (λ x,
    x.1 = Throw not_authorized →
    falsy_id this_userId = true
    ∨ ∃ data, check_TaskData taskData = Some data
              ∧ canViewProjectTasks s this_userId (TaskData.projectId data) = false)
    (tasks_insert this_userId now newId taskData s).
Proof.
  unfold tasks_insert, projects_updateTaskCounters. unfold_m.
  run_all.
  all: cbn [fst]; intros Hthrown; try discriminate Hthrown.
  all: first [ by left
             | right; eexists; split; [reflexivity | by apply negb_true_iff] ].
Qed.

(** X11. Into an existing project, with an argument that passes [check]
    and the tests on title and description ([trim] and [length] as
    JavaScript has them), [tasks.insert] by a caller who has a user
    document throws not-authorized exactly when the caller is not an admin,
    does not own the project and is not on its team. *)
Theorem tasks_insert_not_authorized_iff uid now newId taskData s data p user :
  uid ≠ "" → users s !! uid = Some user →
  check_TaskData taskData = Some data →
  (3 ≤ js_length (trim (TaskData.title data)))%nat →
  (js_length (TaskData.title data) ≤ 200)%nat →
  (js_length (TaskData.description data) ≤ 2000)%nat →
  projects s !! TaskData.projectId data = Some p →
  (tasks_insert (Some uid) now newId taskData s).1 = Throw not_authorized
  ↔ role_of (Some user) ≠ Some admin
    ∧ Project.ownerId p ≠ uid
    ∧ uid ∉ Project.teamMemberIds p.
Proof.
  intros Hne Hu Hcheck Hshort Hlong Hdesc Hp.
  assert (canViewProjectTasks s (Some uid) (TaskData.projectId data) = false
          ↔ role_of (Some user) ≠ Some admin
            ∧ Project.ownerId p ≠ uid ∧ uid ∉ Project.teamMemberIds p) as Hview.
  { rewrite <- not_true_iff_false, canViewProjectTasks_true. split.
    - intros Hno. split_and!.
      + intros Hadm. apply Hno. split; [done|]. eauto.
      + intros Hown. apply Hno. split; [done|]. eauto 8.
      + intros Hmem. apply Hno. split; [done|]. eauto 8.
    - intros (Hadm & Hown & Hmem) [_ (user' & Hu' & Hyes)].
      rewrite Hu in Hu'. injection Hu' as <-.
      destruct Hyes as [? | (p' & Hp' & [?|?])]; [done | |];
        rewrite Hp in Hp'; injection Hp' as <-; done. }
  rewrite <- Hview. split.
  - intros Hthrown.
    pose proof (tasks_insert_not_authorized_cause (Some uid) now newId taskData s)
      as Hcause.
    destruct (Hcause Hthrown) as [Hfalsy | (data' & Hcheck' & Hno)].
    + by rewrite (falsy_id_Some _ Hne) in Hfalsy.
    + rewrite Hcheck in Hcheck'. by injection Hcheck' as <-.
  - intros Hno. unfold tasks_insert. unfold_m.
    rewrite (falsy_id_Some _ Hne), Hcheck. cbn [fst snd].
    apply Nat.ltb_ge in Hshort, Hlong, Hdesc.
    rewrite Hshort, Hlong, Hdesc, Hp, Hno. reflexivity.
Qed.

Lemma tasks_insert_not_authorized_iff_witness :
  (tasks_insert (Some "moe") 10 "t1" Sample.task_for_mia Sample.empty_store).1
  = Throw not_authorized.
Proof.
  apply (tasks_insert_not_authorized_iff "moe" 10 "t1" Sample.task_for_mia
           Sample.empty_store
           (TaskData.mk "p1" "Landing page" "" (Some "mia") high None None [])
           Sample.p1 Sample.moe);
    [done | reflexivity | reflexivity | vm_compute; lia | vm_compute; lia
     | vm_compute; lia | reflexivity |].
  split_and!; [done | done |].
  intros Hin. apply list_elem_of_singleton in Hin. done.
Defined.


(* ===================================================================== *)
(** * Updating a task: who is turned away *)
(* ===================================================================== *)

Lemma canModifyTask_true s uid t :
  canModifyTask s (Some uid) t = true
  ↔ uid ≠ ""
    ∧ ∃ user, users s !! uid = Some user
              ∧ (role_of (Some user) = Some admin
                 ∨ Task.createdBy t = uid
                 ∨ Project.ownerId <$> projects s !! Task.projectId t = Some uid
                 ∨ Task.assignedToId t = Some (Some uid)).
Proof.
  unfold canModifyTask, falsy_id, assigned_to.
  destruct (String.eqb uid "") eqn:Hid.
  { apply String.eqb_eq in Hid. split; [done | by intros [? _]]. }
  apply String.eqb_neq in Hid.
  destruct (users s !! uid) as [user|]; [|split; [done | by intros [_ (? & ? & _)]]].
  destruct (is_admin (Some user)) eqn:Hadm.
  { apply is_admin_true in Hadm. split; [|done]. intros _. split; [done|]. eauto. }
  apply is_admin_false in Hadm.
  case_bool_decide as Hcr.
  { split; [|done]. intros _. split; [done|]. eauto 8. }
  case_bool_decide as Hown.
  { split; [|done]. intros _. split; [done|]. eauto 8. }
  case_bool_decide as Hass.
  { split; [|done]. intros _. split; [done|]. eauto 8. }
  split; [done|]. intros [_ (user' & [= <-] & [?|[?|[?|?]]])]; done.
Qed.

Lemma tasks_update_not_authorized_cause this_userId now taskId updates s :
  post (λ x,
    x.1 = Throw not_authorized →
    falsy_id this_userId = true
    ∨ ∃ t, tasks s !! taskId = Some t
           ∧ canModifyTask s this_userId t = false)
    (tasks_update this_userId now taskId updates s).
Proof.
  unfold tasks_update, projects_updateTaskCounters. unfold_m.
  run_all.
  all: cbn [fst]; intros Hthrown; try discriminate Hthrown.
  all: first
         [ by left
         | right; eexists; split; [reflexivity|];
           match goal with
           | H : negb (canModifyTask _ _ _) && _ = true |- _ =>
               apply andb_true_iff in H as [H _]; by apply negb_true_iff in H
           | H : _ && negb (canModifyTask _ _ _) = true |- _ =>
               apply andb_true_iff in H as [_ H]; by apply negb_true_iff in H
           end ].
Qed.

(** X12. For a caller who has a user document, an existing task and an
    [updates] object that passes [check], [tasks.update] throws
    not-authorized exactly when the caller is not an admin, did not create
    the task, does not own its project and is not its assignee; no choice
    of fields makes a difference. *)
Theorem tasks_update_not_authorized_iff uid now taskId updates s t u user :
  uid ≠ "" → users s !! uid = Some user →
  tasks s !! taskId = Some t →
  check_TaskUpdates updates = Some u →
  (tasks_update (Some uid) now taskId updates s).1 = Throw not_authorized
  ↔ role_of (Some user) ≠ Some admin
    ∧ Task.createdBy t ≠ uid
    ∧ Project.ownerId <$> projects s !! Task.projectId t ≠ Some uid
    ∧ Task.assignedToId t ≠ Some (Some uid).
Proof.
  intros Hne Hu Ht Hcheck.
  assert (canModifyTask s (Some uid) t = false
          ↔ role_of (Some user) ≠ Some admin
            ∧ Task.createdBy t ≠ uid
            ∧ Project.ownerId <$> projects s !! Task.projectId t ≠ Some uid
            ∧ Task.assignedToId t ≠ Some (Some uid)) as Hcan.
  { rewrite <- not_true_iff_false, canModifyTask_true. split.
    - intros Hno. split_and!; intros Hyes; apply Hno; (split; [done|]); eauto 8.
    - intros (Hadm & Hcr & Hown & Hass) [_ (user' & Hu' & Hyes)].
      rewrite Hu in Hu'. injection Hu' as <-.
      destruct Hyes as [?|[?|[?|?]]]; done. }
  rewrite <- Hcan. split.
  - intros Hthrown.
    pose proof (tasks_update_not_authorized_cause (Some uid) now taskId updates s)
      as Hcause.
    destruct (Hcause Hthrown) as [Hfalsy | (t' & Ht' & Hno)].
    + by rewrite (falsy_id_Some _ Hne) in Hfalsy.
    + rewrite Ht in Ht'. by injection Ht' as <-.
  - intros Hno. unfold tasks_update. unfold_m.
    rewrite Hcheck, (falsy_id_Some _ Hne). cbn [fst snd]. rewrite Ht, Hno.
    change (default "" (Some uid)) with uid.
    assert (assigned_to t uid = false) as ->; [|reflexivity].
    apply Hcan in Hno as (_ & _ & _ & Hass). by apply bool_decide_eq_false.
Qed.

Lemma tasks_update_not_authorized_iff_witness :
  (tasks_update (Some "moe") 20 "t1" (VObj [("status", VStr "done")])
     Sample.one_task).1 = Throw not_authorized.
Proof.
  apply (tasks_update_not_authorized_iff "moe" 20 "t1"
           (VObj [("status", VStr "done")]) Sample.one_task Sample.t1
           (TaskUpdates.mk None None (Some done) None None None None None None)
           Sample.moe);
    [done | reflexivity | reflexivity | reflexivity |].
  split_and!; [done | done | by vm_compute | done].
Defined.


(* ===================================================================== *)
(** * What stays of a task *)
(* ===================================================================== *)

Lemma lookup_alter_identity (f : Task.t → Task.t) taskId (m : gmap string Task.t) id t :
  (∀ x, same_identity x (f x)) →
  m !! id = Some t →
  ∃ t', alter f taskId m !! id = Some t' ∧ same_identity t t'.
Proof.
  intros Hf Ht. rewrite lookup_alter. case_decide.
  - subst. rewrite Ht. simpl. eauto.
  - exists t. by split.
Qed.

(** X13. A stored task never changes its project, its creator or its
    creation time, and it stays stored unless [tasks.remove] is called on
    it; and a task appears only through [tasks.insert], under the [_id]
    drawn for that call. *)
Theorem task_identity_is_fixed set_undefined this_userId now c s id :
  let s' := run_call set_undefined this_userId now c s in
  (∀ t, tasks s !! id = Some t →
        (∃ t', tasks s' !! id = Some t' ∧ same_identity t t')
        ∨ c = call_remove id ∧ tasks s' !! id = None)
  ∧ (tasks s !! id = None → is_Some (tasks s' !! id) →
     ∃ taskData, c = call_insert id taskData).
Proof.
  intros s'. subst s'.
  destruct c as [newId d | taskId u | taskId a | taskId h | taskId]; simpl.
  - pose proof (tasks_insert_run this_userId now newId d s) as Hrun.
    unfold post in Hrun.
    destruct Hrun as [[e ->] | (data & _ & _ & Hfresh & -> & _)]; simpl.
    + split.
      * intros t Ht. left. exists t. by split.
      * intros Hnone [? Hsome]. congruence.
    + split.
      * intros t Ht. left. exists t. split; [|done].
        rewrite lookup_insert_ne; [done|]. intros ->. congruence.
      * intros Hnone Hsome. destruct (decide (newId = id)) as [-> | Hne]; [eauto|].
        rewrite lookup_insert_ne in Hsome by done. rewrite Hnone in Hsome.
        by destruct Hsome.
  - pose proof (tasks_update_effect this_userId now taskId u s) as Heff.
    unfold post in Heff.
    destruct Heff as [[e ->] | (_ & u' & t0 & stamp & unset & _ & _ & -> & _)]; simpl.
    + split; [intros t Ht; left; exists t; by split|].
      intros Hnone [? Hsome]. congruence.
    + split.
      * intros t Ht. left. by apply lookup_alter_identity.
      * intros Hnone Hsome. rewrite lookup_alter in Hsome.
        case_decide; [subst|]; rewrite Hnone in Hsome; by destruct Hsome.
  - pose proof (tasks_assign_effect set_undefined this_userId now taskId a s) as Heff.
    unfold post in Heff. destruct Heff as [-> | [a' ->]].
    + split; [intros t Ht; left; exists t; by split|].
      intros Hnone [? Hsome]. congruence.
    + split.
      * intros t Ht. left. by apply lookup_alter_identity.
      * intros Hnone Hsome. rewrite lookup_alter in Hsome.
        case_decide; [subst|]; rewrite Hnone in Hsome; by destruct Hsome.
  - pose proof (tasks_logTime_effect this_userId now taskId h s) as Heff.
    unfold post in Heff. destruct Heff as [-> | ->].
    + split; [intros t Ht; left; exists t; by split|].
      intros Hnone [? Hsome]. congruence.
    + split.
      * intros t Ht. left. by apply lookup_alter_identity.
      * intros Hnone Hsome. rewrite lookup_alter in Hsome.
        case_decide; [subst|]; rewrite Hnone in Hsome; by destruct Hsome.
  - pose proof (tasks_remove_effect this_userId now taskId s) as Heff.
    unfold post in Heff. destruct Heff as [-> | ->].
    + split; [intros t Ht; left; exists t; by split|].
      intros Hnone [? Hsome]. congruence.
    + split.
      * intros t Ht. destruct (decide (taskId = id)) as [-> | Hne].
        -- right. split; [done|]. apply lookup_delete_eq.
        -- left. exists t. split; [|done]. by rewrite lookup_delete_ne.
      * intros Hnone [x Hsome]. apply lookup_delete_Some in Hsome as [_ Hsome].
        congruence.
Qed.


(* ===================================================================== *)
(** * Assigning a task and logging time *)
(* ===================================================================== *)

Lemma tasks_assign_run set_undefined this_userId now taskId userIdToAssign s :
  post (λ x,
    match x.1 with
    | Throw _ => True
    | Ok _ =>
        ∃ t, falsy_id this_userId = false
          ∧ tasks s !! taskId = Some t
          ∧ canModifyTask s this_userId t = true
          ∧ (truthy_id userIdToAssign = true →
             ∃ p, projects s !! Task.projectId t = Some p
                  ∧ bool_decide (users s !! default "" userIdToAssign = None) = false
                  ∧ isOnTeam p (default "" userIdToAssign) = true)
          ∧ x.2 = mkStore (users s) (projects s)
                    (alter (set_assignee
                              (if truthy_id userIdToAssign then Some userIdToAssign
                               else set_undefined (Task.assignedToId t)) now)
                       taskId (tasks s))
                    (activityLogs s
                     ++ [ActivityLog.mk (default "" this_userId) Action.assign
                           Entity.task taskId
                           (Some (VObj [("previousAssignee",
                                         jsval_of_ref (Task.assignedToId t));
                                        ("newAssignee",
                                         jsval_of_ref (Some userIdToAssign))]))
                           now])%list
    end)
    (tasks_assign set_undefined this_userId now taskId userIdToAssign s).
Proof.
  unfold tasks_assign. unfold_m.
  run_all.
  all: cbn [fst snd]; try exact I.
  all: eexists; split_and!; try reflexivity; try eassumption.
  all: try (by apply negb_false_iff).
  all: try (intros Htruthy; first [ discriminate Htruthy | congruence | idtac ]).
  all: try (eexists; split_and!; [eassumption | eassumption | by apply negb_false_iff]).
  all: try match goal with H : truthy_id _ = _ |- _ => by rewrite H end.
Qed.

(** X14. When [tasks.assign] succeeds with a non-empty user id, the caller
    passed [canModifyTask], the task's project exists, the new assignee is
    a user who owns that project or is on its team, and the only change to
    the tasks is the assignee and [updatedAt] of that one task: the stored
    document has every other field of the former one, and the other tasks,
    the projects (so the counters) and the users are as they were.  The log
    gains one [assign] entry naming the task. *)
Theorem tasks_assign_to_member set_undefined this_userId now taskId id s s' :
  id ≠ "" →
  tasks_assign set_undefined this_userId now taskId (Some id) s = (Ok (), s') →
  ∃ t p entry,
    tasks s !! taskId = Some t
    ∧ canModifyTask s this_userId t = true
    ∧ projects s !! Task.projectId t = Some p
    ∧ is_Some (users s !! id)
    ∧ (Project.ownerId p = id ∨ id ∈ Project.teamMemberIds p)
    ∧ tasks s'
      = <[taskId :=
            Task.mk (Task.projectId t) (Task.title t) (Task.description t)
              (Some (Some id)) (Task.status t) (Task.priority t)
              (Task.dueDate t) (Task.estimatedHours t) (Task.actualHours t)
              (Task.tags t) (Task.createdBy t) (Task.createdAt t)
              (Some now) (Task.completedAt t)]> (tasks s)
    ∧ projects s' = projects s
    ∧ users s' = users s
    ∧ activityLogs s' = (activityLogs s ++ [entry])%list
    ∧ ActivityLog.action entry = Action.assign
    ∧ ActivityLog.entityId entry = taskId.
Proof.
  intros Hne Hrun.
  pose proof (tasks_assign_run set_undefined this_userId now taskId (Some id) s) as Hpost.
  unfold post in Hpost. rewrite Hrun in Hpost. cbn [fst snd] in Hpost.
  destruct Hpost as (t & _ & Ht & Hcan & Hteam & ->).
  assert (truthy_id (Some id) = true) as Htruthy.
  { unfold truthy_id. apply negb_true_iff. by apply falsy_id_Some. }
  rewrite Htruthy. destruct (Hteam Htruthy) as (p & Hp & Huser & Hon).
  change (default "" (Some id)) with id in Huser, Hon.
  apply bool_decide_eq_false in Huser.
  unfold isOnTeam, includes in Hon. apply orb_true_iff in Hon.
  eexists t, p, _. cbn [tasks projects users activityLogs].
  split_and!; try done.
  - by destruct (users s !! id).
  - destruct Hon as [H|H]; apply bool_decide_eq_true in H; auto.
  - apply map_eq. intros i. destruct (decide (i = taskId)) as [-> | Hi].
    + by rewrite lookup_alter_eq, lookup_insert_eq, Ht.
    + by rewrite lookup_alter_ne, lookup_insert_ne.
Qed.

Lemma tasks_assign_to_member_witness :
  ∃ t p entry,
    tasks Sample.one_task !! "t1" = Some t
    ∧ canModifyTask Sample.one_task (Some "max") t = true
    ∧ projects Sample.one_task !! Task.projectId t = Some p
    ∧ is_Some (users Sample.one_task !! "mia")
    ∧ (Project.ownerId p = "mia" ∨ "mia" ∈ Project.teamMemberIds p)
    ∧ tasks (tasks_assign id (Some "max") 70 "t1" (Some "mia") Sample.one_task).2
      = <["t1" :=
            Task.mk (Task.projectId t) (Task.title t) (Task.description t)
              (Some (Some "mia")) (Task.status t) (Task.priority t)
              (Task.dueDate t) (Task.estimatedHours t) (Task.actualHours t)
              (Task.tags t) (Task.createdBy t) (Task.createdAt t)
              (Some 70) (Task.completedAt t)]> (tasks Sample.one_task)
    ∧ projects (tasks_assign id (Some "max") 70 "t1" (Some "mia") Sample.one_task).2
      = projects Sample.one_task
    ∧ users (tasks_assign id (Some "max") 70 "t1" (Some "mia") Sample.one_task).2
      = users Sample.one_task
    ∧ activityLogs (tasks_assign id (Some "max") 70 "t1" (Some "mia") Sample.one_task).2
      = (activityLogs Sample.one_task ++ [entry])%list
    ∧ ActivityLog.action entry = Action.assign
    ∧ ActivityLog.entityId entry = "t1".
Proof.
  apply (tasks_assign_to_member id (Some "max") 70 "t1" "mia" Sample.one_task).
  - discriminate.
  - vm_compute. reflexivity.
Defined.

Lemma tasks_logTime_run this_userId now taskId hoursToAdd s :
  post (λ x,
    match x.1 with
    | Throw _ =>
        falsy_id this_userId = true
        ∨ Num.leb hoursToAdd Num.zero = true
        ∨ tasks s !! taskId = None
        ∨ ∃ t, tasks s !! taskId = Some t
               ∧ assigned_to t (default "" this_userId) = false
               ∧ canModifyTask s this_userId t = false
    | Ok _ =>
        ∃ t, falsy_id this_userId = false
          ∧ Num.leb hoursToAdd Num.zero = false
          ∧ tasks s !! taskId = Some t
          ∧ (assigned_to t (default "" this_userId) = true
             ∨ canModifyTask s this_userId t = true)
          ∧ x.2 = mkStore (users s) (projects s)
                    (alter (inc_actualHours hoursToAdd now) taskId (tasks s))
                    (activityLogs s
                     ++ [ActivityLog.mk (default "" this_userId) Action.update
                           Entity.task taskId
                           (Some (VObj [("action", VStr "logged time");
                                        ("hours", VNum hoursToAdd)]))
                           now])%list
    end)
    (tasks_logTime this_userId now taskId hoursToAdd s).
Proof.
  unfold tasks_logTime. unfold_m.
  run_all.
  all: cbn [fst snd].
  all: first
         [ by left
         | by (right; left)
         | by (right; right; left)
         | right; right; right; eexists; split; [reflexivity|];
           match goal with
           | H : negb _ && negb _ = true |- _ =>
               apply andb_true_iff in H as [H1 H2];
               apply negb_true_iff in H1, H2; by split
           end
         | eexists; split_and!; try reflexivity;
           match goal with
           | H : negb _ && negb _ = false |- _ =>
               apply andb_false_iff in H as [H|H];
               apply negb_false_iff in H; [by left | by right]
           end ].
Qed.

(** X15. [tasks.logTime] succeeds exactly for a logged-in caller, hours
    that are not [<= 0], and an existing task that the caller is assigned
    to or may modify. *)
Theorem tasks_logTime_succeeds_iff this_userId now taskId hoursToAdd s :
  (tasks_logTime this_userId now taskId hoursToAdd s).1 = Ok ()
  ↔ ∃ uid t,
      this_userId = Some uid ∧ uid ≠ ""
      ∧ Num.leb hoursToAdd Num.zero = false
      ∧ tasks s !! taskId = Some t
      ∧ (Task.assignedToId t = Some (Some uid)
         ∨ canModifyTask s this_userId t = true).
Proof.
  pose proof (tasks_logTime_run this_userId now taskId hoursToAdd s) as Hpost.
  unfold post in Hpost.
  destruct (tasks_logTime this_userId now taskId hoursToAdd s) as [[[]|e] s'];
    cbn [fst snd] in *.
  - split; [intros _|done].
    destruct Hpost as (t & Hid & Hh & Ht & Hwho & _).
    apply falsy_id_false in Hid as (uid & -> & Hne & _).
    change (default "" (Some uid)) with uid in Hwho.
    exists uid, t. split_and!; try done.
    destruct Hwho as [H|H]; [left | by right].
    by apply bool_decide_eq_true in H.
  - split; [done|]. intros (uid & t & -> & Hne & Hh & Ht & Hwho). exfalso.
    destruct Hpost as [Hid | [Hle | [Hnone | (t' & Ht' & Hass & Hcan)]]].
    + rewrite falsy_id_Some in Hid by done. discriminate.
    + congruence.
    + congruence.
    + assert (t' = t) as -> by congruence.
      change (default "" (Some uid)) with uid in Hass.
      apply bool_decide_eq_false in Hass. destruct Hwho; congruence.
Qed.

(** X16. A successful [tasks.logTime] adds the hours to [actualHours] of
    that task, as doubles are added (or stores them when the field was
    unset), stamps [updatedAt], and leaves every other field of the task,
    every other task and all projects as they were; the log gains one
    [update] entry for the task. *)
Theorem tasks_logTime_adds_hours this_userId now taskId hoursToAdd s s' :
  tasks_logTime this_userId now taskId hoursToAdd s = (Ok (), s') →
  ∃ t t' entry,
    tasks s !! taskId = Some t
    ∧ tasks s' = <[taskId := t']> (tasks s)
    ∧ Task.actualHours t'
      = Some (from_option (λ old, Num.add old hoursToAdd) hoursToAdd
                (Task.actualHours t))
    ∧ Task.updatedAt t' = Some now
    ∧ same_identity t t'
    ∧ Task.title t' = Task.title t
    ∧ Task.description t' = Task.description t
    ∧ Task.assignedToId t' = Task.assignedToId t
    ∧ Task.status t' = Task.status t
    ∧ Task.priority t' = Task.priority t
    ∧ Task.dueDate t' = Task.dueDate t
    ∧ Task.estimatedHours t' = Task.estimatedHours t
    ∧ Task.tags t' = Task.tags t
    ∧ Task.completedAt t' = Task.completedAt t
    ∧ projects s' = projects s
    ∧ users s' = users s
    ∧ activityLogs s' = (activityLogs s ++ [entry])%list
    ∧ ActivityLog.action entry = Action.update
    ∧ ActivityLog.entityId entry = taskId.
Proof.
  intros Hrun.
  pose proof (tasks_logTime_run this_userId now taskId hoursToAdd s) as Hpost.
  unfold post in Hpost. rewrite Hrun in Hpost. cbn [fst snd] in Hpost.
  destruct Hpost as (t & _ & _ & Ht & _ & ->).
  eexists t, (inc_actualHours hoursToAdd now t), _.
  cbn [tasks projects users activityLogs].
  split_and!; try done.
  - apply map_eq. intros i. destruct (decide (i = taskId)) as [-> | Hi].
    + by rewrite lookup_alter_eq, lookup_insert_eq, Ht.
    + by rewrite lookup_alter_ne, lookup_insert_ne.
Qed.

Lemma tasks_logTime_adds_hours_witness :
  ∃ t t' entry,
    tasks Sample.one_task !! "t1" = Some t
    ∧ tasks (tasks_logTime (Some "max") 70 "t1" (Num.of_Z 2) Sample.one_task).2
      = <["t1" := t']> (tasks Sample.one_task)
    ∧ Task.actualHours t'
      = Some (from_option (λ old, Num.add old (Num.of_Z 2)) (Num.of_Z 2)
                (Task.actualHours t))
    ∧ Task.updatedAt t' = Some 70
    ∧ same_identity t t'
    ∧ Task.title t' = Task.title t
    ∧ Task.description t' = Task.description t
    ∧ Task.assignedToId t' = Task.assignedToId t
    ∧ Task.status t' = Task.status t
    ∧ Task.priority t' = Task.priority t
    ∧ Task.dueDate t' = Task.dueDate t
    ∧ Task.estimatedHours t' = Task.estimatedHours t
    ∧ Task.tags t' = Task.tags t
    ∧ Task.completedAt t' = Task.completedAt t
    ∧ projects (tasks_logTime (Some "max") 70 "t1" (Num.of_Z 2) Sample.one_task).2
      = projects Sample.one_task
    ∧ users (tasks_logTime (Some "max") 70 "t1" (Num.of_Z 2) Sample.one_task).2
      = users Sample.one_task
    ∧ activityLogs (tasks_logTime (Some "max") 70 "t1" (Num.of_Z 2) Sample.one_task).2
      = (activityLogs Sample.one_task ++ [entry])%list
    ∧ ActivityLog.action entry = Action.update
    ∧ ActivityLog.entityId entry = "t1".
Proof.
  apply (tasks_logTime_adds_hours (Some "max") 70 "t1" (Num.of_Z 2) Sample.one_task).
  vm_compute. reflexivity.
Defined.


(* ===================================================================== *)
(** * When the counters of the projects stay exact *)
(* ===================================================================== *)

Lemma count_docs_insert_fresh {A} (sel : string → A → bool) k x (m : gmap string A) :
  m !! k = None →
  count_docs sel (<[k := x]> m) = ((if sel k x then 1 else 0) + count_docs sel m)%nat.
Proof.
  intros Hk. unfold count_docs.
  assert (∀ l l' : list (string * A), l ≡ₚ l' →
            length (List.filter (λ kv, sel kv.1 kv.2) l)
            = length (List.filter (λ kv, sel kv.1 kv.2) l')) as Hperm.
  { induction 1 as [| [] ? ? ? IH | [] [] ? | ? ? ? ? IH1 ? IH2]; simpl.
    - done.
    - destruct (sel _ _); simpl; by rewrite IH.
    - by repeat destruct (sel _ _).
    - by rewrite IH1. }
  rewrite (Hperm _ _ (map_to_list_insert m k x Hk)). simpl.
  by destruct (sel k x).
Qed.

Lemma count_docs_delete {A} (sel : string → A → bool) k x (m : gmap string A) :
  m !! k = Some x →
  count_docs sel m
  = ((if sel k x then 1 else 0) + count_docs sel (base.delete k m))%nat.
Proof.
  intros Hk. rewrite <- (count_docs_insert_fresh sel k x) by apply lookup_delete_eq.
  by rewrite insert_delete_id.
Qed.

Lemma count_docs_alter {A} (sel : string → A → bool) f k x (m : gmap string A) :
  m !! k = Some x →
  (count_docs sel (alter f k m) + (if sel k x then 1 else 0)
   = count_docs sel m + (if sel k (f x) then 1 else 0))%nat.
Proof.
  intros Hk. rewrite (count_docs_delete sel k x m Hk).
  rewrite (count_docs_delete sel k (f x) (alter f k m))
    by (by rewrite lookup_alter_eq, Hk).
  rewrite delete_alter. rewrite decide_True by done. lia.
Qed.

Lemma count_docs_alter_same {A} (sel : string → A → bool) f k (m : gmap string A) :
  (∀ x, m !! k = Some x → sel k (f x) = sel k x) →
  count_docs sel (alter f k m) = count_docs sel m.
Proof.
  intros Hsel. destruct (m !! k) as [x|] eqn:Hk.
  - pose proof (count_docs_alter sel f k x m Hk) as H.
    rewrite (Hsel x eq_refl) in H. lia.
  - f_equal. apply map_eq. intros i. rewrite lookup_alter.
    case_decide; [subst; by rewrite Hk | done].
Qed.

Lemma becomes_leaves_done u t :
  becomes_done u t = true → leaves_done u t = true → False.
Proof.
  unfold becomes_done, leaves_done. intros H1 H2.
  apply andb_true_iff in H1 as [_ H1], H2 as [H2 _].
  rewrite H2 in H1. discriminate.
Qed.

(** What [tasks.update] does to the projects: a recount of the task's
    project, made on the tasks as they are before the write, when the task
    moves into or out of [done]; nothing otherwise. *)
Lemma tasks_update_projects this_userId now taskId updates s :
  post (λ x,
    (∃ e, x = (Throw e, s))
    ∨ ∃ u t,
        check_TaskUpdates updates = Some u
        ∧ tasks s !! taskId = Some t
        ∧ projects x.2
          = if becomes_done u t || leaves_done u t
            then alter (set_counters (total_in (Task.projectId t) s)
                          (done_in (Task.projectId t) s) now)
                   (Task.projectId t) (projects s)
            else projects s)
   (tasks_update this_userId now taskId updates s).
Proof.
  unfold tasks_update, projects_updateTaskCounters. unfold_m.
  run_all.
  all: try (left; eexists; reflexivity).
  all: try (exfalso; eapply becomes_leaves_done; eassumption).
  all: right; eexists _, _; split_and!; [reflexivity | reflexivity |].
  all: repeat match goal with
         | H : becomes_done _ _ = _ |- _ => rewrite H; clear H
         | H : leaves_done _ _ = _ |- _ => rewrite H; clear H
         end; reflexivity.
Qed.


Lemma tasks_remove_post this_userId now taskId s :
  post (λ x,
    (∃ e, x = (Throw e, s))
    ∨ ∃ t,
        tasks s !! taskId = Some t
        ∧ tasks x.2 = base.delete taskId (tasks s)
        ∧ projects x.2
          = alter (set_counters (total_in (Task.projectId t) x.2)
                     (done_in (Task.projectId t) x.2) now)
              (Task.projectId t) (projects s))
    (tasks_remove this_userId now taskId s).
Proof.
  unfold tasks_remove, projects_updateTaskCounters. unfold_m.
  run_all.
  all: try (left; eexists; reflexivity).
  all: right; eexists; split_and!; reflexivity.
Qed.

Lemma run_call_run_task_call set_undefined this_userId now c s :
  run_call set_undefined this_userId now c s
  = (run_task_call set_undefined this_userId now c s).2.
Proof. by destruct c. Qed.

Lemma counters_exact_same q s s' :
  total_in q s' = total_in q s → done_in q s' = done_in q s →
  projects s' !! q = projects s !! q →
  counters_exact q s → counters_exact q s'.
Proof.
  intros Htotal Hdone Hp Hexact p. rewrite Htotal, Hdone, Hp. apply Hexact.
Qed.

Lemma counters_exact_recounted projectId now s s' :
  projects s' = alter (set_counters (total_in projectId s') (done_in projectId s') now)
                  projectId (projects s) →
  counters_exact projectId s'.
Proof.
  intros Hp p. rewrite Hp, lookup_alter_eq.
  destruct (projects s !! projectId); simpl; [by intros [= <-] | done].
Qed.

Lemma counters_exact_alter (f : Task.t → Task.t) taskId q s s' :
  (∀ t, tasks s !! taskId = Some t →
        Task.projectId (f t) = Task.projectId t
        ∧ (Task.status (f t) = done ↔ Task.status t = done)) →
  tasks s' = alter f taskId (tasks s) → projects s' = projects s →
  counters_exact q s → counters_exact q s'.
Proof.
  intros Hf Htasks Hprojects. apply counters_exact_same.
  - unfold total_in. rewrite Htasks. apply count_docs_alter_same.
    intros t Ht. destruct (Hf t Ht) as [-> _]. done.
  - unfold done_in. rewrite Htasks. apply count_docs_alter_same.
    intros t Ht. destruct (Hf t Ht) as [-> Hdone]. f_equal.
    apply bool_decide_ext. exact Hdone.
  - by rewrite Hprojects.
Qed.

Lemma apply_updateObject_done u now stamp unset t :
  becomes_done u t = false → leaves_done u t = false →
  Task.status (apply_updateObject (mkUpdateObject u now stamp unset) t) = done
  ↔ Task.status t = done.
Proof.
  unfold becomes_done, leaves_done. cbn.
  destruct (TaskUpdates.status u) as [st|]; cbn; [|done].
  intros H1 H2. apply andb_false_iff in H1, H2.
  destruct H1 as [H1|H1], H2 as [H2|H2].
  - apply bool_decide_eq_false in H1, H2. split; [|done]. intros ->. by destruct H1.
  - apply bool_decide_eq_false in H1. apply negb_false_iff, bool_decide_eq_true in H2.
    subst. by destruct H1.
  - apply negb_false_iff, bool_decide_eq_true in H1.
    apply bool_decide_eq_false in H2. done.
  - apply negb_false_iff, bool_decide_eq_true in H1, H2. done.
Qed.

(** X17. The counters stay exact under every task method but one: when
    the counters of all projects agree with the tasks, they still do after
    a call of [tasks.insert], [tasks.assign], [tasks.logTime] or
    [tasks.remove], failed or not, and after a [tasks.update] that does
    not move its task into or out of [done]. *)
Theorem task_calls_keep_counters_exact set_undefined this_userId now c s :
  changes_done s c = false →
  (∀ q, counters_exact q s) →
  ∀ q, counters_exact q (run_call set_undefined this_userId now c s).
Proof.
  intros Hchg Hexact q.
  destruct c as [newId d | taskId u | taskId a | taskId h | taskId];
    cbn [run_call changes_done] in *.
  - pose proof (tasks_insert_run this_userId now newId d s) as Hrun.
    unfold post in Hrun.
    destruct Hrun as [[e ->] | (data & _ & _ & Hfresh & Htasks & Hprojects)];
      [apply Hexact|].
    destruct (decide (q = TaskData.projectId data)) as [-> | Hq].
    { eapply counters_exact_recounted, Hprojects. }
    apply (counters_exact_same q s); [| | |apply Hexact].
    + unfold total_in. rewrite Htasks, count_docs_insert_fresh by done.
      cbn. by rewrite bool_decide_eq_false_2 by (intros ?; by apply Hq).
    + unfold done_in. rewrite Htasks, count_docs_insert_fresh by done.
      cbn. by rewrite bool_decide_eq_false_2 by (intros ?; by apply Hq).
    + by rewrite Hprojects, lookup_alter_ne.
  - pose proof (tasks_update_effect this_userId now taskId u s) as Htasks.
    pose proof (tasks_update_projects this_userId now taskId u s) as Hprojects.
    unfold post in Htasks, Hprojects.
    destruct Htasks as [[e ->] | (_ & u' & t & stamp & unset & Hu & Ht & Htasks & _)];
      [apply Hexact|].
    destruct Hprojects as [[e He] | (u'' & t' & Hu' & Ht' & Hprojects)].
    { rewrite He. apply Hexact. }
    assert (u'' = u') as -> by congruence. assert (t' = t) as -> by congruence.
    rewrite Hu, Ht in Hchg. rewrite Hchg in Hprojects.
    apply orb_false_iff in Hchg as [Hbecomes Hleaves].
    eapply counters_exact_alter; [| exact Htasks | exact Hprojects | apply Hexact].
    intros t0 Ht0. assert (t0 = t) as -> by congruence.
    split; [done|]. by apply apply_updateObject_done.
  - pose proof (tasks_assign_run set_undefined this_userId now taskId a s) as Hrun.
    unfold post in Hrun.
    destruct (tasks_assign set_undefined this_userId now taskId a s) as [[[]|e] s'] eqn:Hcall;
      cbn [fst snd] in *.
    + destruct Hrun as (t & _ & _ & _ & _ & ->).
      eapply counters_exact_alter; [| reflexivity | reflexivity | apply Hexact].
      done.
    + pose proof (atomic_task_call set_undefined this_userId now (call_assign taskId a) s e)
        as Hatomic.
      cbn [run_task_call lift fst snd] in Hatomic. rewrite Hcall in Hatomic.
      specialize (Hatomic eq_refl). cbn [snd] in Hatomic. subst s'. apply Hexact.
  - pose proof (tasks_logTime_run this_userId now taskId h s) as Hrun.
    unfold post in Hrun.
    destruct (tasks_logTime this_userId now taskId h s) as [[[]|e] s'] eqn:Hcall;
      cbn [fst snd] in *.
    + destruct Hrun as (t & _ & _ & _ & _ & ->).
      eapply counters_exact_alter; [| reflexivity | reflexivity | apply Hexact].
      done.
    + pose proof (atomic_task_call id this_userId now (call_logTime taskId h) s e)
        as Hatomic.
      cbn [run_task_call lift fst snd] in Hatomic. rewrite Hcall in Hatomic.
      specialize (Hatomic eq_refl). cbn [snd] in Hatomic. subst s'. apply Hexact.
  - pose proof (tasks_remove_post this_userId now taskId s) as Hrun.
    unfold post in Hrun.
    destruct Hrun as [[e ->] | (t & Ht & Htasks & Hprojects)]; [apply Hexact|].
    destruct (decide (q = Task.projectId t)) as [-> | Hq].
    { eapply counters_exact_recounted, Hprojects. }
    apply (counters_exact_same q s); [| | |apply Hexact].
    + unfold total_in. rewrite Htasks, (count_docs_delete _ taskId t (tasks s)) by done.
      cbn. by rewrite bool_decide_eq_false_2 by (intros ?; by apply Hq).
    + unfold done_in. rewrite Htasks, (count_docs_delete _ taskId t (tasks s)) by done.
      cbn. by rewrite bool_decide_eq_false_2 by (intros ?; by apply Hq).
    + by rewrite Hprojects, lookup_alter_ne.
Qed.

Lemma task_calls_keep_counters_exact_witness :
  let s' := run_call id (Some "max") 10 (call_insert "t1" Sample.task_for_mia)
              Sample.empty_store in
  ∃ p, projects s' !! "p1" = Some p
       ∧ Project.totalTasks (Project.metadata p) = total_in "p1" s'
       ∧ Project.completedTasks (Project.metadata p) = done_in "p1" s'.
Proof.
  assert (∀ q, counters_exact q Sample.empty_store) as Hexact.
  { intros q p. destruct (decide (q = "p1")) as [-> | Hq].
    - intros [= <-]. split; reflexivity.
    - change (projects Sample.empty_store)
        with (<["p1" := Sample.p1]> (∅ : gmap string Project.t)).
      rewrite lookup_insert_ne by done. rewrite lookup_empty. discriminate. }
  exists (set_counters 1 0 10 Sample.p1). split; [reflexivity|].
  apply (task_calls_keep_counters_exact id (Some "max") 10
           (call_insert "t1" Sample.task_for_mia) Sample.empty_store
           eq_refl Hexact "p1").
  reflexivity.
Defined.

(** X18. A [tasks.update] that moves a task of an existing project into
    or out of [done] leaves the project's [completedTasks] off by one in
    every store: the recount runs before the new status is written, so the
    stored number is one less than the tasks that are done when the task
    was completed, and one more when it was reopened.  [totalTasks] is
    right. *)
Theorem tasks_update_miscounts_done this_userId now taskId updates s s' u t p :
  tasks_update this_userId now taskId updates s = (Ok (), s') →
  check_TaskUpdates updates = Some u →
  tasks s !! taskId = Some t →
  projects s !! Task.projectId t = Some p →
  becomes_done u t || leaves_done u t = true →
  ∃ p', projects s' !! Task.projectId t = Some p'
        ∧ Project.totalTasks (Project.metadata p') = total_in (Task.projectId t) s'
        ∧ (if becomes_done u t
           then S (Project.completedTasks (Project.metadata p'))
                = done_in (Task.projectId t) s'
           else Project.completedTasks (Project.metadata p')
                = S (done_in (Task.projectId t) s'))
        ∧ ¬ counters_exact (Task.projectId t) s'.
Proof.
  intros Hrun Hu Ht Hp Hchg.
  pose proof (tasks_update_effect this_userId now taskId updates s) as Htasks.
  pose proof (tasks_update_projects this_userId now taskId updates s) as Hprojects.
  unfold post in Htasks, Hprojects. rewrite Hrun in Htasks, Hprojects.
  cbn [fst snd] in *.
  destruct Htasks as [[e [=]] | (_ & u' & t' & stamp & unset & Hu' & Ht' & Htasks & _)].
  assert (u' = u) as -> by congruence. assert (t' = t) as -> by congruence.
  destruct Hprojects as [[e [=]] | (u' & t' & Hu'' & Ht'' & Hprojects)].
  assert (u' = u) as -> by congruence. assert (t' = t) as -> by congruence.
  rewrite Hchg in Hprojects.
  set (f := apply_updateObject (mkUpdateObject u now stamp unset)) in *.
  set (pid := Task.projectId t) in *.
  assert (total_in pid s' = total_in pid s) as Htotal.
  { unfold total_in. rewrite Htasks. by apply count_docs_alter_same. }
  pose proof (count_docs_alter
                (λ _ t, bool_decide (Task.projectId t = pid)
                        && bool_decide (Task.status t = done)) f taskId t (tasks s) Ht)
    as Hdone.
  rewrite <- Htasks in Hdone. fold (done_in pid s') (done_in pid s) in Hdone.
  cbn beta in Hdone.
  assert (Task.projectId (f t) = pid) as Hpid by done.
  rewrite Hpid in Hdone. fold pid in Hdone.
  rewrite !bool_decide_eq_true_2 in Hdone by done. cbn [andb] in Hdone.
  assert (∃ p', projects s' !! pid = Some p'
                ∧ Project.totalTasks (Project.metadata p') = total_in pid s
                ∧ Project.completedTasks (Project.metadata p') = done_in pid s)
    as (p' & Hp' & Htot' & Hdone').
  { rewrite Hprojects, lookup_alter_eq, Hp. cbn. eauto. }
  assert (if becomes_done u t
          then S (done_in pid s) = done_in pid s'
          else done_in pid s = S (done_in pid s')) as Hoff.
  { destruct (becomes_done u t) eqn:Hb.
    - unfold becomes_done in Hb. apply andb_true_iff in Hb as [Hnew Hold].
      apply bool_decide_eq_true in Hnew. apply negb_true_iff in Hold.
      rewrite Hold in Hdone.
      assert (Task.status (f t) = done) as Hst by (cbn; by rewrite Hnew).
      rewrite (bool_decide_eq_true_2 _ Hst) in Hdone. lia.
    - cbn [orb] in Hchg. unfold leaves_done in Hchg.
      apply andb_true_iff in Hchg as [Hold Hnew]. rewrite Hold in Hdone.
      destruct (TaskUpdates.status u) as [st|] eqn:Hstatus; [|discriminate].
      apply negb_true_iff, bool_decide_eq_false in Hnew.
      assert (Task.status (f t) ≠ done) as Hst by (cbn; by rewrite Hstatus).
      rewrite (bool_decide_eq_false_2 _ Hst) in Hdone. lia. }
  exists p'. split_and!; [done | congruence | | ].
  - destruct (becomes_done u t); lia.
  - intros Hexact. destruct (Hexact p' Hp') as [_ Hcount].
    destruct (becomes_done u t); lia.
Qed.

Lemma tasks_update_miscounts_done_witness :
  ∃ p', projects Sample.one_done !! "p1" = Some p'
        ∧ Project.totalTasks (Project.metadata p') = total_in "p1" Sample.one_done
        ∧ S (Project.completedTasks (Project.metadata p')) = done_in "p1" Sample.one_done
        ∧ ¬ counters_exact "p1" Sample.one_done.
Proof.
  apply (tasks_update_miscounts_done (Some "mia") 20 "t1"
           (VObj [("status", VStr "done")]) Sample.one_task Sample.one_done
           (TaskUpdates.mk None None (Some done) None None None None None None)
           Sample.t1 (set_counters 1 0 10 Sample.p1)); reflexivity.
Defined.


(* ===================================================================== *)
(** * The counts of the reports *)
(* ===================================================================== *)

Section Groups.
Context {K : Type} `{EqDecision K}.

Lemma group_get_elem (k : K) n (groups : list (K * nat)) :
  NoDup (map fst groups) → (k, n) ∈ groups → group_get k groups = n.
Proof.
  induction groups as [|[k0 n0] rest IH]; simpl; intros Hnd Hin.
  - by apply elem_of_nil in Hin.
  - apply NoDup_cons in Hnd as [Hk0 Hnd]. apply elem_of_cons in Hin as [[= -> ->] | Hin].
    + by rewrite decide_True.
    + rewrite decide_False; [by apply IH|]. intros ->. apply Hk0.
      apply list_elem_of_In, in_map_iff. exists (k0, n). split; [done|].
      by apply list_elem_of_In.
Qed.

Lemma group_get_Permutation (k : K) (g g' : list (K * nat)) :
  NoDup (map fst g) → g ≡ₚ g' → group_get k g = group_get k g'.
Proof.
  intros Hnd Hperm.
  assert (NoDup (map fst g')) as Hnd'.
  { eapply NoDup_Permutation_proper; [|exact Hnd]. symmetry. by apply Permutation_map. }
  destruct (decide (k ∈ map fst g)) as [Hin | Hnin].
  - apply list_elem_of_In, in_map_iff in Hin as ([k0 n] & Hk & Hin). simpl in Hk. subst k0.
    apply list_elem_of_In in Hin.
    rewrite (group_get_elem k n g Hnd Hin).
    symmetry. apply group_get_elem; [done|]. by rewrite <- Hperm.
  - rewrite (group_get_not_key k g Hnin). symmetry. apply group_get_not_key.
    intros Hin. apply Hnin. eapply elem_of_Permutation_proper; [|exact Hin].
    by apply Permutation_map.
Qed.

(** Copying groups into an object of counts, one assignment for each
    group. *)
Section FoldSet.
Context {O : Type} (get : O → K → nat) (set : O → K * nat → O) (good : K → Prop).
Hypothesis get_set_same : ∀ o k n, good k → get (set o (k, n)) k = n.
Hypothesis get_set_other : ∀ o k n k', k' ≠ k → get (set o (k, n)) k' = get o k'.

Lemma get_foldl_set (groups : list (K * nat)) acc k :
  good k → NoDup (map fst groups) →
  get (foldl set acc groups) k
  = if decide (k ∈ map fst groups) then group_get k groups else get acc k.
Proof.
  intros Hgood. revert acc.
  induction groups as [|[k0 n] rest IH]; intros acc Hnd; simpl; [done|].
  apply NoDup_cons in Hnd as [Hk0 Hnd]. rewrite (IH _ Hnd).
  destruct (decide (k = k0)) as [-> | Hne].
  - rewrite decide_False by done. rewrite decide_True by apply list_elem_of_here.
    by apply get_set_same.
  - destruct (decide (k ∈ map fst rest)) as [Hin | Hnin].
    + rewrite decide_True; [done | by apply list_elem_of_further].
    + rewrite decide_False.
      * by apply get_set_other.
      * intros Hin. apply elem_of_cons in Hin. by destruct Hin.
Qed.

(** The object built from the groups of [docs], in any order, holds for
    each key the number of documents with that key. *)
Lemma get_foldl_set_groups {A} (key : A → K) (docs : list A) groups acc k :
  good k → get acc k = 0%nat →
  groups ≡ₚ group_count key docs →
  get (foldl set acc groups) k
  = length (List.filter (λ d, bool_decide (key d = k)) docs).
Proof.
  intros Hgood Hacc Hperm.
  assert (NoDup (map fst groups)) as Hnd.
  { eapply NoDup_Permutation_proper; [by apply Permutation_map|].
    apply NoDup_keys_group_count. }
  rewrite (get_foldl_set groups acc k Hgood Hnd).
  rewrite <- (group_get_group_count key k docs).
  rewrite <- (group_get_Permutation k groups _ Hnd Hperm).
  case_decide as Hin; [done|]. rewrite Hacc. symmetry. by apply group_get_not_key.
Qed.

End FoldSet.
End Groups.

Lemma insert_sorted_Permutation {K} (str : K → string) g (groups : list (K * nat)) :
  insert_sorted str g groups ≡ₚ g :: groups.
Proof.
  induction groups as [|g' rest IH]; simpl; [done|].
  destruct (String.leb _ _); [done|]. rewrite IH. apply Permutation_swap.
Qed.

Lemma sort_by_id_Permutation {K} (str : K → string) (groups : list (K * nat)) :
  sort_by_id str groups ≡ₚ groups.
Proof.
  induction groups as [|g rest IH]; simpl; [done|].
  rewrite insert_sorted_Permutation. by rewrite IH.
Qed.

Lemma insert_by_Permutation {X} (le : X → X → bool) x (l : list X) :
  insert_by le x l ≡ₚ x :: l.
Proof.
  induction l as [|y rest IH]; simpl; [done|].
  destruct (le x y); [done|]. rewrite IH. apply Permutation_swap.
Qed.

Lemma sort_by_Permutation {X} (le : X → X → bool) (l : list X) :
  sort_by le l ≡ₚ l.
Proof.
  induction l as [|x rest IH]; simpl; [done|].
  rewrite insert_by_Permutation. by rewrite IH.
Qed.

Lemma status_get_set o k n : status_get (set_status_count o (k, n)) k = n.
Proof. by destruct o, k. Qed.

Lemma status_get_set_other o k n k' :
  k' ≠ k → status_get (set_status_count o (k, n)) k' = status_get o k'.
Proof. by destruct o, k, k'. Qed.

Lemma priority_get_set o k n : priority_get (set_priority_count o (k, n)) k = n.
Proof. by destruct o, k. Qed.

Lemma priority_get_set_other o k n k' :
  k' ≠ k → priority_get (set_priority_count o (k, n)) k' = priority_get o k'.
Proof. by destruct o, k, k'. Qed.

Lemma length_by_status (docs : list Task.t) :
  length docs
  = (length (List.filter (λ t, bool_decide (Task.status t = todo)) docs)
     + length (List.filter (λ t, bool_decide (Task.status t = in_progress)) docs)
     + length (List.filter (λ t, bool_decide (Task.status t = review)) docs)
     + length (List.filter (λ t, bool_decide (Task.status t = done)) docs))%nat.
Proof.
  induction docs as [|t docs IH]; simpl; [done|].
  destruct (Task.status t); simpl; lia.
Qed.

Lemma length_by_priority (docs : list Task.t) :
  length docs
  = (length (List.filter (λ t, bool_decide (Task.priority t = low)) docs)
     + length (List.filter (λ t, bool_decide (Task.priority t = medium)) docs)
     + length (List.filter (λ t, bool_decide (Task.priority t = high)) docs))%nat.
Proof.
  induction docs as [|t docs IH]; simpl; [done|].
  destruct (Task.priority t); simpl; lia.
Qed.

Lemma length_filter_le {A} (f g : A → bool) (l : list A) :
  (∀ x, f x = true → g x = true) →
  (length (List.filter f l) ≤ length (List.filter g l))%nat.
Proof.
  intros Hfg. induction l as [|x l IH]; simpl; [done|].
  destruct (f x) eqn:Hf.
  - rewrite (Hfg x Hf). simpl. lia.
  - destruct (g x); simpl; lia.
Qed.

Lemma status_counts_of (docs : list Task.t) groups st :
  groups ≡ₚ group_count Task.status docs →
  status_get (foldl set_status_count (StatusCounts.mk 0 0 0 0) groups) st
  = length (List.filter (λ t, bool_decide (Task.status t = st)) docs).
Proof.
  intros Hperm.
  apply (get_foldl_set_groups status_get set_status_count (λ _, True)); try done.
  - intros. apply status_get_set.
  - intros. by apply status_get_set_other.
  - by destruct st.
Qed.

Lemma priority_counts_of (docs : list Task.t) groups p :
  groups ≡ₚ group_count Task.priority docs →
  priority_get (foldl set_priority_count (PriorityCounts.mk 0 0 0) groups) p
  = length (List.filter (λ t, bool_decide (Task.priority t = p)) docs).
Proof.
  intros Hperm.
  apply (get_foldl_set_groups priority_get set_priority_count (λ _, True)); try done.
  - intros. apply priority_get_set.
  - intros. by apply priority_get_set_other.
  - by destruct p.
Qed.

(** X19. The counts of [getUserStatistics] are exact: for every status
    and every priority the object holds the number of tasks assigned to the
    user with that value (0 where the pipeline returns no group); each of
    the two objects sums to [totalTasksAssigned]; and [overdueCount]
    counts tasks that are not done, so it is at most the total less the
    done ones. *)
Theorem getUserStatistics_counts s now userId :
  let r := getUserStatistics s now userId in
  (∀ st, status_get (UserStats.tasksByStatus r) st
         = tasks_of_user userId s (λ t, bool_decide (Task.status t = st)))
  ∧ (∀ p, priority_get (UserStats.tasksByPriority r) p
          = tasks_of_user userId s (λ t, bool_decide (Task.priority t = p)))
  ∧ UserStats.totalTasksAssigned r
    = (status_get (UserStats.tasksByStatus r) todo
       + status_get (UserStats.tasksByStatus r) in_progress
       + status_get (UserStats.tasksByStatus r) review
       + status_get (UserStats.tasksByStatus r) done)%nat
  ∧ UserStats.totalTasksAssigned r
    = (priority_get (UserStats.tasksByPriority r) low
       + priority_get (UserStats.tasksByPriority r) medium
       + priority_get (UserStats.tasksByPriority r) high)%nat
  ∧ (UserStats.overdueCount r + status_get (UserStats.tasksByStatus r) done
     ≤ UserStats.totalTasksAssigned r)%nat.
Proof.
  intros r.
  assert (∀ st, status_get (UserStats.tasksByStatus r) st
                = length (List.filter (λ t, bool_decide (Task.status t = st))
                            (List.filter (λ t, assigned_to t userId) (task_docs s))))
    as Hstatus.
  { intros st. subst r. unfold getUserStatistics. cbn [UserStats.tasksByStatus].
    apply status_counts_of, sort_by_id_Permutation. }
  assert (∀ p, priority_get (UserStats.tasksByPriority r) p
               = length (List.filter (λ t, bool_decide (Task.priority t = p))
                           (List.filter (λ t, assigned_to t userId) (task_docs s))))
    as Hpriority.
  { intros p. subst r. unfold getUserStatistics. cbn [UserStats.tasksByPriority].
    apply priority_counts_of, sort_by_id_Permutation. }
  assert (UserStats.totalTasksAssigned r
          = length (List.filter (λ t, assigned_to t userId) (task_docs s))) as Htotal.
  { subst r. unfold getUserStatistics. cbn [UserStats.totalTasksAssigned].
    apply (count_docs_task_docs (λ t, assigned_to t userId)). }
  split_and!.
  - intros st. rewrite Hstatus, length_filter_filter. unfold tasks_of_user.
    by rewrite (count_docs_task_docs
                  (λ t, assigned_to t userId && bool_decide (Task.status t = st))).
  - intros p. rewrite Hpriority, length_filter_filter. unfold tasks_of_user.
    by rewrite (count_docs_task_docs
                  (λ t, assigned_to t userId && bool_decide (Task.priority t = p))).
  - rewrite Htotal, !Hstatus. apply length_by_status.
  - rewrite Htotal, !Hpriority. apply length_by_priority.
  - rewrite Htotal, Hstatus.
    rewrite (length_by_status (List.filter (λ t, assigned_to t userId) (task_docs s))).
    assert (UserStats.overdueCount r
            ≤ length (List.filter (λ t, negb (bool_decide (Task.status t = done)))
                        (List.filter (λ t, assigned_to t userId) (task_docs s))))%nat
      as Hover.
    { subst r. unfold getUserStatistics. cbn [UserStats.overdueCount].
      rewrite (count_docs_task_docs
                 (λ t, assigned_to t userId
                       && negb (bool_decide (Task.status t = done))
                       && match Task.dueDate t with
                          | Some d => d <? now
                          | None => false
                          end)).
      rewrite length_filter_filter. apply length_filter_le.
      intros t Ht. apply andb_true_iff in Ht as [Ht _]. exact Ht. }
    etrans; [apply Nat.add_le_mono_r, Hover|].
    clear. induction (List.filter _ (task_docs s)) as [|t l IH]; simpl; [done|].
    destruct (Task.status t); simpl; lia.
Qed.


Lemma projects_updateTaskCounters_tasks now projectId s :
  tasks (projects_updateTaskCounters now projectId s).2 = tasks s.
Proof. reflexivity. Qed.

(** X20. The counts of [getProjectStatistics] are exact and agree with
    the counters that [projects.updateTaskCounters] stores: for every
    status the object holds the number of the project's tasks with that
    status, the four sum to [totalTasks], and after a recount
    [metadata.totalTasks] and [metadata.completedTasks] are the report's
    [totalTasks] and [tasksByStatus.done]. *)
Theorem getProjectStatistics_counts s projectId :
  let r := getProjectStatistics s projectId in
  (∀ st, status_get (ProjectStats.tasksByStatus r) st
         = tasks_of_project projectId s (λ t, bool_decide (Task.status t = st)))
  ∧ ProjectStats.totalTasks r
    = (status_get (ProjectStats.tasksByStatus r) todo
       + status_get (ProjectStats.tasksByStatus r) in_progress
       + status_get (ProjectStats.tasksByStatus r) review
       + status_get (ProjectStats.tasksByStatus r) done)%nat
  ∧ (∀ now p,
       projects (projects_updateTaskCounters now projectId s).2 !! projectId = Some p →
       Project.totalTasks (Project.metadata p) = ProjectStats.totalTasks r
       ∧ Project.completedTasks (Project.metadata p)
         = StatusCounts.done (ProjectStats.tasksByStatus r)).
Proof.
  intros r.
  set (in_project := λ t : Task.t, bool_decide (Task.projectId t = projectId)).
  assert (∀ st, status_get (ProjectStats.tasksByStatus r) st
                = length (List.filter (λ t, bool_decide (Task.status t = st))
                            (List.filter in_project (task_docs s))))
    as Hstatus.
  { intros st. subst r. unfold getProjectStatistics. cbn [ProjectStats.tasksByStatus].
    by apply status_counts_of. }
  assert (ProjectStats.totalTasks r = length (List.filter in_project (task_docs s)))
    as Htotal.
  { subst r. unfold getProjectStatistics. cbn [ProjectStats.totalTasks].
    apply (count_docs_task_docs in_project). }
  assert (∀ st, status_get (ProjectStats.tasksByStatus r) st
                = tasks_of_project projectId s (λ t, bool_decide (Task.status t = st)))
    as Hcount.
  { intros st. rewrite Hstatus, length_filter_filter. unfold tasks_of_project.
    by rewrite (count_docs_task_docs
                  (λ t, in_project t && bool_decide (Task.status t = st))). }
  split_and!.
  - exact Hcount.
  - rewrite Htotal, !Hstatus. apply length_by_status.
  - intros now p Hp.
    destruct (projects_updateTaskCounters_exact now projectId s p Hp) as [-> ->].
    split.
    + unfold total_in. by rewrite projects_updateTaskCounters_tasks.
    + change (StatusCounts.done (ProjectStats.tasksByStatus r))
        with (status_get (ProjectStats.tasksByStatus r) done).
      rewrite Hcount. unfold done_in, tasks_of_project.
      by rewrite projects_updateTaskCounters_tasks.
Qed.


(* ===================================================================== *)
(** * The rows of the team performance report *)
(* ===================================================================== *)

Section GroupDocs.
Context {A K : Type} `{EqDecision K}.

Lemma group_find_add (k k' : K) (d : A) (groups : list (K * list A)) :
  group_find k' (add_to_group k d groups)
  = if decide (k' = k) then (group_find k' groups ++ [d])%list
    else group_find k' groups.
Proof.
  induction groups as [|[k0 ds] rest IH]; simpl.
  - by destruct (decide (k' = k)).
  - destruct (decide (k = k0)) as [-> | Hne]; simpl.
    + by destruct (decide (k' = k0)).
    + rewrite IH. destruct (decide (k' = k0)) as [-> | ?]; [|done].
      by rewrite decide_False.
Qed.

Lemma keys_add_to_group (k : K) (d : A) (groups : list (K * list A)) :
  map fst (add_to_group k d groups)
  = if decide (k ∈ map fst groups) then map fst groups
    else (map fst groups ++ [k])%list.
Proof.
  induction groups as [|[k0 ds] rest IH]; simpl; [done|].
  destruct (decide (k = k0)) as [-> | Hne]; simpl.
  - rewrite decide_True; [done | apply list_elem_of_here].
  - rewrite IH. destruct (decide (k ∈ map fst rest)) as [Hin | Hnin].
    + rewrite decide_True; [done | by apply list_elem_of_further].
    + rewrite decide_False; [done|]. intros Hin. apply elem_of_cons in Hin.
      by destruct Hin.
Qed.

Lemma group_find_foldl (key : A → K) (k : K) (docs : list A) acc :
  group_find k (foldl (λ groups d, add_to_group (key d) d groups) acc docs)
  = (group_find k acc ++ List.filter (λ d, bool_decide (key d = k)) docs)%list.
Proof.
  revert acc. induction docs as [|d docs IH]; intros acc; simpl.
  - by rewrite app_nil_r.
  - rewrite IH, group_find_add.
    destruct (decide (k = key d)) as [-> | Hne].
    + rewrite bool_decide_eq_true_2 by done. by rewrite <- app_assoc.
    + by rewrite bool_decide_eq_false_2.
Qed.

Lemma keys_foldl_add (key : A → K) (k : K) (docs : list A) acc :
  k ∈ map fst (foldl (λ groups d, add_to_group (key d) d groups) acc docs)
  ↔ k ∈ map fst acc ∨ k ∈ map key docs.
Proof.
  revert acc. induction docs as [|d docs IH]; intros acc; simpl.
  - split; [by left | intros [?|Hin]; [done | by apply elem_of_nil in Hin]].
  - rewrite IH, keys_add_to_group, elem_of_cons.
    case_decide as Hin.
    + split; [intros [?|?]; auto | intros [?|[->|?]]; auto].
    + rewrite elem_of_app, list_elem_of_singleton. tauto.
Qed.

Lemma NoDup_keys_foldl_add (key : A → K) (docs : list A) acc :
  NoDup (map fst acc) →
  NoDup (map fst (foldl (λ groups d, add_to_group (key d) d groups) acc docs)).
Proof.
  revert acc. induction docs as [|d docs IH]; intros acc Hacc; simpl; [done|].
  apply IH. rewrite keys_add_to_group. case_decide; [done|].
  apply NoDup_app. split_and!; [done | | apply NoDup_singleton].
  intros x Hx Hxk. apply list_elem_of_singleton in Hxk. by subst.
Qed.

Lemma group_find_elem (k : K) (ds : list A) (groups : list (K * list A)) :
  NoDup (map fst groups) → (k, ds) ∈ groups → group_find k groups = ds.
Proof.
  induction groups as [|[k0 ds0] rest IH]; simpl; intros Hnd Hin.
  - by apply elem_of_nil in Hin.
  - apply NoDup_cons in Hnd as [Hk0 Hnd]. apply elem_of_cons in Hin as [[= -> ->] | Hin].
    + by rewrite decide_True.
    + rewrite decide_False; [by apply IH|]. intros ->. apply Hk0.
      apply list_elem_of_In, in_map_iff. exists (k0, ds). split; [done|].
      by apply list_elem_of_In.
Qed.

(** A group holds the documents of its key, in the order of the input. *)
Lemma group_docs_elem (key : A → K) (docs : list A) k ds :
  (k, ds) ∈ group_docs key docs →
  ds = List.filter (λ d, bool_decide (key d = k)) docs.
Proof.
  intros Hin. rewrite <- (group_find_elem k ds (group_docs key docs)).
  - unfold group_docs. by rewrite group_find_foldl.
  - apply NoDup_keys_foldl_add. constructor.
  - done.
Qed.

Lemma group_docs_keys (key : A → K) (docs : list A) k :
  k ∈ map fst (group_docs key docs) ↔ k ∈ map key docs.
Proof.
  unfold group_docs. rewrite keys_foldl_add. simpl.
  split; [intros [Hin|?]; [by apply elem_of_nil in Hin | done] | by right].
Qed.

Lemma NoDup_keys_group_docs (key : A → K) (docs : list A) :
  NoDup (map fst (group_docs key docs)).
Proof. apply NoDup_keys_foldl_add. constructor. Qed.

End GroupDocs.

Lemma perf_row_Some s g row :
  perf_row s g = Some row →
  g.1 = Some (PerfRow.userId row)
  ∧ is_Some (users s !! PerfRow.userId row)
  ∧ PerfRow.tasksTotal row = length g.2
  ∧ PerfRow.tasksCompleted row
    = length (List.filter (λ t, bool_decide (Task.status t = done)) g.2)
  ∧ PerfRow.tasksInProgress row
    = length (List.filter (λ t, bool_decide (Task.status t = in_progress)) g.2).
Proof.
  unfold perf_row. destruct g as [[id|] ds]; simpl; [|done].
  destruct (users s !! id) as [user|] eqn:Hu; [|done].
  intros [= <-]. simpl. rewrite Hu. eauto.
Qed.

Lemma NoDup_perf_rows s (groups : list (option string * list Task.t)) :
  NoDup (map fst groups) →
  NoDup (map PerfRow.userId (omap (perf_row s) groups)).
Proof.
  induction groups as [|g rest IH]; simpl; intros Hnd; [constructor|].
  apply NoDup_cons in Hnd as [Hg Hnd].
  destruct (perf_row s g) as [row|] eqn:Hrow; simpl; [|by apply IH].
  apply NoDup_cons. split; [|by apply IH].
  intros Hin. apply Hg.
  apply list_elem_of_In, in_map_iff in Hin as (row' & Hid & Hin).
  apply list_elem_of_In, list_elem_of_omap in Hin as (g' & Hg' & Hrow').
  apply perf_row_Some in Hrow as [Hk _], Hrow' as [Hk' _].
  apply list_elem_of_In, in_map_iff. exists g'. split; [|by apply list_elem_of_In].
  congruence.
Qed.

Lemma insert_by_sorted {X} (le : X → X → bool) x (l : list X) :
  (∀ a b, le a b = false → le b a = true) →
  (∀ a b c, le a b = true → le b c = true → le a c = true) →
  StronglySorted (λ a b, le a b = true) l →
  StronglySorted (λ a b, le a b = true) (insert_by le x l).
Proof.
  intros Htotal Htrans. induction 1 as [|y rest Hrest IH Hall]; simpl.
  - repeat constructor.
  - destruct (le x y) eqn:Hxy.
    + constructor; [by constructor|]. constructor; [done|].
      eapply Forall_impl; [exact Hall|]. intros z Hyz. by eapply Htrans.
    + constructor; [exact IH|].
      rewrite (insert_by_Permutation le x rest).
      constructor; [by apply Htotal | done].
Qed.

Lemma sort_by_sorted {X} (le : X → X → bool) (l : list X) :
  (∀ a b, le a b = false → le b a = true) →
  (∀ a b c, le a b = true → le b c = true → le a c = true) →
  StronglySorted (λ a b, le a b = true) (sort_by le l).
Proof.
  intros Htotal Htrans. induction l as [|x rest IH]; simpl; [constructor|].
  by apply insert_by_sorted.
Qed.


Lemma StronglySorted_map {X Y} (f : X → Y) (R : X → X → Prop) (R' : Y → Y → Prop)
    (l : list X) :
  (∀ a b, R a b → R' (f a) (f b)) →
  StronglySorted R l → StronglySorted R' (map f l).
Proof.
  intros Hf. induction 1 as [|x rest Hrest IH Hall]; simpl; constructor; [done|].
  apply Forall_map. eapply Forall_impl; [exact Hall|]. intros y. apply Hf.
Qed.

Lemma elem_of_map {X Y} (f : X → Y) (l : list X) y :
  y ∈ map f l ↔ ∃ x, y = f x ∧ x ∈ l.
Proof.
  rewrite list_elem_of_In, in_map_iff. setoid_rewrite list_elem_of_In.
  split; intros (x & ? & ?); by exists x.
Qed.

Lemma length_filter_pos {X} (f : X → bool) (l : list X) :
  (0 < length (List.filter f l))%nat ↔ ∃ x, x ∈ l ∧ f x = true.
Proof.
  split.
  - destruct (List.filter f l) as [|x rest] eqn:Hl; simpl; [lia|]. intros _.
    assert (In x (List.filter f l)) as Hin by (rewrite Hl; by left).
    apply filter_In in Hin as [Hin Hf]. exists x. by rewrite list_elem_of_In.
  - intros (x & Hin & Hf).
    assert (In x (List.filter f l)) as Hin'.
    { apply filter_In. by rewrite <- list_elem_of_In. }
    destruct (List.filter f l); [destruct Hin' | simpl; lia].
Qed.

Lemma filter_true {X} (l : list X) : List.filter (λ _, true) l = l.
Proof. induction l as [|x l IH]; simpl; [done | by rewrite IH]. Qed.

(** The key of the [$group] stage on a matched task is its assignee. *)
Lemma assignee_key (t : Task.t) (id : string) :
  bool_decide (Task.assignedToId t ≠ None)
  && bool_decide (default None (Task.assignedToId t) = Some id)
  = assigned_to t id.
Proof.
  unfold assigned_to. destruct (Task.assignedToId t) as [[a|]|]; simpl.
  all: repeat case_bool_decide; simpl in *; try done; congruence.
Qed.

Lemma team_group_count s matchCriteria id (sel : Task.t → bool) :
  length
    (List.filter sel
       (List.filter (λ t, bool_decide (default None (Task.assignedToId t) = Some id))
          (List.filter
             (λ t, match matchCriteria with
                   | Some projectId => bool_decide (Task.projectId t = projectId)
                   | None => true
                   end
                   && bool_decide (Task.assignedToId t ≠ None))
             (task_docs s))))
  = tasks_in_scope matchCriteria id s sel.
Proof.
  rewrite !length_filter_filter. unfold tasks_in_scope.
  rewrite (count_docs_task_docs
             (λ t, match matchCriteria with
                   | Some projectId => bool_decide (Task.projectId t = projectId)
                   | None => true
                   end
                   && assigned_to t id && sel t)).
  f_equal. apply List.filter_ext. intros t.
  rewrite <- (assignee_key t id). by rewrite !andb_assoc.
Qed.

(** X21. The rows of [getTeamPerformance].  There is one row for each
    user who has a user document and at least one task in scope assigned
    to them, and no other row: unassigned tasks and assignees without a
    user document are left out.  In a row [tasksTotal], [tasksCompleted]
    and [tasksInProgress] are the numbers of the user's tasks in scope, of
    those that are done and of those in progress, so the last two sum to at
    most the first.  The rows come by decreasing [tasksCompleted]. *)
Theorem team_performance_rows s matchCriteria :
  let rows := team_performance s matchCriteria in
  NoDup (map Performance.userId rows)
  ∧ (∀ row, row ∈ rows →
       let uid := Performance.userId row in
       is_Some (users s !! uid)
       ∧ Performance.tasksTotal row = tasks_in_scope matchCriteria uid s (λ _, true)
       ∧ (0 < Performance.tasksTotal row)%nat
       ∧ Performance.tasksCompleted row
         = tasks_in_scope matchCriteria uid s (λ t, bool_decide (Task.status t = done))
       ∧ Performance.tasksInProgress row
         = tasks_in_scope matchCriteria uid s
             (λ t, bool_decide (Task.status t = in_progress))
       ∧ (Performance.tasksCompleted row + Performance.tasksInProgress row
          ≤ Performance.tasksTotal row)%nat)
  ∧ (∀ uid, is_Some (users s !! uid) →
            (0 < tasks_in_scope matchCriteria uid s (λ _, true))%nat →
            uid ∈ map Performance.userId rows)
  ∧ StronglySorted
      (λ a b, (Performance.tasksCompleted b ≤ Performance.tasksCompleted a)%nat) rows.
Proof.
  intros rows. subst rows. unfold team_performance.
  set (matched := List.filter _ (task_docs s)).
  set (key := λ t : Task.t, default None (Task.assignedToId t)).
  set (groups := group_docs key matched).
  assert (∀ g row, g ∈ groups → perf_row s g = Some row →
            let uid := PerfRow.userId row in
            is_Some (users s !! uid)
            ∧ PerfRow.tasksTotal row = tasks_in_scope matchCriteria uid s (λ _, true)
            ∧ (0 < PerfRow.tasksTotal row)%nat
            ∧ PerfRow.tasksCompleted row
              = tasks_in_scope matchCriteria uid s
                  (λ t, bool_decide (Task.status t = done))
            ∧ PerfRow.tasksInProgress row
              = tasks_in_scope matchCriteria uid s
                  (λ t, bool_decide (Task.status t = in_progress))) as Hrow.
  { intros [k ds] row Hg Hrow uid.
    apply perf_row_Some in Hrow as (Hk & Huser & Htotal & Hdone & Hprog).
    simpl in Hk, Htotal, Hdone, Hprog. fold uid in Hk, Huser. subst k.
    pose proof (group_docs_elem key matched _ _ Hg) as Hds.
    assert (PerfRow.tasksTotal row = tasks_in_scope matchCriteria uid s (λ _, true))
      as Htotal'.
    { rewrite Htotal, Hds, <- (team_group_count s matchCriteria uid (λ _, true)).
      fold matched. by rewrite filter_true. }
    split_and!; [done | done | | |].
    - rewrite Htotal, Hds. apply length_filter_pos.
      assert (Some uid ∈ map key matched) as Hin.
      { apply group_docs_keys. apply elem_of_map. by exists (Some uid, ds). }
      apply elem_of_map in Hin as (t & Hkey & Hin). exists t.
      split; [done|]. by apply bool_decide_eq_true_2.
    - rewrite Hdone, Hds. apply team_group_count.
    - rewrite Hprog, Hds. apply team_group_count. }
  split_and!.
  - rewrite map_map. cbn [performance_of Performance.userId].
    eapply NoDup_Permutation_proper.
    { apply Permutation_map, sort_by_Permutation. }
    apply NoDup_perf_rows, NoDup_keys_group_docs.
  - intros row Hin. cbv zeta.
    apply elem_of_map in Hin as (pr & -> & Hin).
    rewrite sort_by_Permutation in Hin.
    apply list_elem_of_omap in Hin as (g & Hg & Hpr).
    destruct (Hrow g pr Hg Hpr) as (Huser & Htotal & Hpos & Hdone & Hprog).
    cbn [performance_of Performance.userId Performance.tasksTotal
         Performance.tasksCompleted Performance.tasksInProgress].
    split_and!; try done.
    apply perf_row_Some in Hpr as (_ & _ & -> & -> & ->).
    clear. induction g.2 as [|t l IH]; simpl; [done|].
    destruct (Task.status t); simpl; lia.
  - intros uid Huser Hpos.
    rewrite <- (team_group_count s matchCriteria uid (λ _, true)) in Hpos.
    apply length_filter_pos in Hpos as (t & Hin & _).
    apply list_elem_of_In, filter_In in Hin as [Hin Hkey].
    apply bool_decide_eq_true in Hkey. fold matched in Hin.
    assert (Some uid ∈ map fst groups) as Hgroup.
    { apply group_docs_keys, elem_of_map. exists t. split; [done|].
      by apply list_elem_of_In. }
    apply elem_of_map in Hgroup as ([k ds] & Hk & Hg). simpl in Hk. subst k.
    destruct Huser as [user Huser].
    assert (∃ pr, perf_row s (Some uid, ds) = Some pr ∧ PerfRow.userId pr = uid)
      as (pr & Hpr & Hid).
    { unfold perf_row. simpl. rewrite Huser. eauto. }
    rewrite map_map. apply elem_of_map. exists pr. split; [by rewrite <- Hid|].
    rewrite sort_by_Permutation. apply list_elem_of_omap. eauto.
  - apply (StronglySorted_map performance_of (λ a b, more_completed a b = true)).
    + intros a b Hab. cbn [performance_of Performance.tasksCompleted].
      by apply Nat.leb_le in Hab.
    + apply sort_by_sorted.
      * intros a b Hab. unfold more_completed in *.
        apply Nat.leb_gt in Hab. apply Nat.leb_le. lia.
      * intros a b c Hab Hbc. unfold more_completed in *.
        apply Nat.leb_le in Hab, Hbc. apply Nat.leb_le. lia.
Qed.


(* ===================================================================== *)
(** * The priority distribution *)
(* ===================================================================== *)

Lemma cell_get_set o k n :
  k.2 ≠ done →
  default 0%nat (row_get (distribution_get (set_cell o (k, n)) k.1) k.2) = n.
Proof. destruct o as [[] [] []], k as [[] []]; simpl; done. Qed.

Lemma cell_get_set_other o k n k' :
  k' ≠ k →
  default 0%nat (row_get (distribution_get (set_cell o (k, n)) k'.1) k'.2)
  = default 0%nat (row_get (distribution_get o k'.1) k'.2).
Proof. destruct o as [[] [] []], k as [[] []], k' as [[] []]; simpl; done. Qed.

(** X22. In the object that [getPriorityDistribution] returns, the entry
    for a priority and a status other than [done] is the number of tasks
    with that priority and that status, 0 when there is none; tasks that
    are done are counted nowhere. *)
Theorem getPriorityDistribution_cell s p st :
  st ≠ done →
  row_get (distribution_get (getPriorityDistribution s) p) st
  = Some (tasks_with p st s).
Proof.
  intros Hst.
  pose proof (get_foldl_set_groups
                (λ d k, default 0%nat (row_get (distribution_get d k.1) k.2))
                set_cell (λ k, k.2 ≠ done) cell_get_set cell_get_set_other
                (λ t, (Task.priority t, Task.status t))
                (List.filter (λ t, negb (bool_decide (Task.status t = done)))
                   (task_docs s))
                (sort_by distribution_order
                   (group_count (λ t, (Task.priority t, Task.status t))
                      (List.filter (λ t, negb (bool_decide (Task.status t = done)))
                         (task_docs s))))
                (Distribution.mk (StatusRow.mk 0 0 0) (StatusRow.mk 0 0 0)
                   (StatusRow.mk 0 0 0))
                (p, st) Hst) as Hcell.
  cbn [fst snd] in Hcell. fold (getPriorityDistribution s) in Hcell.
  assert (tasks_with p st s
          = length
              (List.filter (λ d, bool_decide ((Task.priority d, Task.status d) = (p, st)))
                 (List.filter (λ t, negb (bool_decide (Task.status t = done)))
                    (task_docs s)))) as ->.
  { rewrite length_filter_filter. unfold tasks_with.
    rewrite (count_docs_task_docs
               (λ t, bool_decide (Task.priority t = p)
                     && bool_decide (Task.status t = st))).
    f_equal. apply List.filter_ext. intros t.
    repeat case_bool_decide; simpl; try done; simplify_eq; try done.
    all: exfalso; auto. }
  rewrite <- Hcell.
  - by destruct st.
  - by destruct p, st.
  - apply sort_by_Permutation.
Qed.

Lemma getPriorityDistribution_cell_witness :
  row_get (distribution_get (getPriorityDistribution Sample2.three_tasks) high) review
  = Some (tasks_with high review Sample2.three_tasks).
Proof. apply (getPriorityDistribution_cell Sample2.three_tasks high review). discriminate. Defined.


(* ===================================================================== *)
(** * Who may read the reports *)
(* ===================================================================== *)

(** X23. [aggregations.getProjectStatistics] writes nothing; it returns
    exactly for a logged-in caller and an existing project that the caller
    owns, is on the team of, or is an admin; what it returns is the report
    of that project; and a logged-in caller gets not-found exactly when
    there is no such project. *)
Theorem aggregations_getProjectStatistics_access this_userId projectId s :
  let r := aggregations_getProjectStatistics this_userId projectId s in
  r.2 = s
  ∧ (thrown r.1 = None
     ↔ ∃ uid p,
         this_userId = Some uid ∧ uid ≠ ""
         ∧ projects s !! projectId = Some p
         ∧ (Project.ownerId p = uid
            ∨ uid ∈ Project.teamMemberIds p
            ∨ role_of (users s !! uid) = Some admin))
  ∧ (thrown r.1 = None → r.1 = Ok (getProjectStatistics s projectId))
  ∧ (thrown r.1 = Some not_found
     ↔ falsy_id this_userId = false ∧ projects s !! projectId = None).
Proof.
  intros r. subst r. unfold aggregations_getProjectStatistics. unfold_m.
  destruct (falsy_id this_userId) eqn:Hid; cbn [fst snd thrown].
  { split_and!; try done.
    - split; [done|]. intros (uid & p & -> & Hne & _).
      rewrite falsy_id_Some in Hid by done. discriminate.
    - split; [done | by intros [? _]]. }
  apply falsy_id_false in Hid as (uid & -> & Hne & _).
  change (default "" (Some uid)) with uid.
  destruct (projects s !! projectId) as [p|] eqn:Hp; cbn [fst snd thrown].
  2: { split_and!; try done. split; [done|]. by intros (? & ? & _ & _ & ? & _). }
  destruct (negb _ && negb _) eqn:Hgate; cbn [fst snd thrown].
  - apply andb_true_iff in Hgate as [Haccess Hadmin].
    apply negb_true_iff in Haccess, Hadmin.
    apply orb_false_iff in Haccess as [Hown Hteam].
    apply bool_decide_eq_false in Hown, Hteam. apply is_admin_false in Hadmin.
    split_and!; try done.
    + split; [done|]. intros (uid' & p' & [= <-] & _ & [= <-] & [?|[?|?]]); done.
    + split; [done | by intros [_ ?]].
  - apply andb_false_iff in Hgate.
    split_and!; try done.
    + split; [intros _|done]. exists uid, p. split_and!; try done.
      destruct Hgate as [Haccess | Hadmin].
      * apply negb_false_iff, orb_true_iff in Haccess as [H|H];
          apply bool_decide_eq_true in H; auto.
      * apply negb_false_iff, is_admin_true in Hadmin. auto.
    + split; [done | by intros [_ ?]].
Qed.

(** X24. [aggregations.getTeamPerformance] writes nothing, and for a
    [projectId] that is a non-empty string or is falsy it returns exactly
    for a logged-in caller whose role is not [member]: a caller without a
    profile, or without a user document, is let through like a manager.
    What it returns is the report over that project, or over all tasks
    when [projectId] is falsy. *)
Theorem aggregations_getTeamPerformance_access this_userId projectId s :
  let r := aggregations_getTeamPerformance this_userId projectId s in
  r.2 = s
  ∧ (thrown r.1 = None
     ↔ (js_truthy projectId = true → is_Some (Match.String_ projectId))
       ∧ falsy_id this_userId = false
       ∧ role_of (users s !! default "" this_userId) ≠ Some member)
  ∧ (thrown r.1 = None →
     r.1 = Ok (team_performance s
                 (if js_truthy projectId then Match.String_ projectId else None))).
Proof.
  intros r. subst r.
  unfold aggregations_getTeamPerformance, getTeamPerformance. unfold_m.
  destruct (js_truthy projectId) eqn:Htruthy.
  - destruct (Match.String_ projectId) as [p|] eqn:Hstring; cbn [fst snd thrown].
    2: { split_and!; try done. split; [done|]. intros [H _].
         by destruct (H eq_refl). }
    destruct (falsy_id this_userId) eqn:Hid; cbn [fst snd thrown].
    { split_and!; try done. split; [done | by intros (_ & ? & _)]. }
    case_bool_decide as Hrole; cbn [fst snd thrown].
    + split_and!; try done. split; [done | by intros (_ & _ & ?)].
    + split_and!; try done.
  - destruct (falsy_id this_userId) eqn:Hid; cbn [fst snd thrown].
    { split_and!; try done. split; [done | by intros (_ & ? & _)]. }
    case_bool_decide as Hrole; cbn [fst snd thrown].
    + split_and!; try done. split; [done | by intros (_ & _ & ?)].
    + split_and!; try done.
Qed.

(* ===================================================================== *)
(** * Strings and numbers as JavaScript has them *)
(* ===================================================================== *)

(** [trim] strips white space of every width (here a no-break space, an
    ideographic space, a tab and a line separator), and [length] counts
    UTF-16 code units: one for an accented letter, two for an emoji. *)
Example trim_and_length :
  trim ("ab" ++ bytes [194; 160]) = "ab"
  ∧ trim (bytes [227; 128; 128] ++ " a b" ++ bytes [9; 226; 128; 168]) = "a b"
  ∧ js_length (bytes [195; 169]) = 1%nat
  ∧ js_length (bytes [240; 159; 152; 128]) = 2%nat.
Proof. split_and!; reflexivity. Qed.

(** A title or a name of two letters and a no-break space is too short. *)
Example padded_title_rejected :
  (tasks_insert (Some "max") 10 "t1"
     (VObj [("projectId", VStr "p1"); ("title", VStr ("ab" ++ bytes [194; 160]));
            ("description", VStr ""); ("priority", VStr "high");
            ("tags", VArr [])]) Sample.empty_store).1
  = Throw validation_error
  ∧ (projects_insert (Some "max") 40 "p2"
       (VObj [("name", VStr ("ab" ++ bytes [194; 160])); ("description", VStr "");
              ("teamMemberIds", VArr []); ("status", VStr "active");
              ("tags", VArr [])]) Sample.empty_store).1
    = Throw validation_error.
Proof. split; by vm_compute. Qed.

(** Hours add up as doubles do: a tenth and two tenths make
    0.30000000000000004, which is not three tenths. *)
Example logged_hours_are_doubles :
  let tenth := Num.div (Num.of_Z 1) (Num.of_Z 10) in
  let fifth := Num.div (Num.of_Z 2) (Num.of_Z 10) in
  let s1 := (tasks_logTime (Some "mia") 30 "t1" tenth Sample.one_task).2 in
  let s2 := (tasks_logTime (Some "mia") 31 "t1" fifth s1).2 in
  (Task.actualHours <$> tasks s2 !! "t1") = Some (Some (Num.add tenth fifth))
  ∧ Num.add tenth fifth = S754_finite false 5404319552844596 (-54)
  ∧ Num.div (Num.of_Z 3) (Num.of_Z 10) = S754_finite false 5404319552844595 (-54).
Proof. cbv zeta. split_and!; by vm_compute. Qed.

(* ===================================================================== *)
(** * Rounding to a double *)
(* ===================================================================== *)

(** The number of binary digits of a positive integer. *)
Lemma digits2_pos_bounds p :
  2 ^ (Z.pos (digits2_pos p) - 1) ≤ Z.pos p < 2 ^ Z.pos (digits2_pos p).
Proof.
  induction p as [p IH | p IH |]; simpl digits2_pos.
  - rewrite Pos2Z.inj_succ.
    replace (Z.succ (Z.pos (digits2_pos p)) - 1) with (Z.succ (Z.pos (digits2_pos p) - 1))
      by lia.
    rewrite !Z.pow_succ_r by lia. lia.
  - rewrite Pos2Z.inj_succ.
    replace (Z.succ (Z.pos (digits2_pos p)) - 1) with (Z.succ (Z.pos (digits2_pos p) - 1))
      by lia.
    rewrite !Z.pow_succ_r by lia. lia.
  - simpl. lia.
Qed.

Lemma Zdigits2_unique z d :
  0 < z → 2 ^ (d - 1) ≤ z < 2 ^ d → Zdigits2 z = d.
Proof.
  intros Hz [Hlo Hhi]. destruct z as [|p|p]; try lia. simpl.
  pose proof (digits2_pos_bounds p) as [Hlo' Hhi'].
  set (d' := Z.pos (digits2_pos p)) in *.
  assert (0 < d) as Hd.
  { destruct (Z.lt_trichotomy d 0) as [Hneg | [-> | Hpos]]; [| simpl in Hhi; lia | done].
    rewrite (Z.pow_neg_r 2 d Hneg) in Hhi. lia. }
  destruct (Z.lt_trichotomy d d') as [Hlt | [Heq | Hgt]]; [|done|].
  - assert (2 ^ d ≤ 2 ^ (d' - 1)) by (apply Z.pow_le_mono_r; lia). lia.
  - assert (2 ^ d' ≤ 2 ^ (d - 1)) by (apply Z.pow_le_mono_r; lia). lia.
Qed.

Lemma iter_pos_nat {A} (f : A → A) p x :
  SpecFloat.iter_pos f p x = Nat.iter (Pos.to_nat p) f x.
Proof.
  revert x. induction p as [p IH | p IH |]; intros x; simpl SpecFloat.iter_pos.
  - rewrite !IH. rewrite Pos2Nat.inj_xI.
    replace (S (2 * Pos.to_nat p)) with (Pos.to_nat p + (Pos.to_nat p + 1))%nat by lia.
    rewrite !Nat.iter_add. simpl. reflexivity.
  - rewrite !IH. rewrite Pos2Nat.inj_xO.
    replace (2 * Pos.to_nat p)%nat with (Pos.to_nat p + Pos.to_nat p)%nat by lia.
    by rewrite Nat.iter_add.
  - reflexivity.
Qed.

Lemma shr_1_m mrs : 0 ≤ shr_m mrs → shr_m (shr_1 mrs) = shr_m mrs / 2.
Proof.
  destruct mrs as [m r s]. simpl. intros Hm.
  destruct m as [|[p|p|]|p]; simpl; try lia; try reflexivity.
  - rewrite <- Z.div2_div. reflexivity.
  - rewrite <- Z.div2_div. reflexivity.
Qed.

Lemma shr_m_iter n mrs :
  0 ≤ shr_m mrs →
  shr_m (Nat.iter n shr_1 mrs) = shr_m mrs / 2 ^ Z.of_nat n.
Proof.
  intros Hm. induction n as [|n IH].
  - simpl. by rewrite Z.div_1_r.
  - rewrite Nat.iter_succ, shr_1_m, IH.
    + rewrite Nat2Z.inj_succ, Z.pow_succ_r by lia.
      rewrite Z.div_div by lia. f_equal. lia.
    + rewrite IH. apply Z.div_pos; lia.
Qed.

Lemma shr_m_of_loc m l : shr_m (shr_record_of_loc m l) = m.
Proof. by destruct l as [|[]]. Qed.

Lemma round_nearest_even_bounds m l :
  m ≤ round_nearest_even m l ≤ m + 1.
Proof. destruct l as [|[]]; simpl; try destruct (Z.even m); lia. Qed.

Lemma fexp_normal e :
  -1074 ≤ e - 53 → fexp Num.prec Num.emax e = e - 53.
Proof. unfold fexp, emin, Num.prec, Num.emax. lia. Qed.

(** The first step of a rounding: the mantissa is cut down to 53 digits. *)
Lemma shr_fexp_spec m e l d :
  0 < m → Zdigits2 m = d → 53 ≤ d → -1074 ≤ e + d - 53 →
  ∃ mrs, shr_fexp Num.prec Num.emax m e l = (mrs, e + (d - 53))
         ∧ shr_m mrs = m / 2 ^ (d - 53).
Proof.
  intros Hm Hd Hd53 He. unfold shr_fexp. rewrite Hd.
  rewrite fexp_normal by lia.
  replace (d + e - 53 - e) with (d - 53) by lia.
  destruct (d - 53) as [|p|p] eqn:Hsh; try lia.
  - simpl. eexists. split; [by rewrite Z.add_0_r|].
    rewrite shr_m_of_loc. by rewrite Z.div_1_r.
  - simpl. eexists. split; [reflexivity|].
    rewrite iter_pos_nat, shr_m_iter, shr_m_of_loc by (rewrite shr_m_of_loc; lia).
    by rewrite positive_nat_Z.
Qed.

(** Rounding is faithful: from a mantissa [mx] of at least 53 digits, in
    the range of the normal doubles, the result is a double whose mantissa
    is the one of [mx] cut down to 53 digits, or the next. *)
Lemma binary_round_aux_faithful sx mx ex lx d :
  0 < mx → Zdigits2 mx = d → 53 ≤ d →
  -1074 ≤ ex + d - 53 → ex + d - 53 < 971 →
  ∃ m n, binary_round_aux Num.prec Num.emax sx mx ex lx = S754_finite sx m (ex + n)
         ∧ d - 53 ≤ n ≤ d - 52
         ∧ mx / 2 ^ n ≤ Z.pos m ≤ mx / 2 ^ n + 1
         ∧ 2 ^ 52 ≤ Z.pos m < 2 ^ 53.
Proof.
  intros Hmx Hd Hd53 Hlo Hhi. unfold binary_round_aux.
  destruct (shr_fexp_spec mx ex lx d Hmx Hd Hd53 Hlo) as (mrs & -> & Hm1).
  pose proof (round_nearest_even_bounds (shr_m mrs) (loc_of_shr_record mrs)) as Hm2.
  set (m2 := round_nearest_even (shr_m mrs) (loc_of_shr_record mrs)) in *.
  set (m1 := shr_m mrs) in *.
  assert (2 ^ 52 ≤ m1 < 2 ^ 53) as Hm1b.
  { rewrite Hm1.
    assert (2 ^ (d - 1) ≤ mx < 2 ^ d) as [Hl Hu].
    { destruct mx as [|p|p]; try lia. simpl in Hd. subst d.
      apply digits2_pos_bounds. }
    assert (2 ^ (d - 1) = 2 ^ 52 * 2 ^ (d - 53)) as E1
      by (rewrite <- Z.pow_add_r by lia; f_equal; lia).
    assert (2 ^ d = 2 ^ 53 * 2 ^ (d - 53)) as E2
      by (rewrite <- Z.pow_add_r by lia; f_equal; lia).
    assert (0 < 2 ^ (d - 53)) by (apply Z.pow_pos_nonneg; lia).
    split.
    - apply Z.div_le_lower_bound; lia.
    - apply Z.div_lt_upper_bound; lia. }
  destruct (Z.lt_ge_cases m2 (2 ^ 53)) as [Hsmall | Hcarry].
  - (* no carry *)
    destruct (shr_fexp_spec m2 (ex + (d - 53)) loc_Exact 53) as (mrs2 & -> & Hm3);
      [lia | apply Zdigits2_unique; lia | lia | lia |].
    replace (53 - 53) with 0 in * by lia. rewrite Z.div_1_r in Hm3.
    rewrite Hm3. destruct m2 as [|m|m] eqn:Em2; try lia.
    replace (ex + (d - 53) + 0 <=? Num.emax - Num.prec) with true
      by (symmetry; apply Z.leb_le; unfold Num.emax, Num.prec; lia).
    exists m, (d - 53). split; [f_equal; lia|].
    split; [lia|]. split; [|lia]. rewrite <- Hm1. lia.
  - (* the mantissa was all ones and is now 2^53 *)
    assert (m2 = 2 ^ 53) as Em2 by lia.
    destruct (shr_fexp_spec m2 (ex + (d - 53)) loc_Exact 54) as (mrs2 & -> & Hm3);
      [lia | apply Zdigits2_unique; [lia | rewrite Em2; simpl; lia] | lia | lia |].
    rewrite Hm3, Em2. change (2 ^ 53 / 2 ^ (54 - 53)) with (Z.pos (2 ^ 52)%positive).
    replace (ex + (d - 53) + (54 - 53) <=? Num.emax - Num.prec) with true
      by (symmetry; apply Z.leb_le; unfold Num.emax, Num.prec; lia).
    exists (2 ^ 52)%positive, (d - 52). split; [f_equal; lia|].
    split; [lia|]. split; [|simpl; lia].
    replace (d - 52) with ((d - 53) + 1) by lia.
    rewrite Z.pow_add_r by lia. rewrite <- Z.div_div by (try apply Z.pow_pos_nonneg; lia).
    rewrite <- Hm1. fold m1. assert (m1 = 2 ^ 53 - 1) as -> by lia.
    assert ((2 ^ 53 - 1) / 2 ^ 1 = 2 ^ 52 - 1) as -> by reflexivity.
    change (Z.pos (2 ^ 52)) with (2 ^ 52). lia.
Qed.


(** A mantissa of exactly 53 digits is kept as it is. *)
Lemma binary_round_aux_exact sx m ex :
  2 ^ 52 ≤ Z.pos m < 2 ^ 53 → -1074 ≤ ex ≤ 971 →
  binary_round_aux Num.prec Num.emax sx (Z.pos m) ex loc_Exact = S754_finite sx m ex.
Proof.
  intros Hm Hex.
  assert (Zdigits2 (Z.pos m) = 53) as Hd by (apply Zdigits2_unique; lia).
  unfold binary_round_aux, shr_fexp. rewrite Hd, fexp_normal by lia.
  replace (53 + ex - 53 - ex) with 0 by lia. cbn [shr shr_record_of_loc shr_m
    loc_of_shr_record round_nearest_even]. rewrite Hd, fexp_normal by lia.
  replace (53 + ex - 53 - ex) with 0 by lia. cbn [shr shr_record_of_loc shr_m].
  replace (ex <=? Num.emax - Num.prec) with true
    by (symmetry; apply Z.leb_le; unfold Num.emax, Num.prec; lia).
  reflexivity.
Qed.

Lemma iter_xO p q : Z.pos (Pos.iter xO p q) = Z.pos p * 2 ^ Z.pos q.
Proof.
  induction q as [|q IH] using Pos.peano_ind.
  - simpl. lia.
  - rewrite Pos.iter_succ, Pos2Z.inj_xO, IH, Pos2Z.inj_succ, Z.pow_succ_r by lia. lia.
Qed.

(** An integer below [2^53] is a double: [of_Z] gives it with a mantissa of
    53 digits. *)
Lemma of_Z_pos z :
  0 < z < 2 ^ 53 →
  ∃ m K, Num.of_Z z = S754_finite false m (- K)
         ∧ 0 ≤ K ≤ 52
         ∧ Z.pos m = z * 2 ^ K
         ∧ 2 ^ 52 ≤ Z.pos m < 2 ^ 53
         ∧ 2 ^ (52 - K) ≤ z < 2 ^ (53 - K).
Proof.
  intros Hz. destruct z as [|p|p]; try lia.
  unfold Num.of_Z, binary_normalize, binary_round.
  pose proof (digits2_pos_bounds p) as [Hlo Hhi].
  set (d := Z.pos (digits2_pos p)) in *.
  assert (1 ≤ d ≤ 53) as Hd.
  { split; [subst d; lia|].
    destruct (Z.le_gt_cases d 53) as [|Hgt]; [done|].
    assert (2 ^ 53 ≤ 2 ^ (d - 1)) by (apply Z.pow_le_mono_r; lia). lia. }
  rewrite Z.add_0_r, fexp_normal by lia.
  unfold shl_align. rewrite Z.sub_0_r.
  destruct (d - 53) as [|q|q] eqn:Hq; try lia.
  - assert (d = 53) as Ed by lia. rewrite Ed in *.
    rewrite binary_round_aux_exact by lia.
    exists p, 0. split_and!; try done; simpl; lia.
  - pose proof (iter_xO p q) as Hm.
    assert (Z.pos q = 53 - d) as Eq by lia.
    assert (2 ^ 53 = 2 ^ d * 2 ^ Z.pos q) as E1
      by (rewrite <- Z.pow_add_r by lia; f_equal; lia).
    assert (2 ^ 52 = 2 ^ (d - 1) * 2 ^ Z.pos q) as E2
      by (rewrite <- Z.pow_add_r by lia; f_equal; lia).
    assert (0 < 2 ^ Z.pos q) by (apply Z.pow_pos_nonneg; lia).
    rewrite binary_round_aux_exact by nia.
    exists (Pos.iter xO p q), (Z.pos q). split_and!; try done; try nia.
    + replace (52 - Z.pos q) with (d - 1) by lia. done.
    + replace (53 - Z.pos q) with d by lia. done.
Qed.

(** The quotient of two doubles between which the exponents differ by at
    most 52, the divisor having the larger: the result is a double within
    one unit in the last place of the quotient. *)
Lemma div_pos ma Ka mb Kb :
  2 ^ 52 ≤ Z.pos ma < 2 ^ 53 → 2 ^ 52 ≤ Z.pos mb < 2 ^ 53 →
  0 ≤ Kb → Kb ≤ Ka → Ka ≤ 52 →
  ∃ mq Kq,
    Num.div (S754_finite false ma (- Ka)) (S754_finite false mb (- Kb))
    = S754_finite false mq (- Kq)
    ∧ 2 ^ 52 ≤ Z.pos mq < 2 ^ 53
    ∧ 51 ≤ Kq ≤ 105
    ∧ Z.abs (Z.pos mq * Z.pos mb * 2 ^ Ka - Z.pos ma * 2 ^ Kb * 2 ^ Kq)
      ≤ Z.pos mb * 2 ^ Ka.
Proof.
  intros Hma Hmb HKb HKab HKa.
  unfold Num.div, SFdiv, SFdiv_core_binary.
  assert (Zdigits2 (Z.pos ma) = 53) as -> by (apply Zdigits2_unique; lia).
  assert (Zdigits2 (Z.pos mb) = 53) as -> by (apply Zdigits2_unique; lia).
  replace (53 + - Ka - (53 + - Kb)) with (Kb - Ka) by lia.
  rewrite fexp_normal by lia.
  replace (Z.min (Kb - Ka - 53) (- Ka - - Kb)) with (Kb - Ka - 53) by lia.
  replace (- Ka - - Kb - (Kb - Ka - 53)) with 53 by lia.
  rewrite Z.shiftl_mul_pow2 by lia.
  pose proof (Z_div_mod (Z.pos ma * 2 ^ 53) (Z.pos mb) eq_refl) as Hdiv.
  destruct (Z.div_eucl (Z.pos ma * 2 ^ 53) (Z.pos mb)) as [q r].
  destruct Hdiv as [Hqr Hr]. cbn [xorb].
  assert (2 ^ 52 ≤ q < 2 ^ 54) as Hq.
  { change (2 ^ 54) with (2 * 2 ^ 53). change (2 ^ 53) with (2 * 2 ^ 52) in *. nia. }
  destruct (Z.lt_ge_cases q (2 ^ 53)) as [Hq53 | Hq54].
  - destruct (binary_round_aux_faithful false q (Kb - Ka - 53)
                (new_location (Z.pos mb) r) 53)
      as (m & n & -> & Hn & Hm & Hmb');
      [lia | apply Zdigits2_unique; lia | lia | lia | lia |].
    exists m, (Ka - Kb + 53 - n). split; [f_equal; lia|].
    split; [done|]. split; [lia|].
    assert (n = 0 ∨ n = 1) as [-> | ->] by lia.
    + rewrite Z.div_1_r in Hm. replace (Ka - Kb + 53 - 0) with ((Ka - Kb) + 53) by lia.
      rewrite Z.pow_add_r by lia.
      assert (2 ^ Ka = 2 ^ Kb * 2 ^ (Ka - Kb)) as ->
        by (rewrite <- Z.pow_add_r by lia; f_equal; lia).
      assert (0 < 2 ^ Kb) by (apply Z.pow_pos_nonneg; lia).
      assert (0 < 2 ^ (Ka - Kb)) by (apply Z.pow_pos_nonneg; lia).
      set (B := 2 ^ Kb) in *. set (C := 2 ^ (Ka - Kb)) in *.
      replace (Z.pos m * Z.pos mb * (B * C) - Z.pos ma * B * (C * 2 ^ 53))
        with ((B * C) * (Z.pos m * Z.pos mb - Z.pos ma * 2 ^ 53)) by ring.
      rewrite Z.abs_mul, (Z.abs_eq (B * C)) by nia.
      rewrite (Z.mul_comm (Z.pos mb)). apply Z.mul_le_mono_nonneg_l; [nia|].
      apply Z.abs_le. nia.
    + replace (Ka - Kb + 53 - 1) with ((Ka - Kb) + 52) by lia.
      rewrite Z.pow_add_r by lia.
      assert (2 ^ Ka = 2 ^ Kb * 2 ^ (Ka - Kb)) as ->
        by (rewrite <- Z.pow_add_r by lia; f_equal; lia).
      assert (0 < 2 ^ Kb) by (apply Z.pow_pos_nonneg; lia).
      assert (0 < 2 ^ (Ka - Kb)) by (apply Z.pow_pos_nonneg; lia).
      set (B := 2 ^ Kb) in *. set (C := 2 ^ (Ka - Kb)) in *.
      replace (Z.pos m * Z.pos mb * (B * C) - Z.pos ma * B * (C * 2 ^ 52))
        with ((B * C) * (Z.pos m * Z.pos mb - Z.pos ma * 2 ^ 52)) by ring.
      rewrite Z.abs_mul, (Z.abs_eq (B * C)) by nia.
      rewrite (Z.mul_comm (Z.pos mb)). apply Z.mul_le_mono_nonneg_l; [nia|].
      change (2 ^ 1) with 2 in Hm.
      pose proof (Z_div_mod_eq_full q 2) as Hq2.
      pose proof (Z.mod_pos_bound q 2 eq_refl) as Hq2b.
      change (2 ^ 53) with (2 * 2 ^ 52) in Hqr.
      apply Z.abs_le. nia.
  - destruct (binary_round_aux_faithful false q (Kb - Ka - 53)
                (new_location (Z.pos mb) r) 54)
      as (m & n & -> & Hn & Hm & Hmb');
      [lia | apply Zdigits2_unique; lia | lia | lia | lia |].
    exists m, (Ka - Kb + 53 - n). split; [f_equal; lia|].
    split; [done|]. split; [lia|].
    assert (n = 1 ∨ n = 2) as [-> | ->] by lia.
    + replace (Ka - Kb + 53 - 1) with ((Ka - Kb) + 52) by lia.
      rewrite Z.pow_add_r by lia.
      assert (2 ^ Ka = 2 ^ Kb * 2 ^ (Ka - Kb)) as ->
        by (rewrite <- Z.pow_add_r by lia; f_equal; lia).
      assert (0 < 2 ^ Kb) by (apply Z.pow_pos_nonneg; lia).
      assert (0 < 2 ^ (Ka - Kb)) by (apply Z.pow_pos_nonneg; lia).
      set (B := 2 ^ Kb) in *. set (C := 2 ^ (Ka - Kb)) in *.
      replace (Z.pos m * Z.pos mb * (B * C) - Z.pos ma * B * (C * 2 ^ 52))
        with ((B * C) * (Z.pos m * Z.pos mb - Z.pos ma * 2 ^ 52)) by ring.
      rewrite Z.abs_mul, (Z.abs_eq (B * C)) by nia.
      rewrite (Z.mul_comm (Z.pos mb)). apply Z.mul_le_mono_nonneg_l; [nia|].
      change (2 ^ 1) with 2 in Hm.
      pose proof (Z_div_mod_eq_full q 2) as Hq2.
      pose proof (Z.mod_pos_bound q 2 eq_refl) as Hq2b.
      change (2 ^ 53) with (2 * 2 ^ 52) in Hqr.
      apply Z.abs_le. nia.
    + replace (Ka - Kb + 53 - 2) with ((Ka - Kb) + 51) by lia.
      rewrite Z.pow_add_r by lia.
      assert (2 ^ Ka = 2 ^ Kb * 2 ^ (Ka - Kb)) as ->
        by (rewrite <- Z.pow_add_r by lia; f_equal; lia).
      assert (0 < 2 ^ Kb) by (apply Z.pow_pos_nonneg; lia).
      assert (0 < 2 ^ (Ka - Kb)) by (apply Z.pow_pos_nonneg; lia).
      set (B := 2 ^ Kb) in *. set (C := 2 ^ (Ka - Kb)) in *.
      replace (Z.pos m * Z.pos mb * (B * C) - Z.pos ma * B * (C * 2 ^ 51))
        with ((B * C) * (Z.pos m * Z.pos mb - Z.pos ma * 2 ^ 51)) by ring.
      rewrite Z.abs_mul, (Z.abs_eq (B * C)) by nia.
      rewrite (Z.mul_comm (Z.pos mb)). apply Z.mul_le_mono_nonneg_l; [nia|].
      change (2 ^ 2) with 4 in Hm.
      pose proof (Z_div_mod_eq_full q 4) as Hq2.
      pose proof (Z.mod_pos_bound q 4 eq_refl) as Hq2b.
      change (2 ^ 53) with (4 * 2 ^ 51) in Hqr.
      apply Z.abs_le. nia.
Qed.


Lemma of_Z_100 : Num.of_Z 100 = S754_finite false (25 * 2 ^ 48) (- 46).
Proof. reflexivity. Qed.

(** The product of a double by 100, within one unit in the last place. *)
Lemma mul_100 mq Kq :
  2 ^ 52 ≤ Z.pos mq < 2 ^ 53 → 51 ≤ Kq ≤ 105 →
  ∃ mp Kp,
    Num.mul (S754_finite false mq (- Kq)) (Num.of_Z 100) = S754_finite false mp (- Kp)
    ∧ 2 ^ 52 ≤ Z.pos mp < 2 ^ 53
    ∧ 43 ≤ Kp ≤ 105
    ∧ Z.abs (Z.pos mp * 2 ^ Kq - 100 * Z.pos mq * 2 ^ Kp) ≤ 2 ^ Kq.
Proof.
  intros Hmq HKq. rewrite of_Z_100.
  unfold Num.mul, SFmul. cbn [xorb].
  rewrite Pos2Z.inj_mul.
  change (Z.pos (25 * 2 ^ 48)) with (25 * 2 ^ 48).
  set (P := Z.pos mq * (25 * 2 ^ 48)).
  assert (2 ^ 104 ≤ P < 2 ^ 106) as HP.
  { subst P. lia. }
  assert (∃ dP, Zdigits2 P = dP ∧ 105 ≤ dP ≤ 106) as (dP & HdP & HdPb).
  { destruct (Z.lt_ge_cases P (2 ^ 105)).
    - exists 105. split; [apply Zdigits2_unique; lia | lia].
    - exists 106. split; [apply Zdigits2_unique; lia | lia]. }
  destruct (binary_round_aux_faithful false P (- Kq + - 46) loc_Exact dP)
    as (m & n & -> & Hn & Hm & Hmb); [lia | done | lia | lia | lia |].
  exists m, (Kq + 46 - n). split; [f_equal; lia|].
  split; [done|]. split; [lia|].
  assert (0 < 2 ^ n) as Hn0 by (apply Z.pow_pos_nonneg; lia).
  assert (0 < 2 ^ (Kq + 46 - n)) as HKp0 by (apply Z.pow_pos_nonneg; lia).
  assert (2 ^ Kq * 2 ^ 46 = 2 ^ (Kq + 46 - n) * 2 ^ n) as Hpow
    by (rewrite <- !Z.pow_add_r by lia; f_equal; lia).
  assert (0 < 2 ^ Kq) as HKq0 by (apply Z.pow_pos_nonneg; lia).
  pose proof (Z_div_mod_eq_full P (2 ^ n)) as HPn.
  pose proof (Z.mod_pos_bound P (2 ^ n) Hn0) as HPnb.
  set (U := 2 ^ Kq) in *. set (V := 2 ^ (Kq + 46 - n)) in *. set (N := 2 ^ n) in *.
  set (t := P mod N) in *. set (m1 := P / N) in *.
  assert ((Z.pos m * U - 100 * Z.pos mq * V) * (N * 2 ^ 46)
          = U * 2 ^ 46 * (Z.pos m * N - P)) as Hkey.
  { subst P. change (25 * 2 ^ 48) with (100 * 2 ^ 46).
    replace ((Z.pos m * U - 100 * Z.pos mq * V) * (N * 2 ^ 46))
      with (Z.pos m * N * (U * 2 ^ 46) - 100 * Z.pos mq * 2 ^ 46 * (V * N)) by ring.
    rewrite <- Hpow. ring. }
  assert (Z.abs (Z.pos m * N - P) ≤ N) as Hclose by (apply Z.abs_le; nia).
  assert (Z.abs ((Z.pos m * U - 100 * Z.pos mq * V) * (N * 2 ^ 46))
          ≤ U * (N * 2 ^ 46)) as Hscaled.
  { rewrite Hkey, Z.abs_mul, (Z.abs_eq (U * 2 ^ 46)) by nia.
    replace (U * (N * 2 ^ 46)) with (U * 2 ^ 46 * N) by ring.
    apply Z.mul_le_mono_nonneg_l; [nia | done]. }
  rewrite Z.abs_mul, (Z.abs_eq (N * 2 ^ 46)) in Hscaled by nia.
  apply Z.mul_le_mono_pos_r in Hscaled; [done | nia].
Qed.

(** [Math.round] on a positive double below [2^53]. *)
Lemma round_pos mp Kp :
  0 < Kp →
  Num.round (S754_finite false mp (- Kp))
  = Num.of_Z ((2 * Z.pos mp + 2 ^ Kp) / 2 ^ (Kp + 1)).
Proof.
  intros HKp. destruct Kp as [|k|k]; try lia.
  change (- Z.pos k) with (Z.neg k). cbn [Num.round cond_Zopp]. cbv zeta.
  match goal with
  | |- context [?z =? 0] => destruct (Z.eqb_spec z 0) as [Hz|]
  end; [by rewrite Hz | done].
Qed.


(** The arithmetic behind the rate: [q] is within [1/U] of [d/n], [p]
    within [1/V] of [100 q], and [k] is [p] rounded; the two errors are too
    small to move [k] away from the integers nearest to [100 d / n]. *)
Lemma nearest_hundredth d n mq mp U V k :
  0 ≤ d → 0 < n < 2 ^ 40 → 2 ^ 51 ≤ U → 2 ^ 43 ≤ V →
  Z.abs (mq * n - d * U) ≤ n →
  Z.abs (mp * U - 100 * mq * V) ≤ U →
  2 * V * k ≤ 2 * mp + V < 2 * V * k + 2 * V →
  Z.abs (200 * d - 2 * k * n) ≤ n.
Proof.
  intros Hd Hn HU HV Hq Hp [Hk1 Hk2].
  apply Z.abs_le in Hq as [Hq1 Hq2]. apply Z.abs_le in Hp as [Hp1 Hp2].
  assert (0 < U) as HU0 by lia. assert (0 < V) as HV0 by lia.
  assert (0 < U * V) as HUV by (apply Z.mul_pos_pos; lia).
  assert (0 ≤ n * U) as HnU by (apply Z.mul_nonneg_nonneg; lia).
  assert (2 * (n * U) + 200 * V * n < U * V) as Hsmall.
  { assert (8 * n * U ≤ V * U) by (apply Z.mul_le_mono_nonneg_r; lia).
    assert (8 * (200 * n) * V ≤ U * V) by (apply Z.mul_le_mono_nonneg_r; lia).
    lia. }
  assert ((200 * d - 2 * k * n) * (U * V) < (n + 1) * (U * V)) as Hup.
  { assert (200 * V * (d * U) ≤ 200 * V * (mq * n + n)) as H1
      by (apply Z.mul_le_mono_nonneg_l; lia).
    assert (2 * n * (100 * mq * V) ≤ 2 * n * (mp * U + U)) as H2
      by (apply Z.mul_le_mono_nonneg_l; lia).
    assert (n * U * (2 * mp) ≤ n * U * (2 * V * k + 2 * V - V - 1)) as H3
      by (apply Z.mul_le_mono_nonneg_l; lia).
    replace ((200 * d - 2 * k * n) * (U * V))
      with (200 * V * (d * U) - 2 * k * n * U * V) by ring.
    replace (200 * V * (mq * n + n))
      with (2 * n * (100 * mq * V) + 200 * V * n) in H1 by ring.
    replace (2 * n * (mp * U + U)) with (n * U * (2 * mp) + 2 * (n * U)) in H2 by ring.
    replace (n * U * (2 * V * k + 2 * V - V - 1))
      with (2 * k * n * U * V + n * (U * V) - n * U) in H3 by ring.
    lia. }
  assert (- (n + 1) * (U * V) < (200 * d - 2 * k * n) * (U * V)) as Hdown.
  { assert (200 * V * (mq * n - n) ≤ 200 * V * (d * U)) as H1
      by (apply Z.mul_le_mono_nonneg_l; lia).
    assert (2 * n * (mp * U - U) ≤ 2 * n * (100 * mq * V)) as H2
      by (apply Z.mul_le_mono_nonneg_l; lia).
    assert (n * U * (2 * V * k - V) ≤ n * U * (2 * mp)) as H3
      by (apply Z.mul_le_mono_nonneg_l; lia).
    replace ((200 * d - 2 * k * n) * (U * V))
      with (200 * V * (d * U) - 2 * k * n * U * V) by ring.
    replace (200 * V * (mq * n - n))
      with (2 * n * (100 * mq * V) - 200 * V * n) in H1 by ring.
    replace (2 * n * (mp * U - U)) with (n * U * (2 * mp) - 2 * (n * U)) in H2 by ring.
    replace (n * U * (2 * V * k - V))
      with (2 * k * n * U * V - n * (U * V)) in H3 by ring.
    lia. }
  apply Z.abs_le. split.
  - assert (- (n + 1) < 200 * d - 2 * k * n); [|lia].
    apply (Z.mul_lt_mono_pos_r (U * V)); [done|]. lia.
  - assert (200 * d - 2 * k * n < n + 1); [|lia].
    apply (Z.mul_lt_mono_pos_r (U * V)); [done|]. lia.
Qed.

(** [Math.round(d / n * 100) / 100] for integers [0 < d <= n < 2^40]: the
    double [k / 100] for an integer [k] nearest to [100 d / n]. *)
Lemma rate_pos d n :
  0 < d → d ≤ n → n < 2 ^ 40 →
  ∃ k,
    Num.div (Num.round (Num.mul (Num.div (Num.of_Z d) (Num.of_Z n)) (Num.of_Z 100)))
      (Num.of_Z 100)
    = Num.div (Num.of_Z k) (Num.of_Z 100)
    ∧ Z.abs (200 * d - 2 * k * n) ≤ n.
Proof.
  intros Hd Hdn Hn.
  destruct (of_Z_pos d) as (ma & Ka & -> & HKa & Hma & Hmab & Hda); [lia|].
  destruct (of_Z_pos n) as (mb & Kb & -> & HKb & Hmb & Hmbb & Hnb); [lia|].
  assert (Kb ≤ Ka) as HKab.
  { destruct (Z.le_gt_cases Kb Ka) as [|Hgt]; [done|].
    assert (2 ^ (53 - Kb) ≤ 2 ^ (52 - Ka)) by (apply Z.pow_le_mono_r; lia). lia. }
  destruct (div_pos ma Ka mb Kb) as (mq & Kq & -> & Hmq & HKq & Hq); try lia.
  destruct (mul_100 mq Kq) as (mp & Kp & -> & Hmp & HKp & Hp); try lia.
  rewrite round_pos by lia.
  set (k := (2 * Z.pos mp + 2 ^ Kp) / 2 ^ (Kp + 1)).
  exists k. split; [reflexivity|].
  assert (0 < 2 ^ Ka) as HA by (apply Z.pow_pos_nonneg; lia).
  assert (0 < 2 ^ Kb) as HB by (apply Z.pow_pos_nonneg; lia).
  assert (2 ^ 51 ≤ 2 ^ Kq) as HU by (apply Z.pow_le_mono_r; lia).
  assert (2 ^ 43 ≤ 2 ^ Kp) as HV by (apply Z.pow_le_mono_r; lia).
  apply (nearest_hundredth d n (Z.pos mq) (Z.pos mp) (2 ^ Kq) (2 ^ Kp) k);
    try lia; try done.
  - rewrite Hma, Hmb in Hq.
    set (A := 2 ^ Ka) in *. set (B := 2 ^ Kb) in *. set (U := 2 ^ Kq) in *.
    replace (Z.pos mq * (n * B) * A - d * A * B * U)
      with ((A * B) * (Z.pos mq * n - d * U)) in Hq by ring.
    replace (n * B * A) with ((A * B) * n) in Hq by ring.
    assert (0 < A * B) as HAB by (apply Z.mul_pos_pos; done).
    rewrite Z.abs_mul, (Z.abs_eq (A * B)) in Hq by lia.
    apply Z.mul_le_mono_pos_l in Hq; done.
  - subst k. rewrite Z.pow_add_r by lia. change (2 ^ 1) with 2.
    set (V := 2 ^ Kp) in *.
    pose proof (Z_div_mod_eq_full (2 * Z.pos mp + V) (V * 2)) as Hdm.
    pose proof (Z.mod_pos_bound (2 * Z.pos mp + V) (V * 2)) as Hdb.
    lia.
Qed.


(* ===================================================================== *)
(** * The completion rate of a project *)
(* ===================================================================== *)

Lemma hundredths_finite k :
  0 ≤ k ≤ 100 → Num.is_finite (Num.div (Num.of_Z k) (Num.of_Z 100)) = true.
Proof.
  intros Hk.
  assert (Forall (λ k, Num.is_finite (Num.div (Num.of_Z k) (Num.of_Z 100)) = true)
            (seqZ 0 101)) as Hall.
  { apply (bool_decide_unpack _). by vm_compute. }
  rewrite Forall_forall in Hall. apply Hall, elem_of_seqZ. lia.
Qed.

(** The rate computed from the two counts. *)
Lemma completionRate_counts s projectId :
  let n := total_in projectId s in
  let d := done_in projectId s in
  ProjectStats.completionRate (getProjectStatistics s projectId)
  = Num.div
      (Num.round
         (Num.mul
            (if (0 <? n)%nat then Num.div (Num.of_nat d) (Num.of_nat n) else Num.zero)
            (Num.of_Z 100)))
      (Num.of_Z 100).
Proof.
  intros n d. subst n d. unfold getProjectStatistics, total_in, done_in.
  cbn [ProjectStats.completionRate].
  by rewrite statusCounts_done, length_filter_filter, <- !count_docs_task_docs.
Qed.

(** C6. The [completionRate] that [getProjectStatistics] returns for a
    project of fewer than [2^40] tasks is a finite number, never [NaN]:
    exactly 0 for a project without tasks, and for a project with [n > 0]
    tasks of which [d] are done the double [k / 100] where [k] is an
    integer nearest to [100 d / n], that is, [d / n] rounded to two
    decimals, the doubles deciding which way an exact half goes. *)
Theorem getProjectStatistics_completionRate s projectId :
  let n := total_in projectId s in
  let d := done_in projectId s in
  let rate := ProjectStats.completionRate (getProjectStatistics s projectId) in
  Z.of_nat n < 2 ^ 40 →
  Num.is_finite rate = true
  ∧ (n = 0%nat → rate = Num.zero)
  ∧ ∃ k : Z,
      0 ≤ k ≤ 100
      ∧ rate = Num.div (Num.of_Z k) (Num.of_Z 100)
      ∧ Z.abs (200 * Z.of_nat d - 2 * k * Z.of_nat n) ≤ Z.of_nat n.
Proof.
  intros n d rate Hn.
  pose proof (done_in_le_total_in projectId s) as Hdn. fold n d in Hdn.
  assert (∃ k : Z,
            rate = Num.div (Num.of_Z k) (Num.of_Z 100)
            ∧ Z.abs (200 * Z.of_nat d - 2 * k * Z.of_nat n) ≤ Z.of_nat n
            ∧ (n = 0%nat → k = 0)) as (k & Hrate & Hk & Hzero).
  { subst rate. rewrite completionRate_counts. fold n d.
    destruct (0 <? n)%nat eqn:Hpos.
    - apply Nat.ltb_lt in Hpos. destruct (Nat.eq_dec d 0%nat) as [Hd0 | Hd0].
      + exists 0. rewrite Hd0. split; [|split; [lia|lia]].
        unfold Num.of_nat.
        destruct (of_Z_pos (Z.of_nat n)) as (mb & Kb & -> & _); [lia|].
        reflexivity.
      + destruct (rate_pos (Z.of_nat d) (Z.of_nat n)) as (k & Hk1 & Hk2); try lia.
        exists k. split; [exact Hk1 | split; [exact Hk2 | lia]].
    - apply Nat.ltb_ge in Hpos. exists 0. split; [reflexivity|].
      split; [lia | done]. }
  assert (0 ≤ k ≤ 100) as Hk100.
  { destruct (Nat.eq_dec n 0%nat) as [Hn0 | Hn0]; [rewrite (Hzero Hn0); lia|].
    apply Z.abs_le in Hk. nia. }
  split_and!.
  - rewrite Hrate. by apply hundredths_finite.
  - intros Hn0. rewrite Hrate, (Hzero Hn0). reflexivity.
  - exists k. done.
Qed.

Lemma getProjectStatistics_completionRate_witness :
  ProjectStats.completionRate (getProjectStatistics Sample.empty_store "p1")
    = Num.zero
  ∧ ProjectStats.completionRate (getProjectStatistics Sample.one_done "p1")
    = Num.of_Z 1.
Proof.
  split.
  - destruct (getProjectStatistics_completionRate Sample.empty_store "p1")
      as (_ & Hzero & _); [by vm_compute|].
    apply Hzero. reflexivity.
  - destruct (getProjectStatistics_completionRate Sample.one_done "p1")
      as (_ & _ & k & Hk & Hrate & Hnear); [by vm_compute|].
    rewrite Hrate.
    change (total_in "p1" Sample.one_done) with 1%nat in Hnear.
    change (done_in "p1" Sample.one_done) with 1%nat in Hnear.
    assert (k = 100) as -> by lia. reflexivity.
Defined.

(** C6, where the claim goes wrong.  Of forty tasks twenty-three are done:
    [100 * 23 / 40] is 57.5, which rounds to 58, the rate 0.58.  In doubles
    [23 / 40 * 100] is below 57.5, and the report says 0.57. *)
Lemma getProjectStatistics_rate_23_of_40 :
  total_in "p1" Sample3.forty_tasks = 40%nat
  ∧ done_in "p1" Sample3.forty_tasks = 23%nat
  ∧ 2 * (100 * 23) = (2 * 57 + 1) * 40
  ∧ Num.leb (Num.div (Num.of_Z 115) (Num.of_Z 2))
      (Num.mul (Num.div (Num.of_Z 23) (Num.of_Z 40)) (Num.of_Z 100)) = false
  ∧ ProjectStats.completionRate (getProjectStatistics Sample3.forty_tasks "p1")
    = Num.div (Num.of_Z 57) (Num.of_Z 100)
  ∧ Num.div (Num.of_Z 57) (Num.of_Z 100) ≠ Num.div (Num.of_Z 58) (Num.of_Z 100).
Proof.
  split_and!; try (by vm_compute).
Qed.
